(** * HR / payroll suite: payroll computation, cycle workflow, masking, SSO roles

    A shallow embedding of the payroll routes (server/routes/payroll-service.js),
    the data-masking utility (server/utils/dataMasking.js), the SSO middleware
    (payroll-sso.js), the authentication middleware, the payroll user service,
    the PIN routes, and of the part of the schema those rely on.

    Conventions of the embedding:
    - a DECIMAL column is an exact rational ([Q]);
    - a JavaScript number of the preview is an IEEE 754 binary64 number
      (modules [Double] and [Payroll64]): a DECIMAL value reaches the route
      as its decimal text, [Number] rounds it, and every operation rounds.
      Module [Payroll] holds the same computation before any rounding, in
      exact rationals; it serves the statements in which no rounding takes
      part (which rows the queries select, a line without paid days);
    - what the database reads from the text of a date, and the time zone of
      the server, are parameters of the preview;
    - a table is the list of its rows, in storage order;
    - a route handler is a function from the database (and the request) to a
      response and the database afterwards; the authentication and capability
      middlewares are taken to have let the request through;
    - a JavaScript string is a [string] of 8-bit characters. *)

From Stdlib Require Import ZArith QArith Qminmax Qround Lqa Lia Ascii Sorted.
From Stdlib Require Import DecimalString Floats.SpecFloat.
From stdpp Require Import base gmap strings list.

Local Open Scope Z_scope.

(** ** Calendar dates, and the [Date] built-in as far as the routes use it *)

Module JsDate.

(** A DATE column: year, month number (1..12), day of month. *)
Record date := Date { year : Z; month : Z; day : Z }.

Definition date_le (a b : date) : bool :=
  (year a <? year b)
  || ((year a =? year b)
      && ((month a <? month b) || ((month a =? month b) && (day a <=? day b)))).

Definition isLeap (y : Z) : bool :=
  ((y mod 4 =? 0) && negb (y mod 100 =? 0)) || (y mod 400 =? 0).

(** Length of the month with index [mi] (0 = January .. 11 = December). *)
Definition daysInMonthIdx (y mi : Z) : Z :=
  match mi with
  | 1 => if isLeap y then 29 else 28
  | 3 | 5 | 8 | 10 => 30
  | _ => 31
  end.

(** The [Date] constructor reads a year in 0..99 as 1900 + year. *)
Definition fullYear (y : Z) : Z :=
  if (0 <=? y) && (y <=? 99) then 1900 + y else y.

(** [new Date(y, m, 0)]: the month index [m] overflows into the year, and
    day 0 is the day before the first of that month, so the last day of the
    month before. *)
Definition newDate_day0 (y m : Z) : date :=
  let ym := fullYear y + m / 12 in
  let mn := m mod 12 in
  if mn =? 0 then Date (ym - 1) 12 (daysInMonthIdx (ym - 1) 11)
  else Date ym mn (daysInMonthIdx ym (mn - 1)).

Definition getDate (d : date) : Z := day d.


End JsDate.

(** ** JavaScript coercions on query results *)

Module Js.

(** [Number(x)] on a DECIMAL column of a result row: SQL NULL arrives as
    [null] and converts to 0, a value converts to itself. *)
Definition Number (c : option Q) : Q := default 0%Q c.

(** [a || b] on numbers: 0 is falsy. *)
Definition or_num (a b : Q) : Q := if Qeq_bool a 0 then b else a.

(** [Math.max(a, b)]. *)
Definition Math_max (a b : Q) : Q := Qmax a b.

(** A value of a JSON request body, as far as the routes look at one: a
    number (an integer here), a string, or nothing. *)
Inductive jsval := JUndefined | JNull | JNum (n : Z) | JStr (s : string).

(** Truthiness, for [!x] and [x || y]. *)
Definition truthy (v : jsval) : bool :=
  match v with
  | JUndefined | JNull => false
  | JNum n => negb (n =? 0)
  | JStr s => negb (bool_decide (s = ""))
  end.

Definition or_val (a b : jsval) : jsval := if truthy a then a else b.

Fixpoint skip_ws (s : string) : string :=
  match s with
  | String c s' => if Ascii.is_space c then skip_ws s' else s
  | EmptyString => EmptyString
  end.

Fixpoint all_ws (s : string) : bool :=
  match s with
  | String c s' => Ascii.is_space c && all_ws s'
  | EmptyString => true
  end.

(** The longest prefix of decimal digits, and what follows it. *)
Fixpoint read_digits (acc : option Z) (s : string) : option Z * string :=
  match s with
  | String c s' =>
      match Ascii.is_nat c with
      | Some k => read_digits (Some (10 * default 0 acc + Z.of_nat k)) s'
      | None => (acc, s)
      end
  | EmptyString => (acc, EmptyString)
  end.

(** Leading white space, an optional sign, digits. *)
Definition read_int (s : string) : option Z * string :=
  match skip_ws s with
  | String "-"%char s' =>
      let (v, r) := read_digits None s' in (Z.opp <$> v, r)
  | String "+"%char s' => read_digits None s'
  | s' => read_digits None s'
  end.

(** [parseInt(v, 10)]; [None] is NaN. *)
Definition parseInt (v : jsval) : option Z :=
  match v with
  | JNum n => Some n
  | JStr s => fst (read_int s)
  | JUndefined | JNull => None
  end.

Fixpoint sum (l : list Q) : Q :=
  match l with
  | [] => 0%Q
  | x :: l' => (x + sum l')%Q
  end.

(** A stable insertion sort, for ORDER BY. *)
Section Sort.
Context {A : Type} (le : A → A → bool).

Fixpoint insert_by (x : A) (l : list A) : list A :=
  match l with
  | [] => [x]
  | y :: l' => if le x y then x :: y :: l' else y :: insert_by x l'
  end.

Fixpoint sort_by (l : list A) : list A :=
  match l with
  | [] => []
  | x :: l' => insert_by x (sort_by l')
  end.
End Sort.

End Js.

(** ** The payroll schema *)

Module Schema.

Definition uuid := N.

Inductive employment_status := active | inactive | on_leave | terminated.
Inductive payroll_status :=
  draft | approved | processing | completed | failed | pending_approval.

Global Instance employment_status_eq_dec : EqDecision employment_status.
Proof. solve_decision. Defined.
Global Instance payroll_status_eq_dec : EqDecision payroll_status.
Proof. solve_decision. Defined.

(** The text of an enum value, as it reaches JavaScript. *)
Definition payroll_status_text (s : payroll_status) : string :=
  match s with
  | draft => "draft"
  | approved => "approved"
  | processing => "processing"
  | completed => "completed"
  | failed => "failed"
  | pending_approval => "pending_approval"
  end.

Module Employee.
Record row := {
  id : uuid; tenant_id : uuid; employee_code : string; full_name : string;
  email : string; date_of_joining : option JsDate.date;
  status : employment_status }.
End Employee.

Module Compensation.
Record row := {
  employee_id : uuid; tenant_id : uuid; effective_from : JsDate.date;
  basic_salary : Q; hra : option Q; special_allowance : option Q }.
End Compensation.

Module Cycle.
Record row := {
  id : uuid; tenant_id : uuid; month : Z; year : Z; payday : option Z;
  status : payroll_status; total_employees : Z; total_amount : Q;
  approved_by : option uuid; created_by : option uuid }.
End Cycle.

Module Item.
Record row := {
  id : uuid; tenant_id : uuid; payroll_cycle_id : uuid; employee_id : uuid;
  gross_salary : Q; deductions : Q; net_salary : Q }.
End Item.

Module Settings.
Record row := {
  tenant_id : uuid; pf_rate : option Q; esi_rate : option Q;
  pt_rate : option Q; tds_threshold : option Q }.
End Settings.

Module LeaveRequest.
Record row := {
  tenant_id : uuid; employee_id : uuid; leave_type : string;
  start_date : JsDate.date; end_date : JsDate.date; days : Q;
  status : string }.
End LeaveRequest.

Module Attendance.
Record row := {
  tenant_id : uuid; employee_id : uuid; date : JsDate.date;
  status : string }.
End Attendance.

(** The state of the payroll schema. Timestamps (created_at, updated_at,
    approved_at) are left out. *)
Record db := {
  employees : list Employee.row;
  compensation_structures : list Compensation.row;
  payroll_cycles : list Cycle.row;
  payroll_items : list Item.row;
  payroll_settings : list Settings.row;
  leave_requests : list LeaveRequest.row;
  attendance_records : list Attendance.row }.

End Schema.

(** ** The payroll routes (server/routes/payroll-service.js) *)

Module Payroll.
Import Schema.

(** An HTTP response: the status code and either [{ error: msg }] or the
    JSON payload of the route. *)
Record response (A : Type) := Response { code : Z; body : string + A }.
Arguments Response {A} _ _.
Arguments code {A} _.
Arguments body {A} _.

Definition json {A} (payload : A) : response A := Response 200 (inr payload).
Definition status_error {A} (c : Z) (msg : string) : response A :=
  Response c (inl msg).

(** *** calculateLopAndPaidDays

    Here with exact numbers, and for a month whose first day the database
    reads from the text sent for it; [Payroll64.calculateLopAndPaidDays] is
    the computation as the program runs it. *)

Record LopAndPaidDays := {
  lopDays : Q; paidDays : Q; totalWorkingDays : Z }.

(** The WHERE clause of the leave query; [first] is [$5::date], the first
    day of the month. *)
Definition leave_where (tenantId employeeId : uuid) (year month : Z)
    (first : JsDate.date) (r : LeaveRequest.row) : bool :=
  bool_decide (LeaveRequest.tenant_id r = tenantId)
  && bool_decide (LeaveRequest.employee_id r = employeeId)
  && bool_decide (LeaveRequest.status r = "approved")
  && (((JsDate.year (LeaveRequest.start_date r) =? year)
       && (JsDate.month (LeaveRequest.start_date r) =? month))
      || ((JsDate.year (LeaveRequest.end_date r) =? year)
          && (JsDate.month (LeaveRequest.end_date r) =? month))
      || (JsDate.date_le (LeaveRequest.start_date r) first
          && JsDate.date_le first (LeaveRequest.end_date r))).

(** [CASE WHEN leave_type = 'loss_of_pay' THEN days ELSE 0 END]. *)
Definition lop_case (r : LeaveRequest.row) : Q :=
  if bool_decide (LeaveRequest.leave_type r = "loss_of_pay")
  then LeaveRequest.days r else 0%Q.

(** [COALESCE(SUM(...), 0)] over the selected rows. *)
Definition leave_query (d : db) (tenantId employeeId : uuid) (year month : Z)
    : Q :=
  Js.sum (List.map lop_case
    (List.filter (leave_where tenantId employeeId year month
                    (JsDate.Date year month 1))
                 (leave_requests d))).

Definition attendance_where (tenantId employeeId : uuid) (year month : Z)
    (r : Attendance.row) : bool :=
  bool_decide (Attendance.tenant_id r = tenantId)
  && bool_decide (Attendance.employee_id r = employeeId)
  && bool_decide (Attendance.status r = "lop")
  && (JsDate.year (Attendance.date r) =? year)
  && (JsDate.month (Attendance.date r) =? month).

(** [COUNT( * )] over the selected attendance rows. *)
Definition attendance_query (d : db) (tenantId employeeId : uuid)
    (year month : Z) : Z :=
  Z.of_nat (length
    (List.filter (attendance_where tenantId employeeId year month)
                 (attendance_records d))).

Definition calculateLopAndPaidDays (d : db) (tenantId employeeId : uuid)
    (month year : Z) : LopAndPaidDays :=
  let daysInMonth := JsDate.getDate (JsDate.newDate_day0 year month) in
  let totalWorkingDays := daysInMonth in
  let leaveLopDays := leave_query d tenantId employeeId year month in
  let attendanceLopDays :=
    inject_Z (attendance_query d tenantId employeeId year month) in
  let lopDays := (leaveLopDays + attendanceLopDays)%Q in
  let paidDays := Js.Math_max 0 (inject_Z totalWorkingDays - lopDays)%Q in
  {| lopDays := lopDays; paidDays := paidDays;
     totalWorkingDays := totalWorkingDays |}.

(** *** GET /payroll-cycles/:cycleId/preview

    Here with exact numbers and the last day of the month for the month end
    of the queries; [Payroll64.get_preview] is the handler as the program
    runs it. *)

(** The settings object: the tenant's row, or the defaults of the route. *)
Record settings := {
  pf_rate : option Q; esi_rate : option Q;
  pt_rate : option Q; tds_threshold : option Q }.

Definition settings_of_row (r : Settings.row) : settings :=
  {| pf_rate := Settings.pf_rate r; esi_rate := Settings.esi_rate r;
     pt_rate := Settings.pt_rate r;
     tds_threshold := Settings.tds_threshold r |}.

Definition default_settings : settings :=
  {| pf_rate := Some 12.0%Q; esi_rate := Some 3.25%Q;
     pt_rate := Some 200.0%Q; tds_threshold := Some 250000.0%Q |}.

Module PreviewItem.
Record t := {
  employee_id : uuid; employee_code : string; employee_name : string;
  employee_email : string;
  basic_salary : Q; hra : Q; special_allowance : Q; gross_salary : Q;
  pf_deduction : Q; esi_deduction : Q; tds_deduction : Q;
  pt_deduction : Q; deductions : Q; net_salary : Q;
  lop_days : Q; paid_days : Q; total_working_days : Z }.
End PreviewItem.

Definition find_cycle (d : db) (cycleId tenantId : uuid) : list Cycle.row :=
  List.filter
    (λ c, bool_decide (Cycle.id c = cycleId)
          && bool_decide (Cycle.tenant_id c = tenantId))
    (payroll_cycles d).

Definition settings_query (d : db) (tenantId : uuid) : list Settings.row :=
  List.filter (λ r, bool_decide (Settings.tenant_id r = tenantId))
              (payroll_settings d).

(** ORDER BY e.date_of_joining ASC: NULLs come last. *)
Definition joining_le (a b : Employee.row) : bool :=
  match Employee.date_of_joining a, Employee.date_of_joining b with
  | Some x, Some y => JsDate.date_le x y
  | Some _, None => true
  | None, Some _ => false
  | None, None => true
  end.

Definition employees_query (d : db) (tenantId : uuid)
    (payrollMonthEnd : JsDate.date) : list Employee.row :=
  Js.sort_by joining_le
    (List.filter
      (λ e, bool_decide (Employee.tenant_id e = tenantId)
            && bool_decide (Employee.status e = active)
            && match Employee.date_of_joining e with
               | None => true
               | Some j => JsDate.date_le j payrollMonthEnd
               end)
      (employees d)).

(** ORDER BY effective_from DESC LIMIT 1. *)
Definition compensation_query (d : db) (employeeId tenantId : uuid)
    (payrollMonthEnd : JsDate.date) : list Compensation.row :=
  take 1
    (Js.sort_by
      (λ a b, JsDate.date_le (Compensation.effective_from b)
                             (Compensation.effective_from a))
      (List.filter
        (λ c, bool_decide (Compensation.employee_id c = employeeId)
              && bool_decide (Compensation.tenant_id c = tenantId)
              && JsDate.date_le (Compensation.effective_from c)
                                payrollMonthEnd)
        (compensation_structures d))).

Definition esi (adjustedGross : Q) : Q :=
  if Qle_bool adjustedGross 21000 then (adjustedGross * 0.75) / 100 else 0.

Definition tds (adjustedGross : Q) (st : settings) : Q :=
  let annualIncome := (adjustedGross * 12)%Q in
  if negb (Qle_bool annualIncome (Js.Number (tds_threshold st)))
  then ((annualIncome - Js.Number (tds_threshold st)) * 5) / 100 / 12
  else 0.

(** The body of the loop, once a compensation row is found. *)
Definition preview_item (d : db) (st : settings) (tenantId : uuid)
    (cycle : Cycle.row) (employee : Employee.row)
    (compensation : Compensation.row) : PreviewItem.t :=
  let monthlyBasic :=
    Js.or_num (Js.Number (Some (Compensation.basic_salary compensation))) 0 in
  let monthlyHRA := Js.or_num (Js.Number (Compensation.hra compensation)) 0 in
  let monthlySA :=
    Js.or_num (Js.Number (Compensation.special_allowance compensation)) 0 in
  let grossSalary := (monthlyBasic + monthlyHRA + monthlySA)%Q in
  let r := calculateLopAndPaidDays d tenantId (Employee.id employee)
             (Cycle.month cycle) (Cycle.year cycle) in
  let dailyRate := (grossSalary / inject_Z (totalWorkingDays r))%Q in
  let adjustedGross := (dailyRate * paidDays r)%Q in
  let adjustmentRatio := (paidDays r / inject_Z (totalWorkingDays r))%Q in
  let pfDeduction :=
    ((monthlyBasic * adjustmentRatio * Js.Number (pf_rate st)) / 100)%Q in
  let esiDeduction := esi adjustedGross in
  let ptDeduction := Js.or_num (Js.Number (pt_rate st)) 200 in
  let tdsDeduction := tds adjustedGross st in
  let totalDeductions :=
    (pfDeduction + esiDeduction + ptDeduction + tdsDeduction)%Q in
  let netSalary := (adjustedGross - totalDeductions)%Q in
  {| PreviewItem.employee_id := Employee.id employee;
     PreviewItem.employee_code := Employee.employee_code employee;
     PreviewItem.employee_name := Employee.full_name employee;
     PreviewItem.employee_email := Employee.email employee;
     PreviewItem.basic_salary := (monthlyBasic * adjustmentRatio)%Q;
     PreviewItem.hra := (monthlyHRA * adjustmentRatio)%Q;
     PreviewItem.special_allowance := (monthlySA * adjustmentRatio)%Q;
     PreviewItem.gross_salary := adjustedGross;
     PreviewItem.pf_deduction := pfDeduction;
     PreviewItem.esi_deduction := esiDeduction;
     PreviewItem.tds_deduction := tdsDeduction;
     PreviewItem.pt_deduction := ptDeduction;
     PreviewItem.deductions := totalDeductions;
     PreviewItem.net_salary := netSalary;
     PreviewItem.lop_days := lopDays r;
     PreviewItem.paid_days := paidDays r;
     PreviewItem.total_working_days := totalWorkingDays r |}.

(** [settingsResult.rows[0] || { pf_rate: 12.0, ... }]. *)
Definition preview_settings (d : db) (tenantId : uuid) : settings :=
  match settings_query d tenantId with
  | [] => default_settings
  | r :: _ => settings_of_row r
  end.

(** The loop over the employees: one without a compensation row effective
    by the end of the month is skipped. *)
Fixpoint preview_loop (d : db) (st : settings) (tenantId : uuid)
    (cycle : Cycle.row) (payrollMonthEnd : JsDate.date)
    (rows : list Employee.row) : list PreviewItem.t :=
  match rows with
  | [] => []
  | employee :: rest =>
      match compensation_query d (Employee.id employee) tenantId
              payrollMonthEnd with
      | [] => preview_loop d st tenantId cycle payrollMonthEnd rest
      | compensation :: _ =>
          preview_item d st tenantId cycle employee compensation
          :: preview_loop d st tenantId cycle payrollMonthEnd rest
      end
  end.

Definition get_preview (d : db) (tenantId cycleId : uuid)
    : response (list PreviewItem.t) :=
  match find_cycle d cycleId tenantId with
  | [] => status_error 404 "Payroll cycle not found"
  | cycle :: _ =>
      let payrollMonthEnd :=
        JsDate.newDate_day0 (Cycle.year cycle) (Cycle.month cycle) in
      let st := preview_settings d tenantId in
      json (preview_loop d st tenantId cycle payrollMonthEnd
              (employees_query d tenantId payrollMonthEnd))
  end.

(** *** The cycle actions: process, submit, approve, reject *)

Definition with_payroll_cycles (d : db) (cs : list Cycle.row) : db :=
  {| employees := employees d;
     compensation_structures := compensation_structures d;
     payroll_cycles := cs;
     payroll_items := payroll_items d;
     payroll_settings := payroll_settings d;
     leave_requests := leave_requests d;
     attendance_records := attendance_records d |}.

Definition set_status (s : payroll_status) (approver : option uuid)
    (c : Cycle.row) : Cycle.row :=
  {| Cycle.id := Cycle.id c; Cycle.tenant_id := Cycle.tenant_id c;
     Cycle.month := Cycle.month c; Cycle.year := Cycle.year c;
     Cycle.payday := Cycle.payday c; Cycle.status := s;
     Cycle.total_employees := Cycle.total_employees c;
     Cycle.total_amount := Cycle.total_amount c;
     Cycle.approved_by := approver;
     Cycle.created_by := Cycle.created_by c |}.

(** [UPDATE payroll.payroll_cycles SET ... WHERE id = $1 AND tenant_id = $2]. *)
Definition update_cycle (f : Cycle.row → Cycle.row) (cycleId tenantId : uuid)
    (d : db) : db :=
  with_payroll_cycles d
    (List.map
      (λ c, if bool_decide (Cycle.id c = cycleId)
               && bool_decide (Cycle.tenant_id c = tenantId)
            then f c else c)
      (payroll_cycles d)).

(** The statement GET /payroll-cycles runs before it lists the cycles: a
    cycle of a past month that is neither completed nor failed becomes
    completed. *)
Definition auto_update_past_cycles (d : db) (tenantId : uuid)
    (currentYear currentMonth : Z) : db :=
  with_payroll_cycles d
    (List.map
      (λ c, if bool_decide (Cycle.tenant_id c = tenantId)
               && negb (bool_decide (Cycle.status c = completed))
               && negb (bool_decide (Cycle.status c = failed))
               && ((Cycle.year c <? currentYear)
                   || ((Cycle.year c =? currentYear)
                       && (Cycle.month c <? currentMonth)))
            then set_status completed (Cycle.approved_by c) c else c)
      (payroll_cycles d)).

Record ok_message := { success : bool; message : string }.

(** POST /payroll-cycles/:cycleId/process. [audit_ok] tells whether the
    call of auditPayroll returned; the audit rows are not part of [db]. *)
Definition post_process (audit_ok : bool) (d : db) (tenantId cycleId : uuid)
    : response ok_message * db :=
  match find_cycle d cycleId tenantId with
  | [] => (status_error 404 "Payroll cycle not found", d)
  | cycle :: _ =>
      if negb (bool_decide (Cycle.status cycle = approved)) then
        (status_error 400
           ("Cannot process payroll. Current status is '"
            +:+ payroll_status_text (Cycle.status cycle)
            +:+ "'. Only 'approved' payroll can be processed."), d)
      else
        let d' :=
          update_cycle (λ c, set_status processing (Cycle.approved_by c) c)
            cycleId tenantId d in
        if audit_ok
        then (json {| success := true;
                      message := "Payroll processing started" |}, d')
        else (status_error 500 "Failed to process payroll", d')
  end.

Definition post_submit (d : db) (tenantId cycleId : uuid)
    : response ok_message * db :=
  (json {| success := true; message := "Payroll submitted for approval" |},
   update_cycle (λ c, set_status pending_approval (Cycle.approved_by c) c)
     cycleId tenantId d).

Definition post_approve (d : db) (userId tenantId cycleId : uuid)
    : response ok_message * db :=
  (json {| success := true; message := "Payroll approved" |},
   update_cycle (set_status approved (Some userId)) cycleId tenantId d).

Definition post_reject (d : db) (tenantId cycleId : uuid)
    : response ok_message * db :=
  (json {| success := true; message := "Payroll rejected" |},
   update_cycle (λ c, set_status draft (Cycle.approved_by c) c)
     cycleId tenantId d).

(** *** POST /payroll-cycles *)

Module CycleBody.
Record t := {
  month : Js.jsval; year : Js.jsval; payday : Js.jsval;
  employeeCount : Js.jsval; totalCompensation : option Q }.
End CycleBody.

(** How the database reads a parameter bound to an INTEGER column: a number
    as it is, a string when all of it (white space apart) is an integer.
    INTEGER is taken unbounded. *)
Definition pg_integer (v : Js.jsval) : option Z :=
  match v with
  | Js.JNum n => Some n
  | Js.JStr s =>
      let (n, rest) := Js.read_int s in if Js.all_ws rest then n else None
  | Js.JUndefined | Js.JNull => None
  end.

(** [gen_random_uuid()]: an id no row of the table has. *)
Definition fresh_id (cs : list Cycle.row) : uuid :=
  N.succ (fold_right N.max 0%N (List.map Cycle.id cs)).

Definition same_period (a b : Cycle.row) : bool :=
  bool_decide (Cycle.tenant_id a = Cycle.tenant_id b)
  && (Cycle.month a =? Cycle.month b) && (Cycle.year a =? Cycle.year b).

(** INSERT INTO payroll.payroll_cycles under the constraints of the table:
    the two CHECKs, then UNIQUE(tenant_id, month, year). The left side is
    the SQLSTATE of the error. *)
Definition insert_cycle (r : Cycle.row) (cs : list Cycle.row)
    : string + list Cycle.row :=
  if negb ((1 <=? Cycle.month r) && (Cycle.month r <=? 12)) then inl "23514"
  else if negb (match Cycle.payday r with
                | None => true
                | Some p => (1 <=? p) && (p <=? 31)
                end) then inl "23514"
  else if existsb (same_period r) cs then inl "23505"
  else inr (cs ++ [r]).

(** The handler. A past cycle and a current one end in the same response,
    so the clock is not a parameter. The scale of DECIMAL(15,2) is not
    applied to total_amount. *)
Definition post_payroll_cycles (audit_ok : bool) (d : db)
    (tenantId userId : uuid) (b : CycleBody.t)
    : response Cycle.row * db :=
  if negb (Js.truthy (CycleBody.month b))
     || negb (Js.truthy (CycleBody.year b))
     || negb (Js.truthy (CycleBody.payday b))
  then (status_error 400 "Month, year, and payday are required", d)
  else
    match Js.parseInt (CycleBody.month b), Js.parseInt (CycleBody.year b),
          pg_integer (CycleBody.payday b),
          pg_integer (Js.or_val (CycleBody.employeeCount b) (Js.JNum 0)) with
    | Some m, Some y, Some p, Some n =>
        let cycle :=
          {| Cycle.id := fresh_id (payroll_cycles d);
             Cycle.tenant_id := tenantId; Cycle.month := m; Cycle.year := y;
             Cycle.payday := Some p; Cycle.status := draft;
             Cycle.total_employees := n;
             Cycle.total_amount :=
               Js.or_num (default 0%Q (CycleBody.totalCompensation b)) 0;
             Cycle.approved_by := None; Cycle.created_by := Some userId |} in
        match insert_cycle cycle (payroll_cycles d) with
        | inl sqlstate =>
            if bool_decide (sqlstate = "23505")
            then (status_error 409
                    "A payroll cycle for this month and year already exists.",
                  d)
            else (status_error 500 "Failed to create payroll cycle", d)
        | inr cs =>
            if audit_ok
            then (Response 201 (inr cycle), with_payroll_cycles d cs)
            else (status_error 500 "Failed to create payroll cycle",
                  with_payroll_cycles d cs)
        end
    | _, _, _, _ => (status_error 500 "Failed to create payroll cycle", d)
    end.

(** *** GET /payslips *)

Module Payslip.
(** [pi.*, pc.month, pc.year, pc.status as cycle_status]. *)
Record row := {
  item : Item.row; month : Z; year : Z; cycle_status : payroll_status }.
End Payslip.

Definition employee_by_email (d : db) (tenantId : uuid) (email : string)
    : list Employee.row :=
  take 1
    (List.filter
      (λ e, bool_decide (Employee.tenant_id e = tenantId)
            && bool_decide (Employee.email e = email))
      (employees d)).

(** ORDER BY pc.year DESC, pc.month DESC. *)
Definition payslip_le (a b : Payslip.row) : bool :=
  (Payslip.year b <? Payslip.year a)
  || ((Payslip.year b =? Payslip.year a)
      && (Payslip.month b <=? Payslip.month a)).

Definition payslips_query (d : db) (employeeId tenantId : uuid)
    : list Payslip.row :=
  Js.sort_by payslip_le
    (flat_map
      (λ it,
         List.map
           (λ pc, {| Payslip.item := it; Payslip.month := Cycle.month pc;
                     Payslip.year := Cycle.year pc;
                     Payslip.cycle_status := Cycle.status pc |})
           (List.filter
             (λ pc, bool_decide (Cycle.id pc = Item.payroll_cycle_id it))
             (payroll_cycles d)))
      (List.filter
        (λ it, bool_decide (Item.employee_id it = employeeId)
               && bool_decide (Item.tenant_id it = tenantId))
        (payroll_items d))).

(** The first statement of the handler,
    SELECT * FROM payroll.get_own_payslip($1, pi.payroll_cycle_id, $2)
    FROM payroll.payroll_items pi JOIN ... WHERE ... ORDER BY ...,
    has two FROM clauses. The database refuses it when it parses it (a
    syntax error, SQLSTATE 42601), whatever the parameters and the tables:
    [query] throws, and there is no result. *)
Definition own_payslip_query (d : db) (employeeId : uuid) (email : string)
    (tenantId : uuid) : option (list Payslip.row) :=
  None.

(** The handler: the statement that is refused, then the query for the
    rows and the audit entry; what is thrown is answered with 500. *)
Definition get_payslips (audit_ok : bool) (d : db) (tenantId : uuid)
    (email : string) : response (list Payslip.row) :=
  match employee_by_email d tenantId email with
  | [] => json []
  | emp :: _ =>
      let employeeId := Employee.id emp in
      match own_payslip_query d employeeId email tenantId with
      | None => status_error 500 "Failed to fetch payslips"
      | Some payslipsResult =>
          let payslips := payslips_query d employeeId tenantId in
          if audit_ok then json payslips
          else status_error 500 "Failed to fetch payslips"
      end
  end.

End Payroll.

(** ** JavaScript numbers: IEEE 754 binary64 *)

Module Double.

Definition prec : Z := 53.
Definition emax : Z := 1024.

(** A number: a zero or an infinity with its sign, NaN, or
    (-1)^s x m x 2^e. The operations round to nearest, ties to even. *)
Definition number := spec_float.

Definition NaN : number := S754_nan.

(** An integer as a number: a literal of the program, a count. *)
Definition of_Z (z : Z) : number := binary_normalize prec emax z 0 false.

(** The number nearest to a rational: what [Number(text)] gives for the
    decimal text of a NUMERIC value. The quotient of numerator and
    denominator, in lowest terms, is rounded once. *)
Definition of_Q (q : Q) : number :=
  let r := Qred q in
  match Qnum r with
  | Z0 => S754_zero false
  | Zpos n => SFdiv prec emax (S754_finite false n 0)
                (S754_finite false (Qden r) 0)
  | Zneg n => SFdiv prec emax (S754_finite true n 0)
                (S754_finite false (Qden r) 0)
  end.

Definition add : number → number → number := SFadd prec emax.
Definition sub : number → number → number := SFsub prec emax.
Definition mul : number → number → number := SFmul prec emax.
Definition div : number → number → number := SFdiv prec emax.



(** [a <= b] and [a > b]: both false when one side is NaN. *)
Definition le (a b : number) : bool := SFleb a b.
Definition gt (a b : number) : bool := SFltb b a.
(** [a === b] on numbers. *)
Definition eqb (a b : number) : bool := SFeqb a b.

(** [Number(x)] on a DECIMAL column of a result row: SQL NULL arrives as
    [null] and converts to 0, a value arrives as its decimal text. *)
Definition Number (c : option Q) : number :=
  match c with
  | None => S754_zero false
  | Some q => of_Q q
  end.

(** [a || b] on numbers: 0, -0 and NaN are falsy. *)
Definition or_num (a b : number) : number :=
  match a with
  | S754_zero _ | S754_nan => b
  | _ => a
  end.

(** [Math.max(a, b)]: NaN when one argument is, and +0 above -0. *)
Definition Math_max (a b : number) : number :=
  match a, b with
  | S754_nan, _ | _, S754_nan => S754_nan
  | _, _ =>
      match SFcompare a b with
      | Some Lt => b
      | Some Gt => a
      | _ => match a with S754_zero true => b | _ => a end
      end
  end.

End Double.

(** ** Time values of the [Date] built-in *)

Module JsTime.

(** Days from 1 January 1970 to a date of the proleptic Gregorian
    calendar. *)
Definition days_from_civil (d : JsDate.date) : Z :=
  let y := if JsDate.month d <=? 2 then JsDate.year d - 1 else JsDate.year d in
  let era := y / 400 in
  let yoe := y - era * 400 in
  let mp := (JsDate.month d + 9) mod 12 in
  let doy := (153 * mp + 2) / 5 + JsDate.day d - 1 in
  let doe := yoe * 365 + yoe / 4 - yoe / 100 + doy in
  era * 146097 + doe - 719468.

Definition civil_from_days (z : Z) : JsDate.date :=
  let z := z + 719468 in
  let era := z / 146097 in
  let doe := z - era * 146097 in
  let yoe := (doe - doe / 1460 + doe / 36524 - doe / 146096) / 365 in
  let doy := doe - (365 * yoe + yoe / 4 - yoe / 100) in
  let mp := (5 * doy + 2) / 153 in
  let d := doy - (153 * mp + 2) / 5 + 1 in
  let m := if mp <? 10 then mp + 3 else mp - 9 in
  JsDate.Date (if m <=? 2 then yoe + era * 400 + 1 else yoe + era * 400) m d.

Definition msPerDay : Z := 86400000.

(** [String(n)] for an integer. *)
Definition String_of_int (n : Z) : string :=
  NilZero.string_of_int (Z.to_int n).

(** [s.padStart(n, '0')]. *)
Definition padStart (n : nat) (s : string) : string :=
  String.concat "" (replicate (n - String.length s) "0") +:+ s.

(** The year of an ISO text: four digits for 0..9999, else a sign and six
    digits. *)
Definition iso_year (y : Z) : string :=
  if (0 <=? y) && (y <=? 9999) then padStart 4 (String_of_int y)
  else (if y <? 0 then "-" else "+") +:+ padStart 6 (String_of_int (Z.abs y)).

Section Zone.
(** The offset of local time from UTC, in milliseconds, at the local
    midnight that begins a date (19800000 for Asia/Kolkata). *)
Variable LocalTZA : JsDate.date → Z.

(** The time value of [new Date(y, m, 0)], local midnight of the last day
    of month [m]; [None] is an Invalid Date, beyond 100,000,000 days from
    the epoch. *)
Definition newDate_day0 (y m : Z) : option Z :=
  let local := JsDate.newDate_day0 y m in
  let tv := days_from_civil local * msPerDay - LocalTZA local in
  if Z.abs tv <=? 100000000 * msPerDay then Some tv else None.

(** [getDate()], the day of the month in local time, here of a time value
    made by [newDate_day0 y m]; NaN on an Invalid Date. *)
Definition getDate_day0 (y m : Z) : Double.number :=
  match newDate_day0 y m with
  | Some _ => Double.of_Z (JsDate.getDate (JsDate.newDate_day0 y m))
  | None => Double.NaN
  end.

End Zone.

(** [toISOString()] of a time value: YYYY-MM-DDTHH:mm:ss.sssZ, in UTC. *)
Definition toISOString (tv : Z) : string :=
  let date := civil_from_days (tv / msPerDay) in
  let ms := tv mod msPerDay in
  iso_year (JsDate.year date)
  +:+ "-" +:+ padStart 2 (String_of_int (JsDate.month date))
  +:+ "-" +:+ padStart 2 (String_of_int (JsDate.day date))
  +:+ "T" +:+ padStart 2 (String_of_int (ms / 3600000))
  +:+ ":" +:+ padStart 2 (String_of_int (ms / 60000 mod 60))
  +:+ ":" +:+ padStart 2 (String_of_int (ms / 1000 mod 60))
  +:+ "." +:+ padStart 3 (String_of_int (ms mod 1000))
  +:+ "Z".

End JsTime.


(** ** The preview in binary64 (server/routes/payroll-service.js) *)

Module Payroll64.
Import Schema.

Record LopAndPaidDays := {
  lopDays : Double.number; paidDays : Double.number;
  totalWorkingDays : Double.number }.

Module PreviewItem.
Record t := {
  employee_id : uuid; employee_code : string; employee_name : string;
  employee_email : string;
  basic_salary : Double.number; hra : Double.number;
  special_allowance : Double.number; gross_salary : Double.number;
  pf_deduction : Double.number; esi_deduction : Double.number;
  tds_deduction : Double.number; pt_deduction : Double.number;
  deductions : Double.number; net_salary : Double.number;
  lop_days : Double.number; paid_days : Double.number;
  total_working_days : Double.number }.
End PreviewItem.

(** The text [`${year}-${String(month).padStart(2, '0')}-01`]. *)
Definition first_of_month (year month : Z) : string :=
  JsTime.String_of_int year
  +:+ "-" +:+ JsTime.padStart 2 (JsTime.String_of_int month) +:+ "-01".

Definition esi (adjustedGross : Double.number) : Double.number :=
  if Double.le adjustedGross (Double.of_Z 21000)
  then Double.div (Double.mul adjustedGross (Double.of_Q 0.75))
                  (Double.of_Z 100)
  else Double.of_Z 0.

Definition tds (adjustedGross : Double.number) (st : Payroll.settings)
    : Double.number :=
  let annualIncome := Double.mul adjustedGross (Double.of_Z 12) in
  if Double.gt annualIncome (Double.Number (Payroll.tds_threshold st))
  then Double.div
         (Double.div
            (Double.mul
               (Double.sub annualIncome
                  (Double.Number (Payroll.tds_threshold st)))
               (Double.of_Z 5))
            (Double.of_Z 100))
         (Double.of_Z 12)
  else Double.of_Z 0.

Section Environment.

(** What the database makes of a text sent for a DATE: the date it reads,
    or [None] when it refuses the text (SQLSTATE 22007 or 22008). *)
Variable date_in : string → option JsDate.date.

(** The time zone of the server process. *)
Variable LocalTZA : JsDate.date → Z.

(** The leave query; it fails when the database refuses [$5::date]. *)
Definition leave_query (d : db) (tenantId employeeId : uuid) (year month : Z)
    : option Q :=
  match date_in (first_of_month year month) with
  | None => None
  | Some first =>
      Some (Js.sum (List.map Payroll.lop_case
              (List.filter
                 (Payroll.leave_where tenantId employeeId year month first)
                 (leave_requests d))))
  end.

(** [None]: the promise is rejected. *)
Definition calculateLopAndPaidDays (d : db) (tenantId employeeId : uuid)
    (month year : Z) : option LopAndPaidDays :=
  let daysInMonth := JsTime.getDate_day0 LocalTZA year month in
  let totalWorkingDays := daysInMonth in
  match leave_query d tenantId employeeId year month with
  | None => None
  | Some lop_days =>
      let leaveLopDays := Double.of_Q lop_days in
      let attendanceLopDays :=
        Double.of_Z
          (Payroll.attendance_query d tenantId employeeId year month) in
      let lopDays := Double.add leaveLopDays attendanceLopDays in
      let paidDays :=
        Double.Math_max (Double.of_Z 0)
          (Double.sub totalWorkingDays lopDays) in
      Some {| lopDays := lopDays; paidDays := paidDays;
              totalWorkingDays := totalWorkingDays |}
  end.

(** The body of the loop, once a compensation row is found. *)
Definition preview_item (d : db) (st : Payroll.settings) (tenantId : uuid)
    (cycle : Cycle.row) (employee : Employee.row)
    (compensation : Compensation.row) : option PreviewItem.t :=
  let monthlyBasic :=
    Double.or_num
      (Double.Number (Some (Compensation.basic_salary compensation)))
      (Double.of_Z 0) in
  let monthlyHRA :=
    Double.or_num (Double.Number (Compensation.hra compensation))
      (Double.of_Z 0) in
  let monthlySA :=
    Double.or_num
      (Double.Number (Compensation.special_allowance compensation))
      (Double.of_Z 0) in
  let grossSalary :=
    Double.add (Double.add monthlyBasic monthlyHRA) monthlySA in
  match calculateLopAndPaidDays d tenantId (Employee.id employee)
          (Cycle.month cycle) (Cycle.year cycle) with
  | None => None
  | Some r =>
      let dailyRate := Double.div grossSalary (totalWorkingDays r) in
      let adjustedGross := Double.mul dailyRate (paidDays r) in
      let adjustmentRatio := Double.div (paidDays r) (totalWorkingDays r) in
      let pfDeduction :=
        Double.div
          (Double.mul (Double.mul monthlyBasic adjustmentRatio)
                      (Double.Number (Payroll.pf_rate st)))
          (Double.of_Z 100) in
      let esiDeduction := esi adjustedGross in
      let ptDeduction :=
        Double.or_num (Double.Number (Payroll.pt_rate st))
          (Double.of_Z 200) in
      let tdsDeduction := tds adjustedGross st in
      let totalDeductions :=
        Double.add
          (Double.add (Double.add pfDeduction esiDeduction) ptDeduction)
          tdsDeduction in
      let netSalary := Double.sub adjustedGross totalDeductions in
      Some
        {| PreviewItem.employee_id := Employee.id employee;
           PreviewItem.employee_code := Employee.employee_code employee;
           PreviewItem.employee_name := Employee.full_name employee;
           PreviewItem.employee_email := Employee.email employee;
           PreviewItem.basic_salary :=
             Double.mul monthlyBasic adjustmentRatio;
           PreviewItem.hra := Double.mul monthlyHRA adjustmentRatio;
           PreviewItem.special_allowance :=
             Double.mul monthlySA adjustmentRatio;
           PreviewItem.gross_salary := adjustedGross;
           PreviewItem.pf_deduction := pfDeduction;
           PreviewItem.esi_deduction := esiDeduction;
           PreviewItem.tds_deduction := tdsDeduction;
           PreviewItem.pt_deduction := ptDeduction;
           PreviewItem.deductions := totalDeductions;
           PreviewItem.net_salary := netSalary;
           PreviewItem.lop_days := lopDays r;
           PreviewItem.paid_days := paidDays r;
           PreviewItem.total_working_days := totalWorkingDays r |}
  end.

(** The loop over the employees: one without a compensation row effective
    by [payrollMonthEnd] is skipped; a rejected promise ends the loop. *)
Fixpoint preview_loop (d : db) (st : Payroll.settings) (tenantId : uuid)
    (cycle : Cycle.row) (payrollMonthEnd : JsDate.date)
    (rows : list Employee.row) : option (list PreviewItem.t) :=
  match rows with
  | [] => Some []
  | employee :: rest =>
      match Payroll.compensation_query d (Employee.id employee) tenantId
              payrollMonthEnd with
      | [] => preview_loop d st tenantId cycle payrollMonthEnd rest
      | compensation :: _ =>
          match preview_item d st tenantId cycle employee compensation with
          | None => None
          | Some item =>
              match preview_loop d st tenantId cycle payrollMonthEnd rest
              with
              | None => None
              | Some items => Some (item :: items)
              end
          end
      end
  end.

(** The date the database reads from [payrollMonthEnd.toISOString()], the
    parameter of the employees query and of the compensation queries;
    [None] when [toISOString] throws on an Invalid Date or the database
    refuses the text. *)
Definition payrollMonthEnd (cycle : Cycle.row) : option JsDate.date :=
  match JsTime.newDate_day0 LocalTZA (Cycle.year cycle) (Cycle.month cycle)
  with
  | None => None
  | Some tv => date_in (JsTime.toISOString tv)
  end.

(** The handler; the numbers are those handed to [res.json]. *)
Definition get_preview (d : db) (tenantId cycleId : uuid)
    : Payroll.response (list PreviewItem.t) :=
  match Payroll.find_cycle d cycleId tenantId with
  | [] => Payroll.status_error 404 "Payroll cycle not found"
  | cycle :: _ =>
      let st := Payroll.preview_settings d tenantId in
      match payrollMonthEnd cycle with
      | None => Payroll.status_error 500 "Failed to preview payroll"
      | Some monthEnd =>
          match preview_loop d st tenantId cycle monthEnd
                  (Payroll.employees_query d tenantId monthEnd) with
          | None => Payroll.status_error 500 "Failed to preview payroll"
          | Some payrollItems => Payroll.json payrollItems
          end
      end
  end.

End Environment.

End Payroll64.

(** ** Data masking (server/utils/dataMasking.js) *)

Module Masking.

(** *** The string methods the masks use *)

Definition is_digit (c : ascii) : bool :=
  match Ascii.is_nat c with Some _ => true | None => false end.

(** [s.replace(/re/g, '')] for a one-character class [p]. *)
Fixpoint remove (p : ascii → bool) (s : string) : string :=
  match s with
  | EmptyString => EmptyString
  | String c s' => if p c then remove p s' else String c (remove p s')
  end.

Definition non_digit (c : ascii) : bool := negb (is_digit c).

(** [toUpperCase] as it is on ASCII: the letters a..z are raised, every
    other character is left as it is. *)
Definition upper_char (c : ascii) : ascii :=
  let n := N_of_ascii c in
  if ((97 <=? n) && (n <=? 122))%N then ascii_of_N (n - 32) else c.

Fixpoint toUpperCase (s : string) : string :=
  match s with
  | EmptyString => EmptyString
  | String c s' => String (upper_char c) (toUpperCase s')
  end.

Fixpoint drop (n : nat) (s : string) : string :=
  match n, s with
  | O, _ => s
  | S n', String _ s' => drop n' s'
  | S _, EmptyString => EmptyString
  end.

(** [s.slice(-k)]: the last [k] characters, all of [s] when it is shorter. *)
Definition slice_last (k : nat) (s : string) : string :=
  drop (String.length s - k) s.

(** Every character of [s] satisfies [p]. *)
Fixpoint all_chars (p : ascii → bool) (s : string) : bool :=
  match s with
  | EmptyString => true
  | String c s' => p c && all_chars p s'
  end.

(** *** Values and objects *)

Inductive value :=
  VUndefined | VNull | VBool (b : bool) | VNum (q : Q) | VStr (s : string).

Definition truthy (v : value) : bool :=
  match v with
  | VUndefined | VNull => false
  | VBool b => b
  | VNum q => negb (Qeq_bool q 0)
  | VStr s => negb (bool_decide (s = ""))
  end.

(** [v !== undefined]. *)
Definition defined (v : value) : bool :=
  match v with VUndefined => false | _ => true end.

(** An object: its own properties. Reading a property it does not have
    gives [undefined]. *)
Abbreviation obj := (gmap string value).

Definition get (o : obj) (k : string) : value := default VUndefined (o !! k).

(** *** The masks *)

Definition maskBankAccount (accountNumber : value) : value :=
  match accountNumber with
  | VStr s =>
      if bool_decide (s = "") then VNull
      else
        let cleaned := remove non_digit s in
        if (String.length cleaned <? 4)%nat then VStr "****"
        else VStr ("...-XX-" +:+ slice_last 4 cleaned)
  | _ => VNull
  end.

(** The white space removed is that of ASCII (space, tab, line feed,
    vertical tab, form feed, carriage return). *)
Definition maskPAN (panNumber : value) : value :=
  match panNumber with
  | VStr s =>
      if bool_decide (s = "") then VNull
      else
        let cleaned := remove Ascii.is_space (toUpperCase s) in
        if (String.length cleaned <? 4)%nat then VStr "XXXX"
        else VStr ("XXXXX" +:+ slice_last 4 cleaned)
  | _ => VNull
  end.

Definition maskAadhaar (aadhaarNumber : value) : value :=
  match aadhaarNumber with
  | VStr s =>
      if bool_decide (s = "") then VNull
      else
        let cleaned := remove non_digit s in
        if (String.length cleaned <? 4)%nat then VStr "XXXX XXXX XXXX"
        else VStr ("XXXX XXXX " +:+ slice_last 4 cleaned)
  | _ => VNull
  end.

Definition maskSalary (salary : value) (isHR : bool) : value :=
  if isHR then salary else VNull.

(** [if (masked.k !== undefined) masked.k = null]. *)
Definition null_if_defined (k : string) (masked : obj) : obj :=
  if defined (get masked k) then <[k := VNull]> masked else masked.

(** The object maskEmployeeData builds from the properties of [employee]:
    the spread copy, then the assignments. *)
Definition masked_copy (employee : obj) (isHR : bool) : obj :=
  let masked := employee in
  if negb isHR then
    let masked :=
      <["bank_account_number" :=
          maskBankAccount (get employee "bank_account_number")]> masked in
    let masked :=
      <["bank_ifsc" := if truthy (get employee "bank_ifsc")
                       then VStr "XXXX" else VNull]> masked in
    let masked :=
      <["bank_name" := if truthy (get employee "bank_name")
                       then VStr "****" else VNull]> masked in
    let masked :=
      <["pan_number" := maskPAN (get employee "pan_number")]> masked in
    let masked :=
      <["aadhaar_number" :=
          maskAadhaar (get employee "aadhaar_number")]> masked in
    let masked := null_if_defined "ctc" masked in
    let masked := null_if_defined "basic_salary" masked in
    let masked := null_if_defined "gross_salary" masked in
    let masked := null_if_defined "net_salary" masked in
    masked
  else masked.

(** *** The heap: objects live at references, and a function that is
    handed a reference could write through it *)

Definition heap := list obj.

Inductive ref := RNull | RUndefined | RObj (l : nat).

(** maskEmployeeData: a falsy argument is returned as it is; otherwise a
    new object is allocated and returned. *)
Definition maskEmployeeData (h : heap) (employee : ref) (isHR : bool)
    : ref * heap :=
  match employee with
  | RObj l =>
      match h !! l with
      | Some o => (RObj (length h), h ++ [masked_copy o isHR])
      | None => (employee, h)
      end
  | RNull | RUndefined => (employee, h)
  end.

(** The object a reference denotes. *)
Definition deref (h : heap) (r : ref) : option obj :=
  match r with RObj l => h !! l | _ => None end.



End Masking.

(** ** SSO token verification (the middleware payroll-sso.js) *)

Module Sso.

Definition adminSet : gset string :=
  list_to_set ["CEO"; "Admin"; "HR"; "ceo"; "admin"; "hr"].

Definition mapHrToPayrollRole (hrRoles : list string) : string :=
  if existsb (λ role, bool_decide (role ∈ adminSet)) hrRoles
  then "payroll_admin" else "payroll_employee".

(** The claims of a token; [None] is an absent claim. *)
Record payload := {
  iss : option string; aud : option string; exp : option Z;
  sub : option string; org_id : option string; email : option string;
  name : option string; roles : option (list string);
  payroll_role : option string }.

(** What [jwt.verify] does with the token: it throws, or returns the
    payload. *)
Inductive verified :=
  | TokenExpiredError
  | JsonWebTokenError
  | OtherError (message : string)
  | Payload (p : payload).

Module HrUser.
Record t := {
  hrUserId : string; orgId : string; email : string; name : string;
  roles : list string; payrollRole : string }.
End HrUser.

(** The middleware answers itself, or sets [req.hrUser] and calls [next]. *)
Inductive outcome :=
  | Reject (status : Z) (error message : string)
  | Next (hrUser : HrUser.t).

(** [a || b] on a claim that is a string: absent and empty are falsy. *)
Definition or_str (a : option string) (b : string) : string :=
  match a with
  | Some s => if bool_decide (s = "") then b else s
  | None => b
  end.

Definition falsy_str (a : option string) : bool :=
  bool_decide (or_str a "" = "").

Definition lower_char (c : ascii) : ascii :=
  let n := N_of_ascii c in
  if ((65 <=? n) && (n <=? 90))%N then ascii_of_N (n + 32) else c.

Fixpoint toLowerCase (s : string) : string :=
  match s with
  | EmptyString => EmptyString
  | String c s' => String (lower_char c) (toLowerCase s')
  end.

Definition trim (s : string) : string :=
  String.rev (Js.skip_ws (String.rev (Js.skip_ws s))).

(** [payload.payroll_role || mapHrToPayrollRole(roles)], with
    [roles = payload.roles || []]. *)
Definition payrollRole (p : payload) : string :=
  or_str (payroll_role p) (mapHrToPayrollRole (default [] (roles p))).

(** verifyHrSsoToken. [token] is the token of the request (empty when there
    is none), [secret_configured] tells whether a secret other than the
    placeholder is set, [jwt_verify] is what the library makes of the token,
    [now] is the clock in seconds. *)
Definition verifyHrSsoToken (token : string) (secret_configured : bool)
    (jwt_verify : verified) (now : Z) : outcome :=
  if bool_decide (token = "") then
    Reject 401 "SSO token required"
      "Please provide a valid SSO token from HR system"
  else if negb secret_configured then
    Reject 500 "SSO configuration error" "JWT secret not configured"
  else
    match jwt_verify with
    | TokenExpiredError =>
        Reject 401 "Token expired"
          "SSO token has expired. Please try again from HR system."
    | JsonWebTokenError =>
        Reject 401 "Invalid token" "SSO token is invalid or malformed"
    | OtherError message =>
        Reject 500 "SSO verification failed"
          (if bool_decide (message = "")
           then "Internal server error during SSO verification" else message)
    | Payload p =>
        if negb (bool_decide (iss p = Some "hr-app")) then
          Reject 401 "Invalid token issuer"
            ("Expected issuer 'hr-app', got '"
             +:+ default "undefined" (iss p) +:+ "'")
        else if negb (bool_decide (aud p = Some "payroll-app")) then
          Reject 401 "Invalid token audience"
            ("Expected audience 'payroll-app', got '"
             +:+ default "undefined" (aud p) +:+ "'")
        else if match exp p with
                | Some e => negb (e =? 0) && (e <? now)
                | None => false
                end then
          Reject 401 "Token expired" "SSO token has expired"
        else
          let hrUserId := sub p in
          let orgId := org_id p in
          let email := email p in
          let name := or_str (name p) (default "" email) in
          let roles := default [] (roles p) in
          let payrollRole := payrollRole p in
          if falsy_str hrUserId || falsy_str orgId || falsy_str email then
            Reject 401 "Invalid token claims"
              "Token missing required claims: sub, org_id, or email"
          else
            Next {| HrUser.hrUserId := default "" hrUserId;
                    HrUser.orgId := default "" orgId;
                    HrUser.email := trim (toLowerCase (default "" email));
                    HrUser.name := name;
                    HrUser.roles := roles;
                    HrUser.payrollRole := payrollRole |}
    end.

(** The token asserts a payroll role. *)
Definition asserts_role (p : payload) : bool :=
  negb (falsy_str (payroll_role p)).

(** The role derivation in the words of the specification: a role name
    counts when it is CEO, Admin or HR in any capitalization. *)
Definition names_admin_ci (role : string) : bool :=
  bool_decide (toLowerCase role ∈ ["ceo"; "admin"; "hr"]).

Definition derived_role_ci (hrRoles : list string) : string :=
  if existsb names_admin_ci hrRoles
  then "payroll_admin" else "payroll_employee".

End Sso.

(** ** The properties in the words of the specification *)

Module Spec.
Import Schema.






(** The masked copy, property by property. *)
Definition masked_field (o : gmap string Masking.value) (k : string)
    : option Masking.value :=
  if bool_decide (k = "bank_account_number")
  then Some (Masking.maskBankAccount (Masking.get o k))
  else if bool_decide (k = "bank_ifsc")
  then Some (if Masking.truthy (Masking.get o k)
             then Masking.VStr "XXXX" else Masking.VNull)
  else if bool_decide (k = "bank_name")
  then Some (if Masking.truthy (Masking.get o k)
             then Masking.VStr "****" else Masking.VNull)
  else if bool_decide (k = "pan_number")
  then Some (Masking.maskPAN (Masking.get o k))
  else if bool_decide (k = "aadhaar_number")
  then Some (Masking.maskAadhaar (Masking.get o k))
  else if bool_decide (k = "ctc" ∨ k = "basic_salary" ∨ k = "gross_salary"
                       ∨ k = "net_salary")
  then (if Masking.defined (Masking.get o k)
        then Some Masking.VNull else o !! k)
  else o !! k.






End Spec.

(** ** Concrete data *)

Module Examples.
Import Schema.




(** Tenant 1, employee 10: two approved loss-of-pay days in February 2023. *)
Definition feb_db : db :=
  {| employees := []; compensation_structures := []; payroll_cycles := [];
     payroll_items := []; payroll_settings := [];
     leave_requests :=
       [ {| LeaveRequest.tenant_id := 1%N; LeaveRequest.employee_id := 10%N;
            LeaveRequest.leave_type := "loss_of_pay";
            LeaveRequest.start_date := JsDate.Date 2023 2 9;
            LeaveRequest.end_date := JsDate.Date 2023 2 10;
            LeaveRequest.days := 2; LeaveRequest.status := "approved" |} ];
     attendance_records := [] |}.

(** Tenant 1 with the cycle of April 2024 (id 5, approved) and two active
    employees: 10 earns 21000 a month, 11 earns 30000; no settings row, so the
    defaults hold (tds_threshold 250000). Employee 10 has one payroll item. *)
Definition april : Cycle.row :=
  {| Cycle.id := 5%N; Cycle.tenant_id := 1%N; Cycle.month := 4;
     Cycle.year := 2024; Cycle.payday := Some 30; Cycle.status := approved;
     Cycle.total_employees := 2; Cycle.total_amount := 51000;
     Cycle.approved_by := Some 2%N; Cycle.created_by := Some 2%N |}.

Definition employee (i : uuid) (mail : string) : Employee.row :=
  {| Employee.id := i; Employee.tenant_id := 1%N;
     Employee.employee_code := "E"; Employee.full_name := "N";
     Employee.email := mail;
     Employee.date_of_joining := Some (JsDate.Date 2020 1 1);
     Employee.status := active |}.

Definition pay (i : uuid) (basic : Q) : Compensation.row :=
  {| Compensation.employee_id := i; Compensation.tenant_id := 1%N;
     Compensation.effective_from := JsDate.Date 2020 1 1;
     Compensation.basic_salary := basic; Compensation.hra := None;
     Compensation.special_allowance := None |}.

Definition april_db : db :=
  {| employees := [employee 10%N "a@x.io"; employee 11%N "b@x.io"];
     compensation_structures := [pay 10%N 21000; pay 11%N 30000];
     payroll_cycles := [april];
     payroll_items :=
       [ {| Item.id := 7%N; Item.tenant_id := 1%N;
            Item.payroll_cycle_id := 5%N; Item.employee_id := 10%N;
            Item.gross_salary := 21000; Item.deductions := 2877.5;
            Item.net_salary := 18122.5 |};
         {| Item.id := 8%N; Item.tenant_id := 1%N;
            Item.payroll_cycle_id := 5%N; Item.employee_id := 11%N;
            Item.gross_salary := 30000; Item.deductions := 4300;
            Item.net_salary := 25700 |} ];
     payroll_settings := []; leave_requests := [];
     attendance_records := [] |}.

(** Two employee records on the heap: at 0 one with a two-letter PAN, at 1 one
    with a ten-character PAN, a bank account and a CTC. *)
Definition short_pan_record : gmap string Masking.value :=
  {[ "pan_number" := Masking.VStr "AB" ]}.

Definition full_record : gmap string Masking.value :=
  <[ "pan_number" := Masking.VStr "abcde1234f" ]>
    (<[ "bank_account_number" := Masking.VStr "12-3456789" ]>
       {[ "ctc" := Masking.VNum 1200000 ]}).

Definition records : Masking.heap := [short_pan_record; full_record].

(** The payload of a token of the HR application for u@x.io that asserts
    the HR roles [r] and no payroll role. *)
Definition hr_payload (r : list string) : Sso.payload :=
  {| Sso.iss := Some "hr-app"; Sso.aud := Some "payroll-app";
     Sso.exp := Some 2000; Sso.sub := Some "42"; Sso.org_id := Some "7";
     Sso.email := Some " U@x.io"; Sso.name := None;
     Sso.roles := Some r; Sso.payroll_role := None |}.


End Examples.

(** ** More string methods *)

Module Str.

(** [s.split(sep)] for a one-character separator. *)
Fixpoint split_on (sep : ascii) (s : string) : list string :=
  match s with
  | EmptyString => [EmptyString]
  | String c s' =>
      if bool_decide (c = sep) then EmptyString :: split_on sep s'
      else match split_on sep s' with
           | [] => [String c EmptyString]
           | w :: ws => String c w :: ws
           end
  end.

(** [parts.join(sep)]. *)
Fixpoint join (sep : string) (parts : list string) : string :=
  match parts with
  | [] => EmptyString
  | [x] => x
  | x :: rest => x +:+ sep +:+ join sep rest
  end.

(** [s.includes(c)] for a one-character [c]. *)
Fixpoint includes (c : ascii) (s : string) : bool :=
  match s with
  | EmptyString => false
  | String a s' => bool_decide (a = c) || includes c s'
  end.

End Str.

(** ** maskEmployeeList (server/utils/dataMasking.js) *)

Module MaskingList.
Import Masking.

(** The argument: an array of references, or something that is not an
    array. *)
Inductive arg := NotArray (v : ref) | Array (employees : list ref).

(** [employees.map(emp => maskEmployeeData(emp, isHR))], in the order of the
    array. *)
Fixpoint map_mask (h : heap) (employees : list ref) (isHR : bool)
    : list ref * heap :=
  match employees with
  | [] => ([], h)
  | emp :: rest =>
      let (r, h1) := maskEmployeeData h emp isHR in
      let (rs, h2) := map_mask h1 rest isHR in
      (r :: rs, h2)
  end.

Definition maskEmployeeList (h : heap) (employees : arg) (isHR : bool)
    : arg * heap :=
  match employees with
  | NotArray v => (employees, h)
  | Array l => let (rs, h') := map_mask h l isHR in (Array rs, h')
  end.

End MaskingList.

(** ** The authentication middleware: requireRole, requireSuperadmin *)

Module Auth.
Import Schema.

(** [req.user], as far as the two middlewares read it. *)
Record user := { id : uuid; email : option string }.

Module UserRole.
Record row := { user_id : uuid; role : string }.
End UserRole.

Inductive outcome :=
  | Reject (status : Z) (error : string)
  | Next (userRole : option string).

(** The allowlist: [(process.env.ADMIN_EMAILS || '').split(',')
    .map(e => e.trim().toLowerCase()).filter(Boolean)]. *)
Definition adminEmails (ADMIN_EMAILS : option string) : list string :=
  List.filter (λ e, negb (bool_decide (e = "")))
    (List.map (λ e, Sso.toLowerCase (Sso.trim e))
       (Str.split_on "," (Sso.or_str ADMIN_EMAILS ""))).

(** [adminEmails.includes(x)]. *)
Definition includes (l : list string) (x : string) : bool :=
  existsb (λ e, bool_decide (e = x)) l.

(** requireRole(...allowedRoles). [None] for [req.user] is an
    unauthenticated request; [user_roles] is the table of that name. *)
Definition requireRole (allowedRoles : list string) (req_user : option user)
    (ADMIN_EMAILS : option string) (user_roles : list UserRole.row)
    : outcome :=
  match req_user with
  | None => Reject 401 "Not authenticated"
  | Some u =>
      if includes (adminEmails ADMIN_EMAILS)
           (Sso.toLowerCase (Sso.or_str (email u) ""))
      then Next None
      else
        let rows :=
          take 1 (List.filter (λ r, bool_decide (UserRole.user_id r = id u))
                    user_roles) in
        match rows with
        | [] => Reject 403 "Insufficient permissions"
        | r :: _ =>
            let userRole := UserRole.role r in
            let normalizedUserRole := Sso.toLowerCase userRole in
            let normalizedAllowedRoles :=
              List.map Sso.toLowerCase allowedRoles in
            if bool_decide (userRole = "")
               || negb (includes normalizedAllowedRoles normalizedUserRole)
            then Reject 403 "Insufficient permissions"
            else Next (Some userRole)
        end
  end.

Definition requireSuperadmin (req_user : option user)
    (ADMIN_EMAILS : option string) : outcome :=
  let email :=
    Sso.toLowerCase (Sso.or_str (req_user ≫= email) "") in
  if negb (bool_decide (email = ""))
     && includes (adminEmails ADMIN_EMAILS) email
  then Next None
  else Reject 403 "Superadmin only".

End Auth.

(** ** Payroll users: upsertPayrollUser (services/payroll-user-service.js) *)

Module Users.
Import Schema.

(** The columns of [users] the service and the PIN routes use. *)
Record row := {
  id : uuid; email : string; hr_user_id : option string;
  org_id : option string; payroll_role : option string;
  first_name : option string; last_name : option string;
  pin_hash : option string }.

(** [nameParts[0] || ''] and [nameParts.slice(1).join(' ') || ''], with
    [nameParts = name.split(' ')]. *)
Definition firstName (name : string) : string :=
  hd EmptyString (Str.split_on " " name).

Definition lastName (name : string) : string :=
  Str.join " " (tl (Str.split_on " " name)).

(** [gen_random_uuid()]: an id no row of the table has. *)
Definition fresh_id (t : list row) : uuid :=
  N.succ (fold_right N.max 0%N (List.map id t)).

Section Upsert.
(** The constraints of the table (UNIQUE(email), the CHECK on payroll_role,
    ...) decide whether a statement that leaves the table as [t] is
    accepted; when it is not, the statement throws. *)
Variable accepts : list row → bool.

Definition by_hr_user_id (h : string) (t : list row) : list row :=
  List.filter (λ r, bool_decide (hr_user_id r = Some h)) t.

Definition by_email (e : string) (t : list row) : list row :=
  List.filter (λ r, bool_decide (email r = e)) t.

(** [UPDATE users SET email, org_id, payroll_role, first_name, last_name
    WHERE hr_user_id = $6]. *)
Definition update_by_hr_user_id (hrUser : Sso.HrUser.t) (r : row) : row :=
  if bool_decide (hr_user_id r = Some (Sso.HrUser.hrUserId hrUser)) then
    {| id := id r; email := Sso.HrUser.email hrUser;
       hr_user_id := hr_user_id r;
       org_id := Some (Sso.HrUser.orgId hrUser);
       payroll_role := Some (Sso.HrUser.payrollRole hrUser);
       first_name := Some (firstName (Sso.HrUser.name hrUser));
       last_name := Some (lastName (Sso.HrUser.name hrUser));
       pin_hash := pin_hash r |}
  else r.

(** [UPDATE users SET hr_user_id, org_id, payroll_role, first_name, last_name
    WHERE email = $6]. *)
Definition link_by_email (hrUser : Sso.HrUser.t) (r : row) : row :=
  if bool_decide (email r = Sso.HrUser.email hrUser) then
    {| id := id r; email := email r;
       hr_user_id := Some (Sso.HrUser.hrUserId hrUser);
       org_id := Some (Sso.HrUser.orgId hrUser);
       payroll_role := Some (Sso.HrUser.payrollRole hrUser);
       first_name := Some (firstName (Sso.HrUser.name hrUser));
       last_name := Some (lastName (Sso.HrUser.name hrUser));
       pin_hash := pin_hash r |}
  else r.

Definition new_user (t : list row) (hrUser : Sso.HrUser.t) : row :=
  {| id := fresh_id t; email := Sso.HrUser.email hrUser;
     hr_user_id := Some (Sso.HrUser.hrUserId hrUser);
     org_id := Some (Sso.HrUser.orgId hrUser);
     payroll_role := Some (Sso.HrUser.payrollRole hrUser);
     first_name := Some (firstName (Sso.HrUser.name hrUser));
     last_name := Some (lastName (Sso.HrUser.name hrUser));
     pin_hash := None |}.

(** After the write: the row read back by hr_user_id, then COMMIT; an
    exception anywhere rolls the table back to [t]. *)
Definition commit_reading_back (t t1 : list row) (hrUser : Sso.HrUser.t)
    : option row * list row :=
  if accepts t1 then
    match by_hr_user_id (Sso.HrUser.hrUserId hrUser) t1 with
    | user :: _ => (Some user, t1)
    | [] => (None, t)
    end
  else (None, t).

(** upsertPayrollUser: the user, or [None] when it throws, and the table
    afterwards. *)
Definition upsertPayrollUser (t : list row) (hrUser : Sso.HrUser.t)
    : option row * list row :=
  match by_hr_user_id (Sso.HrUser.hrUserId hrUser) t with
  | _ :: _ =>
      commit_reading_back t (List.map (update_by_hr_user_id hrUser) t) hrUser
  | [] =>
      match by_email (Sso.HrUser.email hrUser) t with
      | _ :: _ =>
          commit_reading_back t (List.map (link_by_email hrUser) t) hrUser
      | [] =>
          let user := new_user t hrUser in
          if accepts (t ++ [user]) then (Some user, t ++ [user])
          else (None, t)
      end
  end.
End Upsert.

(** getPayrollUserByEmail. *)
Definition getPayrollUserByEmail (t : list row) (email : string)
    : option row :=
  head (List.filter
          (λ r, bool_decide (Users.email r = Sso.trim (Sso.toLowerCase email)))
          t).

End Users.

(** ** The PIN routes: /login-pin, /setup-pin, /pin-status *)

Module Pin.
Import Schema.

Inductive response :=
  | Error (status : Z) (error : string) (message : option string)
  | Session (token : string) (id : uuid) (email : string)
  | PinSet (token : string) (id : uuid) (email : string)
  | Status (hasPin : bool) (userId : uuid).

(** [/^\d{6}$/.test(pin)]. *)
Definition six_digits (pin : string) : bool :=
  (String.length pin =? 6)%nat && Masking.all_chars Masking.is_digit pin.

Section Routes.
(** The libraries: [bcrypt.hash(pin, 10)] with the salt it draws,
    [bcrypt.compare], and [jwt.sign] of [{ id, email }]. *)
Variable bcrypt_hash : string → string → string.
Variable bcrypt_compare : string → string → bool.
Variable createToken : uuid → string → string.

Definition users_by_email (users : list Users.row) (e : string)
    : list Users.row :=
  List.filter (λ u, bool_decide (Users.email u = e)) users.

Definition login_pin (users : list Users.row) (email pin : option string)
    : response :=
  if Sso.falsy_str email || Sso.falsy_str pin then
    Error 400 "email and pin required" None
  else if negb (six_digits (Sso.or_str pin "")) then
    Error 400 "PIN must be exactly 6 digits" None
  else
    let loweredEmail := Sso.trim (Sso.toLowerCase (Sso.or_str email "")) in
    match users_by_email users loweredEmail with
    | [] => Error 401 "Invalid credentials" None
    | user :: _ =>
        if Sso.falsy_str (Users.pin_hash user) then
          Error 403 "PIN not set"
            (Some "Please set up your PIN first. You can do this through SSO from the HR Portal.")
        else if negb (bcrypt_compare (Sso.or_str pin "")
                        (Sso.or_str (Users.pin_hash user) "")) then
          Error 401 "Invalid PIN" None
        else Session (createToken (Users.id user) loweredEmail)
               (Users.id user) loweredEmail
    end.

(** [UPDATE users SET pin_hash = $1, pin_set_at = now() WHERE id = $2]. *)
Definition set_pin_hash (pinHash : string) (userId : uuid) (u : Users.row)
    : Users.row :=
  if bool_decide (Users.id u = userId) then
    {| Users.id := Users.id u; Users.email := Users.email u;
       Users.hr_user_id := Users.hr_user_id u; Users.org_id := Users.org_id u;
       Users.payroll_role := Users.payroll_role u;
       Users.first_name := Users.first_name u;
       Users.last_name := Users.last_name u;
       Users.pin_hash := Some pinHash |}
  else u.

Definition setup_pin (salt : string) (users : list Users.row)
    (email pin : option string) : response * list Users.row :=
  if Sso.falsy_str email || Sso.falsy_str pin then
    (Error 400 "email and pin required" None, users)
  else if negb (six_digits (Sso.or_str pin "")) then
    (Error 400 "PIN must be exactly 6 digits" None, users)
  else
    let loweredEmail := Sso.trim (Sso.toLowerCase (Sso.or_str email "")) in
    match users_by_email users loweredEmail with
    | [] =>
        (Error 404 "User not found"
           (Some "Please sign up in the HR Portal first. Users are created automatically when added by HR."),
         users)
    | user :: _ =>
        if negb (Sso.falsy_str (Users.pin_hash user)) then
          (Error 409 "PIN already set. Use login to sign in." None, users)
        else
          let pinHash := bcrypt_hash salt (Sso.or_str pin "") in
          (PinSet (createToken (Users.id user) loweredEmail)
             (Users.id user) loweredEmail,
           List.map (set_pin_hash pinHash (Users.id user)) users)
    end.

Definition pin_status (users : list Users.row) (email : option string)
    : response :=
  let email := Sso.trim (Sso.or_str email "") in
  if bool_decide (email = "") then Error 400 "email required" None
  else
    match users_by_email users (Sso.toLowerCase email) with
    | [] => Error 404 "User not found" None
    | user :: _ =>
        Status (negb (Sso.falsy_str (Users.pin_hash user))) (Users.id user)
    end.
End Routes.

End Pin.

(** ** NUMERIC columns *)

Module Decimal.

(** Rounding to an integer, a half away from zero. *)
Definition round_half_away (x : Q) : Z :=
  if Qle_bool 0 x then Qfloor (x + (1 # 2))
  else - Qfloor (- x + (1 # 2)).

(** What a NUMERIC(p, s) column makes of a value: the value rounded to [s]
    decimal places, or an error ([None]) when that needs more than [p]
    digits. *)
Definition store (p s : Z) (v : Q) : option Q :=
  let n := round_half_away (v * inject_Z (10 ^ s)) in
  if Z.abs n <? 10 ^ p then Some (inject_Z n / inject_Z (10 ^ s))%Q
  else None.

End Decimal.

(** ** More routes of server/routes/payroll-service.js *)

Module Routes.
Import Schema.

(** *** Helpers of the routes *)

(** isHR(userId): some role of the user is 'hr' or 'admin'. *)
Definition isHR (user_roles : list Auth.UserRole.row) (userId : uuid) : bool :=
  existsb
    (λ r, Auth.includes ["hr"; "admin"] (Auth.UserRole.role r))
    (List.filter (λ r, bool_decide (Auth.UserRole.user_id r = userId))
       user_roles).

(** getPayrollEmployeeId(tenantId, email): [rows[0]?.id || null]. *)
Definition getPayrollEmployeeId (d : db) (tenantId : uuid) (email : string)
    : option uuid :=
  Employee.id <$>
    head (List.filter
            (λ e, bool_decide (Employee.tenant_id e = tenantId)
                  && bool_decide
                       (Employee.email e = Sso.trim (Sso.toLowerCase email)))
            (employees d)).

(** *** GET /payroll-cycles *)

Module CycleListing.
Record row := {
  id : uuid; year : Z; month : Z; total_amount : Q;
  status : payroll_status; total_employees : Z }.
End CycleListing.

(** [(SELECT COUNT(DISTINCT employee_id) FROM payroll.payroll_items WHERE
    payroll_cycle_id = pc.id AND tenant_id = $1)]: a count, never NULL. *)
Definition count_items_employees (d : db) (cycleId tenantId : uuid)
    : option Z :=
  Some (Z.of_nat (length (remove_dups
    (List.map Item.employee_id
       (List.filter
          (λ it, bool_decide (Item.payroll_cycle_id it = cycleId)
                 && bool_decide (Item.tenant_id it = tenantId))
          (payroll_items d)))))).

(** ORDER BY pc.year DESC, pc.month DESC. *)
Definition listing_le (a b : CycleListing.row) : bool :=
  (CycleListing.year b <? CycleListing.year a)
  || ((CycleListing.year b =? CycleListing.year a)
      && (CycleListing.month b <=? CycleListing.month a)).

(** The handler: the statement that completes the past cycles, then the
    listing, read from the table as the statement left it. *)
Definition get_payroll_cycles (d : db) (tenantId : uuid)
    (currentYear currentMonth : Z)
    : Payroll.response (list CycleListing.row) * db :=
  let d' :=
    Payroll.auto_update_past_cycles d tenantId currentYear currentMonth in
  (Payroll.json
     (Js.sort_by listing_le
        (List.map
           (λ pc,
              {| CycleListing.id := Cycle.id pc;
                 CycleListing.year := Cycle.year pc;
                 CycleListing.month := Cycle.month pc;
                 CycleListing.total_amount := Cycle.total_amount pc;
                 CycleListing.status := Cycle.status pc;
                 CycleListing.total_employees :=
                   default (Cycle.total_employees pc)
                     (count_items_employees d' (Cycle.id pc) tenantId) |})
           (List.filter (λ pc, bool_decide (Cycle.tenant_id pc = tenantId))
              (payroll_cycles d')))),
   d').

(** *** POST /payroll-settings *)

(** The body: a field is a number or absent. *)
Record settings_body := {
  b_pf_rate : option Q; b_esi_rate : option Q;
  b_pt_rate : option Q; b_tds_threshold : option Q;
  b_basic_salary_percentage : option Q; b_hra_percentage : option Q;
  b_special_allowance_percentage : option Q }.

Definition with_payroll_settings (d : db) (ss : list Settings.row) : db :=
  {| employees := employees d;
     compensation_structures := compensation_structures d;
     payroll_cycles := payroll_cycles d;
     payroll_items := payroll_items d;
     payroll_settings := ss;
     leave_requests := leave_requests d;
     attendance_records := attendance_records d |}.

(** INSERT ... ON CONFLICT (tenant_id) DO UPDATE SET ... RETURNING *, with
    the values [settings.pf_rate || 12.0], ... as the columns store them:
    pf_rate, esi_rate and the three percentages are DECIMAL(5,2), pt_rate
    DECIMAL(8,2), tds_threshold DECIMAL(12,2). The three percentages are
    checked and not kept in [Settings.row]. *)
Definition post_payroll_settings (d : db) (tenantId : uuid)
    (b : settings_body) : Payroll.response Settings.row * db :=
  match
    Decimal.store 5 2 (Js.or_num (Js.Number (b_pf_rate b)) 12.0),
    Decimal.store 5 2 (Js.or_num (Js.Number (b_esi_rate b)) 3.25),
    Decimal.store 8 2 (Js.or_num (Js.Number (b_pt_rate b)) 200.0),
    Decimal.store 12 2 (Js.or_num (Js.Number (b_tds_threshold b)) 250000.0),
    Decimal.store 5 2
      (Js.or_num (Js.Number (b_basic_salary_percentage b)) 40.0),
    Decimal.store 5 2 (Js.or_num (Js.Number (b_hra_percentage b)) 40.0),
    Decimal.store 5 2
      (Js.or_num (Js.Number (b_special_allowance_percentage b)) 20.0)
  with
  | Some pf, Some esi, Some pt, Some tds, Some _, Some _, Some _ =>
      let v :=
        {| Settings.tenant_id := tenantId;
           Settings.pf_rate := Some pf; Settings.esi_rate := Some esi;
           Settings.pt_rate := Some pt; Settings.tds_threshold := Some tds |}
      in
      let ss :=
        if existsb (λ r, bool_decide (Settings.tenant_id r = tenantId))
             (payroll_settings d)
        then List.map
               (λ r, if bool_decide (Settings.tenant_id r = tenantId)
                     then v else r)
               (payroll_settings d)
        else payroll_settings d ++ [v] in
      (Payroll.json v, with_payroll_settings d ss)
  | _, _, _, _, _, _, _ =>
      (Payroll.status_error 500 "Failed to save settings", d)
  end.

(** *** GET /payslips/:payslipId/pdf *)

Module PdfRow.
(** The row the document is written from: the item with its employee and
    its cycle. *)
Record t := { item : Item.row; employee : Employee.row; cycle : Cycle.row }.
End PdfRow.

Inductive pdf_outcome :=
  | PdfError (status : Z) (error : string)
  | Pdf (payslip : PdfRow.t).

(** The handler, up to the document: the document is ended before the audit
    call, so the outcome does not depend on that call. *)
Definition get_payslip_pdf (d : db) (user_roles : list Auth.UserRole.row)
    (userId tenantId : uuid) (email : string) (payslipId : uuid)
    : pdf_outcome :=
  match List.filter (λ it, bool_decide (Item.id it = payslipId))
          (payroll_items d) with
  | [] => PdfError 404 "Payslip not found"
  | payslipCheck :: _ =>
      if negb (bool_decide (Item.tenant_id payslipCheck = tenantId))
      then PdfError 403 "Access denied"
      else
        let employeeId :=
          Employee.id <$> head (Payroll.employee_by_email d tenantId email) in
        let isEmployee := bool_decide (is_Some employeeId) in
        let isUserHR := isHR user_roles userId in
        if isEmployee
           && negb (bool_decide
                      (Some (Item.employee_id payslipCheck) = employeeId))
           && negb isUserHR
        then PdfError 403 "You can only download your own payslips"
        else
          match
            flat_map
              (λ it,
                 flat_map
                   (λ e,
                      List.map
                        (λ pc, {| PdfRow.item := it; PdfRow.employee := e;
                                  PdfRow.cycle := pc |})
                        (List.filter
                           (λ pc, bool_decide
                                    (Item.payroll_cycle_id it = Cycle.id pc))
                           (payroll_cycles d)))
                   (List.filter
                      (λ e, bool_decide (Item.employee_id it = Employee.id e))
                      (employees d)))
              (List.filter
                 (λ it, bool_decide (Item.id it = payslipId)
                        && bool_decide (Item.tenant_id it = tenantId))
                 (payroll_items d))
          with
          | [] => PdfError 404 "Payslip not found"
          | payslip :: _ => Pdf payslip
          end
  end.

End Routes.

(** ** The payroll register: escapeCSV (GET /reports/payroll-register) *)

Module Csv.

Definition quote : ascii := "034"%char.
Definition newline : ascii := "010"%char.

(** [str.replace] of every double quote by two of them. *)
Fixpoint double_quotes (s : string) : string :=
  match s with
  | EmptyString => EmptyString
  | String c s' =>
      if bool_decide (c = quote)
      then String quote (String quote (double_quotes s'))
      else String c (double_quotes s')
  end.

(** escapeCSV on [null]/[undefined] ([None]) and on a string. *)
Definition escapeCSV (value : option string) : string :=
  match value with
  | None => EmptyString
  | Some str =>
      if Str.includes "," str || Str.includes newline str
         || Str.includes quote str
      then String quote (double_quotes str +:+ String quote EmptyString)
      else str
  end.

(** [fields.map(escapeCSV).join(',')], as for the header line. *)
Definition escaped_line (fields : list string) : string :=
  Str.join "," (List.map (λ f, escapeCSV (Some f)) fields).

Definition carriage_return : ascii := "013"%char.

(** A carriage return in a field comes with a comma, a line feed or a
    double quote. *)
Definition carriage_return_quoted (str : string) : Prop :=
  Str.includes carriage_return str = true →
  Str.includes "," str || Str.includes newline str
  || Str.includes quote str = true.

(** [csvRows.join('\n')] over lines of escaped fields. *)
Definition csvContent (rows : list (list string)) : string :=
  Str.join (String newline "") (List.map escaped_line rows).

(** Reading comma-separated values back, record by record and field by
    field: a field that opens with a double quote runs to the next double
    quote that is not doubled; outside such a field a comma ends the field,
    and a line feed, a carriage return, or a carriage return and a line
    feed end the record. *)
Inductive state := FieldStart | Unquoted | Quoted | AfterQuote | AfterCR.

(** A character put before the first field of the first record. *)
Definition cons_char (c : ascii) (l : list (list string))
    : list (list string) :=
  match l with
  | (w :: ws) :: rs => (String c w :: ws) :: rs
  | [] :: rs => [String c EmptyString] :: rs
  | [] => [[String c EmptyString]]
  end.

(** A string put before the first field of the first record. *)
Definition prepend (s : string) (l : list (list string))
    : list (list string) :=
  match l with
  | (w :: ws) :: rs => ((s +:+ w) :: ws) :: rs
  | [] :: rs => [s] :: rs
  | [] => [[s]]
  end.

(** An empty field put before the first record, an empty record put before
    the records. *)
Definition end_field (l : list (list string)) : list (list string) :=
  match l with
  | r :: rs => (EmptyString :: r) :: rs
  | [] => [[EmptyString]]
  end.

Definition end_record (l : list (list string)) : list (list string) :=
  [EmptyString] :: l.

Fixpoint read_records (st : state) (s : string) : list (list string) :=
  match s with
  | EmptyString => [[EmptyString]]
  | String c s' =>
      match st with
      | Quoted =>
          if bool_decide (c = quote) then read_records AfterQuote s'
          else cons_char c (read_records Quoted s')
      | _ =>
          if bool_decide (c = quote)
          then match st with
               | FieldStart | AfterCR => read_records Quoted s'
               | _ => cons_char c (read_records
                                     match st with
                                     | AfterQuote => Quoted
                                     | _ => Unquoted
                                     end s')
               end
          else if bool_decide (c = ","%char)
          then end_field (read_records FieldStart s')
          else if bool_decide (c = newline)
          then match st with
               | AfterCR => read_records FieldStart s'
               | _ => end_record (read_records FieldStart s')
               end
          else if bool_decide (c = carriage_return)
          then end_record (read_records AfterCR s')
          else cons_char c (read_records Unquoted s')
      end
  end.

End Csv.

(** ** More example data *)

Module Cases.
Import Schema.

(** The constraint UNIQUE(email) of [users], as a check of the table. *)
Fixpoint unique_emails (t : list Users.row) : bool :=
  match t with
  | [] => true
  | r :: t' =>
      negb (existsb (λ r', bool_decide (Users.email r' = Users.email r)) t')
      && unique_emails t'
  end.

(** Two users: u@x.io, not yet linked to an HR user and without a PIN, and
    v@x.io, linked to the HR user ...0043, with a PIN. *)
Definition users : list Users.row :=
  [ {| Users.id := 1%N; Users.email := "u@x.io"; Users.hr_user_id := None;
       Users.org_id := None; Users.payroll_role := None;
       Users.first_name := None; Users.last_name := None;
       Users.pin_hash := None |};
    {| Users.id := 2%N; Users.email := "v@x.io";
       Users.hr_user_id := Some "00000000-0000-4000-8000-000000000043";
       Users.org_id := Some "00000000-0000-4000-8000-000000000007";
       Users.payroll_role := Some "payroll_employee";
       Users.first_name := Some "V"; Users.last_name := Some "";
       Users.pin_hash := Some "$654321" |} ].

(** The payload of a token of the HR application for u@x.io, of the HR user
    ...0042 in the organization ...0007, that asserts the HR role hr. *)
Definition hr_payload : Sso.payload :=
  {| Sso.iss := Some "hr-app"; Sso.aud := Some "payroll-app";
     Sso.exp := Some 2000;
     Sso.sub := Some "00000000-0000-4000-8000-000000000042";
     Sso.org_id := Some "00000000-0000-4000-8000-000000000007";
     Sso.email := Some " U@x.io"; Sso.name := None;
     Sso.roles := Some ["hr"]; Sso.payroll_role := None |}.

(** What verifyHrSsoToken attaches for [hr_payload]. *)
Definition sso_user : Sso.HrUser.t :=
  {| Sso.HrUser.hrUserId := "00000000-0000-4000-8000-000000000042";
     Sso.HrUser.orgId := "00000000-0000-4000-8000-000000000007";
     Sso.HrUser.email := "u@x.io"; Sso.HrUser.name := " U@x.io";
     Sso.HrUser.roles := ["hr"]; Sso.HrUser.payrollRole := "payroll_admin" |}.

(** Stand-ins for the libraries of the PIN routes: a hash that is the PIN
    after a dollar sign, the comparison that goes with it, and a token that
    is the email. *)
Definition toy_hash (salt pin : string) : string := String "$" pin.
Definition toy_compare (pin hash : string) : bool :=
  bool_decide (hash = String "$" pin).
Definition toy_token (id : uuid) (email : string) : string := email.

(** The body [{ pf_rate: 12.5, esi_rate: 0 }] of POST /payroll-settings. *)
Definition rates_body : Routes.settings_body :=
  {| Routes.b_pf_rate := Some 12.5%Q; Routes.b_esi_rate := Some 0%Q;
     Routes.b_pt_rate := None; Routes.b_tds_threshold := None;
     Routes.b_basic_salary_percentage := None;
     Routes.b_hra_percentage := None;
     Routes.b_special_allowance_percentage := None |}.

(** The body [{ month: "5th", year: 2024, payday: "31" }]. *)
Definition may_body : Payroll.CycleBody.t :=
  {| Payroll.CycleBody.month := Js.JStr "5th";
     Payroll.CycleBody.year := Js.JNum 2024;
     Payroll.CycleBody.payday := Js.JStr "31";
     Payroll.CycleBody.employeeCount := Js.JUndefined;
     Payroll.CycleBody.totalCompensation := None |}.

End Cases.

(** ** The writes of one tenant *)

Module Tenancy.
Import Schema.

(** One write to the cycles table by a request of the tenant [tenantId]. *)
Inductive request (tenantId : uuid) (d : db) : db → Prop :=
  | r_create audit_ok userId b :
      request tenantId d
        (snd (Payroll.post_payroll_cycles audit_ok d tenantId userId b))
  | r_list currentYear currentMonth :
      request tenantId d
        (snd (Routes.get_payroll_cycles d tenantId currentYear currentMonth))
  | r_process audit_ok cycleId :
      request tenantId d
        (snd (Payroll.post_process audit_ok d tenantId cycleId))
  | r_submit cycleId :
      request tenantId d (snd (Payroll.post_submit d tenantId cycleId))
  | r_approve userId cycleId :
      request tenantId d
        (snd (Payroll.post_approve d userId tenantId cycleId))
  | r_reject cycleId :
      request tenantId d (snd (Payroll.post_reject d tenantId cycleId)).

(** The cycles of the tenants other than [tenantId]. *)
Definition cycles_of_others (tenantId : uuid) (d : db) : list Cycle.row :=
  List.filter (λ c, negb (bool_decide (Cycle.tenant_id c = tenantId)))
    (payroll_cycles d).

End Tenancy.

Module Cases2.
Import Schema.


End Cases2.

(** ** Examples for the preview in binary64 *)

Module Cases64.
Import Schema.

(** A reading of date texts: a year of three digits or more, a month and a
    day, each followed by a hyphen but the last; what follows the day is
    not looked at. Anything else is refused. *)
Definition iso_date_in (s : string) : option JsDate.date :=
  match Js.read_digits None s with
  | (Some y, String "-" s1) =>
      if (String.length s - String.length s1 <=? 3)%nat then None else
      match Js.read_digits None s1 with
      | (Some m, String "-" s2) =>
          match Js.read_digits None s2 with
          | (Some dd, _) =>
              if (1 <=? m) && (m <=? 12) && (1 <=? dd) && (dd <=? 31)
              then Some (JsDate.Date y m dd) else None
          | _ => None
          end
      | _ => None
      end
  | _ => None
  end.

Definition utc (_ : JsDate.date) : Z := 0.
Definition kolkata (_ : JsDate.date) : Z := 19800000.

Definition pay3 (i : uuid) (basic hra sa : Q) : Compensation.row :=
  {| Compensation.employee_id := i; Compensation.tenant_id := 1%N;
     Compensation.effective_from := JsDate.Date 2020 1 1;
     Compensation.basic_salary := basic; Compensation.hra := Some hra;
     Compensation.special_allowance := Some sa |}.

(** [Examples.april_db] with other compensation rows and settings. *)
Definition with_pay (d : db) (l : list Compensation.row)
    (s : list Settings.row) : db :=
  {| employees := employees d; compensation_structures := l;
     payroll_cycles := payroll_cycles d; payroll_items := payroll_items d;
     payroll_settings := s; leave_requests := leave_requests d;
     attendance_records := attendance_records d |}.

Definition threshold (t : Q) : Settings.row :=
  {| Settings.tenant_id := 1%N; Settings.pf_rate := Some 12%Q;
     Settings.esi_rate := Some 3.25%Q; Settings.pt_rate := Some 200%Q;
     Settings.tds_threshold := Some t |}.

(** Employee 10 on 10000.20 + 8400.10 + 2599.70 a month, employee 11 on
    16000, and a TDS threshold of 192000. *)
Definition rounding_db : db :=
  with_pay Examples.april_db
    [pay3 10%N 10000.2 8400.1 2599.7; Examples.pay 11%N 16000]
    [threshold 192000].

(** Employee 10 on 21000 a month and a TDS threshold of 252000. *)
Definition boundary_db : db :=
  with_pay Examples.april_db [Examples.pay 10%N 21000] [threshold 252000].

(** [Examples.april_db] with a second compensation row of employee 11, in
    force from 30 April 2024. *)
Definition last_day_db : db :=
  with_pay Examples.april_db
    (compensation_structures Examples.april_db
     ++ [ {| Compensation.employee_id := 11%N;
             Compensation.tenant_id := 1%N;
             Compensation.effective_from := JsDate.Date 2024 4 30;
             Compensation.basic_salary := 40000;
             Compensation.hra := None;
             Compensation.special_allowance := None |} ])
    [].

(** A cycle of April of the year 99, and an employee with no date of
    joining, paid 21000 a month since 1990. *)
Definition year_99_db : db :=
  {| employees :=
       [ {| Employee.id := 10%N; Employee.tenant_id := 1%N;
            Employee.employee_code := "E"; Employee.full_name := "N";
            Employee.email := "a@x.io"; Employee.date_of_joining := None;
            Employee.status := active |} ];
     compensation_structures :=
       [ {| Compensation.employee_id := 10%N; Compensation.tenant_id := 1%N;
            Compensation.effective_from := JsDate.Date 1990 1 1;
            Compensation.basic_salary := 21000; Compensation.hra := None;
            Compensation.special_allowance := None |} ];
     payroll_cycles :=
       [ {| Cycle.id := 5%N; Cycle.tenant_id := 1%N; Cycle.month := 4;
            Cycle.year := 99; Cycle.payday := Some 30;
            Cycle.status := draft; Cycle.total_employees := 0;
            Cycle.total_amount := 0; Cycle.approved_by := None;
            Cycle.created_by := Some 2%N |} ];
     payroll_items := []; payroll_settings := []; leave_requests := [];
     attendance_records := [] |}.

End Cases64.

(** * Properties *)

Import Schema.

(** ** Helper lemmas *)

Lemma In_insert_by {A} (le : A → A → bool) x y l :
  In x (Js.insert_by le y l) ↔ x = y ∨ In x l.
Proof.
  induction l as [|z l IH]; simpl.
  - intuition.
  - destruct (le y z); simpl; rewrite ?IH; intuition.
Qed.

Lemma In_sort_by {A} (le : A → A → bool) x l :
  In x (Js.sort_by le l) ↔ In x l.
Proof.
  induction l as [|y l IH]; simpl; [tauto|].
  rewrite In_insert_by, IH. intuition.
Qed.






(** ** Bounds on the days of a month *)

Lemma daysInMonthIdx_bounds y mi : 28 ≤ JsDate.daysInMonthIdx y mi ≤ 31.
Proof.
  unfold JsDate.daysInMonthIdx.
  destruct mi as [|[p|p|]|]; try lia;
    repeat (match goal with
            | |- context [match ?p with _ => _ end] => destruct p
            end; try lia).
Qed.

Lemma newDate_day0_bounds y m :
  28 ≤ JsDate.getDate (JsDate.newDate_day0 y m) ≤ 31.
Proof.
  unfold JsDate.newDate_day0, JsDate.getDate.
  destruct (_ =? 0); cbn [JsDate.day]; apply daysInMonthIdx_bounds.
Qed.

(** ** Binary64: what rounding gives *)

Lemma iter_pos_iter {A} (f : A → A) p x :
  SpecFloat.iter_pos f p x = Pos.iter f x p.
Proof.
  revert x. induction p as [p IH|p IH|]; intros x; simpl.
  - rewrite !IH, !Pos.iter_swap. reflexivity.
  - rewrite !IH. reflexivity.
  - reflexivity.
Qed.

Lemma shr_1_m r : 0 ≤ shr_m r → shr_m (shr_1 r) = shr_m r / 2.
Proof.
  destruct r as [m b s]. cbn [shr_m]. intros Hm. rewrite <- Z.div2_div.
  destruct m as [|[p|p|]|p]; try reflexivity. lia.
Qed.

Lemma shr_m_iter r p :
  0 ≤ shr_m r → shr_m (Pos.iter shr_1 r p) = shr_m r / 2 ^ Z.pos p.
Proof.
  intros Hm. induction p as [|p IH] using Pos.peano_ind.
  - cbn [Pos.iter]. rewrite shr_1_m by assumption. reflexivity.
  - rewrite Pos.iter_succ, shr_1_m, IH.
    + rewrite Pos2Z.inj_succ, Z.pow_succ_r by lia.
      rewrite Z.div_div by lia. f_equal. lia.
    + rewrite IH. apply Z.div_pos; lia.
Qed.

Lemma shr_spec r e n :
  0 ≤ shr_m r →
  shr_m (fst (shr r e n)) = (if 0 <? n then shr_m r / 2 ^ n else shr_m r)
  ∧ snd (shr r e n) = (if 0 <? n then e + n else e).
Proof.
  intros Hm. destruct n as [|p|p]; cbn [shr fst snd Z.ltb Z.compare];
    [tauto| |tauto].
  rewrite iter_pos_iter, shr_m_iter by assumption. tauto.
Qed.

Lemma digits2_pos_bounds p :
  2 ^ (Z.pos (digits2_pos p) - 1) ≤ Z.pos p < 2 ^ Z.pos (digits2_pos p).
Proof.
  induction p as [p IH|p IH|]; cbn [digits2_pos];
    rewrite ?Pos2Z.inj_succ.
  - replace (Z.succ (Z.pos (digits2_pos p)) - 1)
      with (Z.succ (Z.pos (digits2_pos p) - 1)) by lia.
    rewrite !Z.pow_succ_r by lia. lia.
  - replace (Z.succ (Z.pos (digits2_pos p)) - 1)
      with (Z.succ (Z.pos (digits2_pos p) - 1)) by lia.
    rewrite !Z.pow_succ_r by lia. lia.
  - split; [reflexivity|reflexivity].
Qed.

Lemma Zdigits2_bounds m :
  0 ≤ m →
  0 ≤ Zdigits2 m ∧ m < 2 ^ Zdigits2 m ∧ (0 < m → 2 ^ (Zdigits2 m - 1) ≤ m).
Proof.
  destruct m as [|p|p]; cbn [Zdigits2]; [intros _|intros _|lia].
  - split; [lia|]. split; [reflexivity|lia].
  - pose proof (digits2_pos_bounds p). lia.
Qed.

Lemma shr_record_of_loc_m m l : shr_m (shr_record_of_loc m l) = m.
Proof. destruct l as [|[]]; reflexivity. Qed.

(** Shifting to the exponent of the format: at most 53 bits are left, the
    exponent does not go down, and nothing above the least exponent is
    shifted out altogether. *)
Lemma shr_fexp_spec mx ex lx :
  0 ≤ mx →
  0 ≤ shr_m (fst (shr_fexp Double.prec Double.emax mx ex lx)) < 2 ^ 53
  ∧ ex ≤ snd (shr_fexp Double.prec Double.emax mx ex lx)
  ∧ (0 < mx → -1074 ≤ ex →
     0 < shr_m (fst (shr_fexp Double.prec Double.emax mx ex lx))).
Proof.
  intros Hm. unfold shr_fexp.
  destruct (Zdigits2_bounds mx Hm) as (Hd0 & Hd1 & Hd2).
  set (n := fexp Double.prec Double.emax (Zdigits2 mx + ex) - ex).
  assert (Hn : n = Z.max (Zdigits2 mx - 53) (-1074 - ex)).
  { unfold n, fexp, emin, Double.prec, Double.emax. lia. }
  destruct (shr_spec (shr_record_of_loc mx lx) ex n) as [-> ->];
    [by rewrite shr_record_of_loc_m|].
  rewrite shr_record_of_loc_m.
  destruct (Z.ltb_spec 0 n) as [Hpos|Hneg].
  - assert (H2n : 0 < 2 ^ n) by (apply Z.pow_pos_nonneg; lia).
    split; [split|split].
    + apply Z.div_pos; lia.
    + apply Z.div_lt_upper_bound; [lia|].
      rewrite <- Z.pow_add_r by lia.
      eapply Z.lt_le_trans; [exact Hd1|].
      apply Z.pow_le_mono_r; lia.
    + lia.
    + intros Hmx Hex. specialize (Hd2 Hmx).
      assert (Hle : 2 ^ n ≤ 2 ^ (Zdigits2 mx - 1))
        by (apply Z.pow_le_mono_r; lia).
      assert (1 ≤ mx / 2 ^ n); [|lia].
      apply Z.div_le_lower_bound; lia.
  - split; [split|split]; try lia.
    eapply Z.lt_le_trans; [exact Hd1|]. apply Z.pow_le_mono_r; lia.
Qed.

Lemma round_nearest_even_bounds m l :
  m ≤ round_nearest_even m l ≤ m + 1.
Proof. destruct l as [|[]]; cbn; try destruct (Z.even m); lia. Qed.

(** Rounding a mantissa that is not negative: the sign is kept, a finite
    result has a mantissa below 2^53 and an exponent not below the one
    given, and the result is a zero only by underflow. *)
Lemma binary_round_aux_spec s mx ex lx :
  0 ≤ mx →
  match binary_round_aux Double.prec Double.emax s mx ex lx with
  | S754_zero s' => s' = s ∧ ¬ (0 < mx ∧ -1074 ≤ ex)
  | S754_infinity s' => s' = s
  | S754_nan => False
  | S754_finite s' m e => s' = s ∧ Z.pos m < 2 ^ 53 ∧ ex ≤ e
  end.
Proof.
  intros Hm. unfold binary_round_aux.
  pose proof (shr_fexp_spec mx ex lx Hm) as (H1 & H2 & H3).
  destruct (shr_fexp Double.prec Double.emax mx ex lx) as [mrs' e'].
  cbn [fst snd] in H1, H2, H3.
  pose proof (round_nearest_even_bounds (shr_m mrs')
                (loc_of_shr_record mrs')) as Hr.
  set (m2 := round_nearest_even (shr_m mrs') (loc_of_shr_record mrs')) in *.
  pose proof (shr_fexp_spec m2 e' loc_Exact ltac:(lia)) as (H4 & H5 & H6).
  destruct (shr_fexp Double.prec Double.emax m2 e' loc_Exact) as [mrs'' e''].
  cbn [fst snd] in H4, H5, H6.
  destruct (shr_m mrs'') as [|p|p].
  - split; [reflexivity|]. intros [Hmx Hex]. specialize (H3 Hmx Hex).
    specialize (H6 ltac:(lia) ltac:(lia)). lia.
  - destruct (e'' <=? Double.emax - Double.prec); [|reflexivity].
    split; [reflexivity|]. lia.
  - lia.
Qed.





(** The quotient the division rounds. *)
Lemma SFdiv_core_binary_eq m1 e1 m2 e2 :
  0 ≤ m1 →
  let e' := Z.min (fexp Double.prec Double.emax
                     (Zdigits2 m1 + e1 - (Zdigits2 m2 + e2))) (e1 - e2) in
  ∃ l, SFdiv_core_binary Double.prec Double.emax m1 e1 m2 e2
       = (m1 * 2 ^ (e1 - e2 - e') / m2, e', l).
Proof.
  intros Hm e'. unfold SFdiv_core_binary. fold e'.
  assert (Hs : 0 ≤ e1 - e2 - e') by (unfold e'; lia).
  set (m' := match e1 - e2 - e' with
             | 0 => m1
             | Z.pos _ => Z.shiftl m1 (e1 - e2 - e')
             | Z.neg _ => 0
             end).
  assert (Hm' : m' = m1 * 2 ^ (e1 - e2 - e')).
  { unfold m'. destruct (e1 - e2 - e') as [|p|p] eqn:E.
    - rewrite Z.pow_0_r. lia.
    - apply Z.shiftl_mul_pow2. lia.
    - lia. }
  rewrite <- Hm'. unfold Z.div.
  destruct (Z.div_eucl m' m2) as [q r]. eexists. reflexivity.
Qed.




Lemma SFcompare_antisym a b :
  SFcompare b a = option_map CompOpp (SFcompare a b).
Proof.
  destruct a as [sa|sa| |sa ma ea], b as [sb|sb| |sb mb eb];
    cbn [SFcompare option_map]; try reflexivity;
    try (destruct sa; reflexivity); try (destruct sb; reflexivity);
    try (destruct sa, sb; reflexivity).
  f_equal. destruct sa, sb; try reflexivity.
  - rewrite (Z.compare_antisym ea eb).
    destruct (ea ?= eb); cbn [CompOpp]; try reflexivity.
    by rewrite (Pos.compare_cont_antisym ma mb Eq).
  - rewrite (Z.compare_antisym ea eb).
    destruct (ea ?= eb); cbn [CompOpp]; try reflexivity.
    by rewrite (Pos.compare_cont_antisym ma mb Eq).
Qed.

Lemma gt_not_le a b : Double.gt a b = true → Double.le a b = false.
Proof.
  unfold Double.gt, Double.le, SFltb, SFleb.
  rewrite (SFcompare_antisym a b).
  destruct (SFcompare a b) as [[]|]; cbn; congruence.
Qed.






(** A product with 0.75 and a quotient by 100 of a number above 21000 are
    not zero. *)
Lemma mul_exponent s m e k ek :
  -1074 ≤ e + ek →
  match Double.mul (S754_finite s m e) (S754_finite false k ek) with
  | S754_finite _ _ e' => e + ek ≤ e'
  | S754_infinity _ => True
  | _ => False
  end.
Proof.
  intros He. unfold Double.mul. cbn [SFmul].
  pose proof (binary_round_aux_spec (xorb s false) (Z.pos (m * k)) (e + ek)
                loc_Exact ltac:(lia)) as H.
  destruct (binary_round_aux _ _ _ _ _ _) as [| | |s' m' e']; try tauto.
  destruct H as [_ H]. apply H. lia.
Qed.

Lemma div_100_not_zero s m e :
  -91 ≤ e →
  match Double.div (S754_finite s m e) (Double.of_Z 100) with
  | S754_zero _ | S754_nan => False
  | _ => True
  end.
Proof.
  intros He.
  change (Double.of_Z 100) with (S754_finite false 7036874417766400 (-46)).
  unfold Double.div. cbn [SFdiv].
  destruct (SFdiv_core_binary_eq (Z.pos m) e (Z.pos 7036874417766400) (-46)
              ltac:(lia)) as [l ->].
  change (Zdigits2 (Z.pos 7036874417766400)) with 53.
  cbn [Zdigits2].
  pose proof (digits2_pos_bounds m) as [Hd _].
  set (d := Z.pos (digits2_pos m)) in *.
  assert (Hd1 : 1 ≤ d) by (unfold d; lia).
  set (e' := Z.min (fexp Double.prec Double.emax (d + e - (53 + -46)))
                   (e - -46)).
  assert (He' : e' = Z.min (d + e - 60) (e + 46)).
  { unfold e', fexp, emin, Double.prec, Double.emax. lia. }
  set (q := Z.pos m * 2 ^ (e - -46 - e') / Z.pos 7036874417766400).
  assert (Hq : 1 ≤ q).
  { apply Z.div_le_lower_bound; [lia|].
    assert (H105 : 2 ^ 105 ≤ 2 ^ ((d - 1) + (e - -46 - e')))
      by (apply Z.pow_le_mono_r; lia).
    rewrite Z.pow_add_r in H105 by lia.
    assert (H0 : 0 < 2 ^ (e - -46 - e')) by (apply Z.pow_pos_nonneg; lia).
    assert (2 ^ (d - 1) * 2 ^ (e - -46 - e')
            ≤ Z.pos m * 2 ^ (e - -46 - e'))
      by (apply Z.mul_le_mono_nonneg_r; lia).
    assert (Z.pos 7036874417766400 * 1 ≤ 2 ^ 105) by (vm_compute; discriminate).
    lia. }
  pose proof (binary_round_aux_spec (xorb s false) q e' l ltac:(lia)) as H.
  destruct (binary_round_aux _ _ _ _ _ _) as [| | |s' m' e'']; try tauto.
  apply H. lia.
Qed.

Lemma esi_formula_not_zero g :
  Double.le g (Double.of_Z 21000) = false →
  Double.div (Double.mul g (Double.of_Q 0.75)) (Double.of_Z 100)
  ≠ Double.of_Z 0.
Proof.
  change (Double.of_Z 21000) with (S754_finite false 5772436045824000 (-38)).
  change (Double.of_Q 0.75) with (S754_finite false 6755399441055744 (-53)).
  change (Double.of_Z 0) with (S754_zero false).
  unfold Double.le, SFleb.
  destruct g as [s|s| |s m e]; cbn [SFcompare].
  - discriminate.
  - destruct s; [discriminate|]. intros _. discriminate.
  - intros _. discriminate.
  - destruct s; [discriminate|].
    intros Hc.
    assert (He : -38 ≤ e).
    { apply Z.nlt_ge. intros Hlt. apply Z.compare_lt_iff in Hlt.
      change (e ?= -38) with (IntDef.Z.compare e (-38)) in Hlt.
      rewrite Hlt in Hc. discriminate. }
    pose proof (mul_exponent false m e 6755399441055744 (-53) ltac:(lia))
      as Hm.
    destruct (Double.mul _ _) as [| | |s' m' e']; try tauto.
    + destruct s; discriminate.
    + pose proof (div_100_not_zero s' m' e' ltac:(lia)) as Hd.
      intros Heq. rewrite Heq in Hd. exact Hd.
Qed.

(** ** The time value of the month end *)

Lemma newDate_day0_local year month :
  1 ≤ month ≤ 12 →
  JsDate.newDate_day0 year month
  = JsDate.Date (JsDate.fullYear year) month
      (JsDate.daysInMonthIdx (JsDate.fullYear year) (month - 1)).
Proof.
  intros Hm.
  assert (Hcases : month = 1 ∨ month = 2 ∨ month = 3 ∨ month = 4 ∨ month = 5
    ∨ month = 6 ∨ month = 7 ∨ month = 8 ∨ month = 9 ∨ month = 10
    ∨ month = 11 ∨ month = 12) by lia.
  unfold JsDate.newDate_day0.
  destruct Hcases as [->|[->|[->|[->|[->|[->|[->|[->|[->|[->|[->| ->]]]]]]]]]]];
    repeat match goal with
    | |- context [?a mod 12] =>
        let v := eval vm_compute in (a mod 12) in change (a mod 12) with v
    | |- context [?a / 12] =>
        let v := eval vm_compute in (a / 12) in change (a / 12) with v
    | |- context [?a =? 0] =>
        let v := eval vm_compute in (a =? 0) in change (a =? 0) with v
    end; cbv iota; rewrite ?Z.add_0_r; try reflexivity.
  replace (JsDate.fullYear year + 1 - 1) with (JsDate.fullYear year) by lia.
  reflexivity.
Qed.

Lemma fullYear_bounds y : 1 ≤ y ≤ 275759 → 1 ≤ JsDate.fullYear y ≤ 275759.
Proof.
  unfold JsDate.fullYear. destruct ((0 <=? y) && (y <=? 99)) eqn:E; [|lia].
  apply andb_true_iff in E as [_ H]. apply Z.leb_le in H. lia.
Qed.

Lemma days_from_civil_bounds y m dd :
  1 ≤ y ≤ 275759 → 1 ≤ m ≤ 12 → 1 ≤ dd ≤ 31 →
  -99999999 ≤ JsTime.days_from_civil (JsDate.Date y m dd) ≤ 99999999.
Proof.
  intros Hy Hm Hd. unfold JsTime.days_from_civil.
  cbn [JsDate.year JsDate.month JsDate.day].
  destruct (m <=? 2); Z.div_mod_to_equations; lia.
Qed.

Lemma newDate_day0_valid LocalTZA year month :
  1 ≤ month ≤ 12 → 1 ≤ year ≤ 275759 →
  (∀ day, Z.abs (LocalTZA day) ≤ JsTime.msPerDay) →
  ∃ tv, JsTime.newDate_day0 LocalTZA year month = Some tv.
Proof.
  intros Hm Hy Hz. unfold JsTime.newDate_day0.
  specialize (Hz (JsDate.newDate_day0 year month)).
  rewrite newDate_day0_local in * by assumption.
  pose proof (daysInMonthIdx_bounds (JsDate.fullYear year) (month - 1)).
  pose proof (days_from_civil_bounds (JsDate.fullYear year) month
                (JsDate.daysInMonthIdx (JsDate.fullYear year) (month - 1))
                (fullYear_bounds year Hy) Hm ltac:(lia)) as Hb.
  unfold JsTime.msPerDay in *.
  destruct (Z.leb_spec
    (Z.abs (JsTime.days_from_civil
              (JsDate.Date (JsDate.fullYear year) month
                 (JsDate.daysInMonthIdx (JsDate.fullYear year) (month - 1)))
            * 86400000
            - LocalTZA
                (JsDate.Date (JsDate.fullYear year) month
                   (JsDate.daysInMonthIdx (JsDate.fullYear year)
                      (month - 1)))))
    (100000000 * 86400000)); [eauto|lia].
Qed.


(** The computation in binary64 rounds the exact one: for a month whose
    first day the database reads from the text sent for it, the numbers are
    those of [Payroll.calculateLopAndPaidDays], converted and then added and
    subtracted with rounding. *)
Lemma calculateLopAndPaidDays_rounds date_in LocalTZA d tenantId employeeId
    month year :
  1 ≤ month ≤ 12 → 1 ≤ year ≤ 275759 →
  (∀ day, Z.abs (LocalTZA day) ≤ JsTime.msPerDay) →
  date_in (Payroll64.first_of_month year month)
  = Some (JsDate.Date year month 1) →
  let D := Double.of_Z
             (Payroll.totalWorkingDays
                (Payroll.calculateLopAndPaidDays d tenantId employeeId
                   month year)) in
  let L := Double.add
             (Double.of_Q
                (Payroll.leave_query d tenantId employeeId year month))
             (Double.of_Z
                (Payroll.attendance_query d tenantId employeeId year month))
  in
  Payroll64.calculateLopAndPaidDays date_in LocalTZA d tenantId employeeId
    month year
  = Some {| Payroll64.lopDays := L;
            Payroll64.paidDays :=
              Double.Math_max (Double.of_Z 0) (Double.sub D L);
            Payroll64.totalWorkingDays := D |}.
Proof.
  intros Hm Hy Hz Hdate D L.
  unfold Payroll64.calculateLopAndPaidDays, Payroll64.leave_query.
  rewrite Hdate. unfold JsTime.getDate_day0.
  destruct (newDate_day0_valid LocalTZA year month Hm Hy Hz) as [tv ->].
  reflexivity.
Qed.

Lemma of_Z_days n :
  28 ≤ n ≤ 31 →
  ∃ mD eD, Double.of_Z n = S754_finite false mD eD ∧ 2 ^ 52 ≤ Z.pos mD.
Proof.
  intros Hn.
  assert (Hc : n = 28 ∨ n = 29 ∨ n = 30 ∨ n = 31) by lia.
  destruct Hc as [->|[->|[->| ->]]]; vm_compute; eexists _, _;
    (split; [reflexivity|discriminate]).
Qed.




(** ** The claims *)



(** February 2023 with two loss-of-pay days: 28 days, 2 unpaid, 26 paid. *)
Example february_2023 :
  Payroll64.calculateLopAndPaidDays Cases64.iso_date_in Cases64.utc
    Examples.feb_db 1%N 10%N 2 2023
  = Some {| Payroll64.lopDays := Double.of_Z 2;
            Payroll64.paidDays := Double.of_Z 26;
            Payroll64.totalWorkingDays := Double.of_Z 28 |}.
Proof. vm_compute. reflexivity. Qed.

(** The text sent for April of the year 99 is 99-04-01; a database that
    refuses it makes the computation fail. *)
Example year_99_refused d tenantId employeeId :
  Payroll64.first_of_month 99 4 = "99-04-01"
  ∧ Payroll64.calculateLopAndPaidDays Cases64.iso_date_in Cases64.utc
      d tenantId employeeId 4 99 = None.
Proof. split; reflexivity. Qed.







(** Every line of the preview is the loop body run on a selected employee and
    the compensation row found for that employee. *)
Lemma preview_loop64_In date_in LocalTZA d st tenantId cycle monthEnd rows
    items it :
  Payroll64.preview_loop date_in LocalTZA d st tenantId cycle monthEnd rows
  = Some items →
  In it items →
  ∃ employee compensation,
    In employee rows
    ∧ In compensation
        (Payroll.compensation_query d (Employee.id employee) tenantId monthEnd)
    ∧ Payroll64.preview_item date_in LocalTZA d st tenantId cycle employee
        compensation = Some it.
Proof.
  revert items. induction rows as [|e rows IH]; intros items; simpl.
  - intros [= <-] [].
  - destruct (Payroll.compensation_query d (Employee.id e) tenantId monthEnd)
      as [|c cs] eqn:Hc.
    + intros Hl Hin. destruct (IH _ Hl Hin) as (e' & c' & He & Hc' & Hit).
      eauto 6.
    + destruct (Payroll64.preview_item date_in LocalTZA d st tenantId cycle
                  e c) as [item|] eqn:Hi; [|discriminate].
      destruct (Payroll64.preview_loop date_in LocalTZA d st tenantId cycle
                  monthEnd rows) as [l|]; [|discriminate].
      intros [= <-] [<-|Hin].
      * exists e, c. rewrite Hc. simpl. auto.
      * destruct (IH _ eq_refl Hin) as (e' & c' & He & Hc' & Hit). eauto 6.
Qed.

Lemma get_preview64_In date_in LocalTZA d tenantId cycleId items it :
  Payroll64.get_preview date_in LocalTZA d tenantId cycleId
  = Payroll.json items →
  In it items →
  ∃ cycle monthEnd employee compensation,
    In cycle (Payroll.find_cycle d cycleId tenantId)
    ∧ Payroll64.payrollMonthEnd date_in LocalTZA cycle = Some monthEnd
    ∧ In employee (Payroll.employees_query d tenantId monthEnd)
    ∧ In compensation
        (Payroll.compensation_query d (Employee.id employee) tenantId monthEnd)
    ∧ Payroll64.preview_item date_in LocalTZA d
        (Payroll.preview_settings d tenantId) tenantId cycle employee
        compensation = Some it.
Proof.
  unfold Payroll64.get_preview.
  destruct (Payroll.find_cycle d cycleId tenantId) as [|cycle cs];
    [discriminate|].
  destruct (Payroll64.payrollMonthEnd date_in LocalTZA cycle)
    as [monthEnd|] eqn:Hend; [|discriminate].
  destruct (Payroll64.preview_loop _ _ _ _ _ _ _ _) as [l|] eqn:Hl;
    [|discriminate].
  intros [= <-] Hin.
  destruct (preview_loop64_In _ _ _ _ _ _ _ _ _ _ Hl Hin)
    as (e & c & He & Hc & Hit).
  exists cycle, monthEnd, e, c. simpl. auto.
Qed.

(** The ESI and TDS deductions of a line are computed from its
    gross_salary, the adjusted gross. *)
Lemma preview_item_deductions date_in LocalTZA d st tenantId cycle employee
    compensation it :
  Payroll64.preview_item date_in LocalTZA d st tenantId cycle employee
    compensation = Some it →
  Payroll64.PreviewItem.esi_deduction it
  = Payroll64.esi (Payroll64.PreviewItem.gross_salary it)
  ∧ Payroll64.PreviewItem.tds_deduction it
    = Payroll64.tds (Payroll64.PreviewItem.gross_salary it) st.
Proof.
  unfold Payroll64.preview_item.
  destruct (Payroll64.calculateLopAndPaidDays _ _ _ _ _ _ _) as [r|];
    [|discriminate].
  intros [= <-]. split; reflexivity.
Qed.

(** C2. In the preview, for every line, in the numbers of the program
    (binary64, [x] and [/] rounding as they do there): the ESI deduction is
    (adjustedGross x 0.75) / 100 exactly when adjustedGross <= 21000, 21000
    itself included, where it is 157.5; and it is 0 whenever adjustedGross
    <= 21000 is false, so whenever adjustedGross > 21000. The line carries
    adjustedGross as gross_salary. *)
Theorem preview_esi_threshold date_in LocalTZA d tenantId cycleId items it :
  Payroll64.get_preview date_in LocalTZA d tenantId cycleId
  = Payroll.json items →
  In it items →
  let adjustedGross := Payroll64.PreviewItem.gross_salary it in
  let esiDeduction := Payroll64.PreviewItem.esi_deduction it in
  (esiDeduction
   = Double.div (Double.mul adjustedGross (Double.of_Q 0.75))
       (Double.of_Z 100)
   ↔ Double.le adjustedGross (Double.of_Z 21000) = true)
  ∧ (adjustedGross = Double.of_Z 21000 → esiDeduction = Double.of_Q 157.5)
  ∧ (Double.le adjustedGross (Double.of_Z 21000) = false →
     esiDeduction = Double.of_Z 0)
  ∧ (Double.gt adjustedGross (Double.of_Z 21000) = true →
     esiDeduction = Double.of_Z 0).
Proof.
  intros Hres Hin adjustedGross esiDeduction.
  destruct (get_preview64_In _ _ _ _ _ _ _ Hres Hin)
    as (cycle & monthEnd & e & c & _ & _ & _ & _ & Hit).
  apply preview_item_deductions in Hit as [Hesi _].
  fold esiDeduction adjustedGross in Hesi. rewrite Hesi.
  unfold Payroll64.esi.
  split; [|split; [|split]].
  - destruct (Double.le adjustedGross (Double.of_Z 21000)) eqn:E.
    + split; reflexivity.
    + split; [|discriminate]. intros H. symmetry in H.
      by apply esi_formula_not_zero in H.
  - intros ->. vm_compute. reflexivity.
  - intros ->. reflexivity.
  - intros H. by rewrite (gt_not_le _ _ H).
Qed.

Lemma preview_esi_threshold_witness :
  ∃ it items,
    Payroll64.get_preview Cases64.iso_date_in Cases64.kolkata
      Cases64.boundary_db 1%N 5%N = Payroll.json items
    ∧ In it items
    ∧ Payroll64.PreviewItem.gross_salary it = Double.of_Z 21000
    ∧ Payroll64.PreviewItem.esi_deduction it = Double.of_Q 157.5.
Proof.
  eexists _, _. split; [vm_compute; reflexivity|].
  split; [left; reflexivity|]. split; [vm_compute; reflexivity|].
  eapply (preview_esi_threshold Cases64.iso_date_in Cases64.kolkata
            Cases64.boundary_db 1%N 5%N);
    [vm_compute; reflexivity | left; reflexivity | vm_compute; reflexivity].
Defined.

(** Monthly components of 10000.20, 8400.10 and 2599.70 add up to 21000, but
    not in binary64: the adjusted gross of a full month comes to
    21000.000000000004, and no ESI is deducted. *)
Example esi_above_by_rounding :
  ∃ it rest,
    Payroll64.get_preview Cases64.iso_date_in Cases64.utc
      Cases64.rounding_db 1%N 5%N = Payroll.json (it :: rest)
    ∧ Payroll64.PreviewItem.gross_salary it
      = S754_finite false 5772436045824001 (-38)
    ∧ Double.gt (Payroll64.PreviewItem.gross_salary it) (Double.of_Z 21000)
      = true
    ∧ Payroll64.PreviewItem.esi_deduction it = Double.of_Z 0.
Proof. eexists _, _. vm_compute. repeat split; reflexivity. Qed.



(** A monthly 16000 against a threshold of 192000: the adjusted gross of a
    full month of thirty days is (16000 / 30) x 30 = 16000.000000000002, its
    twelvefold 192000.00000000003 is above the threshold, and a TDS of
    1.2e-13 is deducted. *)
Example tds_above_by_rounding :
  ∃ it0 it rest,
    Payroll64.get_preview Cases64.iso_date_in Cases64.utc
      Cases64.rounding_db 1%N 5%N = Payroll.json (it0 :: it :: rest)
    ∧ Payroll64.PreviewItem.gross_salary it
      = S754_finite false 8796093022208001 (-39)
    ∧ Double.gt
        (Double.mul (Payroll64.PreviewItem.gross_salary it) (Double.of_Z 12))
        (Double.of_Z 192000) = true
    ∧ Payroll64.PreviewItem.tds_deduction it
      = S754_finite false 4803839602528529 (-95).
Proof. eexists _, _, _. vm_compute. repeat split; reflexivity. Qed.





(** A requester without an employee record gets the empty list. *)
Example get_payslips_no_record :
  Payroll.get_payslips true Examples.april_db 1%N "nobody@x.io"
  = Payroll.json [].
Proof. reflexivity. Qed.

(** An UPDATE that leaves id and tenant_id alone changes exactly the rows the
    lookup by id and tenant finds. *)
Lemma find_cycle_update f cycleId tenantId d :
  (∀ c, Cycle.id (f c) = Cycle.id c ∧ Cycle.tenant_id (f c) = Cycle.tenant_id c) →
  Payroll.find_cycle (Payroll.update_cycle f cycleId tenantId d)
    cycleId tenantId
  = List.map f (Payroll.find_cycle d cycleId tenantId).
Proof.
  intros Hf. unfold Payroll.find_cycle, Payroll.update_cycle.
  cbn [Payroll.with_payroll_cycles payroll_cycles].
  induction (payroll_cycles d) as [|c l IH]; [reflexivity|].
  cbn [List.map List.filter].
  destruct (bool_decide (Cycle.id c = cycleId)
            && bool_decide (Cycle.tenant_id c = tenantId)) eqn:E.
  - destruct (Hf c) as [-> ->]. rewrite E. cbn [List.map]. f_equal. exact IH.
  - rewrite E. exact IH.
Qed.

Lemma set_status_keeps s a c :
  Cycle.id (Payroll.set_status s a c) = Cycle.id c
  ∧ Cycle.tenant_id (Payroll.set_status s a c) = Cycle.tenant_id c.
Proof. split; reflexivity. Qed.

Lemma post_process_rejects audit_ok d tenantId cycleId cycle rest :
  Payroll.find_cycle d cycleId tenantId = cycle :: rest →
  Cycle.status cycle ≠ approved →
  Payroll.post_process audit_ok d tenantId cycleId
  = (Payroll.status_error 400
       ("Cannot process payroll. Current status is '"
        +:+ payroll_status_text (Cycle.status cycle)
        +:+ "'. Only 'approved' payroll can be processed."), d).
Proof.
  intros Hfind Hne. unfold Payroll.post_process.
  rewrite Hfind, (bool_decide_eq_false_2 _ Hne). reflexivity.
Qed.

Lemma post_process_accepts audit_ok d tenantId cycleId cycle rest :
  Payroll.find_cycle d cycleId tenantId = cycle :: rest →
  Cycle.status cycle = approved →
  Payroll.post_process audit_ok d tenantId cycleId
  = (if audit_ok
     then Payroll.json {| Payroll.success := true;
                          Payroll.message := "Payroll processing started" |}
     else Payroll.status_error 500 "Failed to process payroll",
     Payroll.update_cycle
       (λ c, Payroll.set_status processing (Cycle.approved_by c) c)
       cycleId tenantId d).
Proof.
  intros Hfind Happ. unfold Payroll.post_process.
  rewrite Hfind, (bool_decide_eq_true_2 _ Happ). cbn [negb].
  destruct audit_ok; reflexivity.
Qed.

(** C5. The process action succeeds, and moves the cycle to 'processing',
    only when the cycle is 'approved'; on a cycle in any other status it
    answers with an error that names the current status and leaves the
    database as it was. *)
Theorem post_process_only_approved audit_ok d tenantId cycleId cycle rest :
  Payroll.find_cycle d cycleId tenantId = cycle :: rest →
  let res := fst (Payroll.post_process audit_ok d tenantId cycleId) in
  let d' := snd (Payroll.post_process audit_ok d tenantId cycleId) in
  ((∃ ok, Payroll.body res = inr ok) → Cycle.status cycle = approved)
  ∧ (Cycle.status cycle = approved →
       List.map Cycle.status (Payroll.find_cycle d' cycleId tenantId)
       = List.map (λ _, processing) (cycle :: rest)
       ∧ (audit_ok = true →
          res = Payroll.json {| Payroll.success := true;
                                Payroll.message := "Payroll processing started" |}))
  ∧ (Cycle.status cycle ≠ approved →
       res = Payroll.status_error 400
               ("Cannot process payroll. Current status is '"
                +:+ payroll_status_text (Cycle.status cycle)
                +:+ "'. Only 'approved' payroll can be processed.")
       ∧ d' = d).
Proof.
  intros Hfind res d'. subst res d'.
  destruct (decide (Cycle.status cycle = approved)) as [Happ|Hne].
  - rewrite (post_process_accepts _ _ _ _ _ _ Hfind Happ). cbn [fst snd].
    split; [auto|]. split; [|contradiction].
    intros _. split.
    + rewrite find_cycle_update by (intros; apply set_status_keeps).
      rewrite Hfind, List.map_map. reflexivity.
    + intros ->. reflexivity.
  - rewrite (post_process_rejects _ _ _ _ _ _ Hfind Hne). cbn [fst snd].
    split; [|split; [contradiction|auto]].
    intros [ok Hok]. discriminate.
Qed.

Lemma post_process_only_approved_witness :
  Payroll.post_process true
    (Payroll.update_cycle
       (λ c, Payroll.set_status draft (Cycle.approved_by c) c) 5%N 1%N
       Examples.april_db) 1%N 5%N
  = (Payroll.status_error 400
       "Cannot process payroll. Current status is 'draft'. Only 'approved' payroll can be processed.",
     Payroll.update_cycle
       (λ c, Payroll.set_status draft (Cycle.approved_by c) c) 5%N 1%N
       Examples.april_db)
  ∧ List.map Cycle.status
      (Payroll.find_cycle
         (snd (Payroll.post_process true Examples.april_db 1%N 5%N)) 5%N 1%N)
    = [processing].
Proof.
  split.
  - destruct (post_process_only_approved true
                (Payroll.update_cycle
                   (λ c, Payroll.set_status draft (Cycle.approved_by c) c)
                   5%N 1%N Examples.april_db) 1%N 5%N _ _ eq_refl)
      as (_ & _ & H).
    destruct H as [Hres Hd]; [discriminate|].
    apply injective_projections; [exact Hres | exact Hd].
  - destruct (post_process_only_approved true Examples.april_db 1%N 5%N
                _ _ eq_refl) as (_ & H & _).
    destruct H as [Hst _]; [reflexivity|]. exact Hst.
Defined.

(** C9. Submit, approve and reject write the new status whatever the current
    one is: on the cycle of the given id, in any status, submit leaves
    'pending_approval', approve 'approved' and reject 'draft', and each answers
    success; of the actions, process alone looks at the current status. *)
Theorem lifecycle_actions_unguarded d userId tenantId cycleId c :
  Payroll.find_cycle d cycleId tenantId = [c] →
  (fst (Payroll.post_submit d tenantId cycleId)
   = Payroll.json {| Payroll.success := true;
                     Payroll.message := "Payroll submitted for approval" |}
   ∧ List.map Cycle.status
       (Payroll.find_cycle (snd (Payroll.post_submit d tenantId cycleId))
          cycleId tenantId) = [pending_approval])
  ∧ (fst (Payroll.post_approve d userId tenantId cycleId)
     = Payroll.json {| Payroll.success := true;
                       Payroll.message := "Payroll approved" |}
     ∧ List.map Cycle.status
         (Payroll.find_cycle
            (snd (Payroll.post_approve d userId tenantId cycleId))
            cycleId tenantId) = [approved])
  ∧ (fst (Payroll.post_reject d tenantId cycleId)
     = Payroll.json {| Payroll.success := true;
                       Payroll.message := "Payroll rejected" |}
     ∧ List.map Cycle.status
         (Payroll.find_cycle (snd (Payroll.post_reject d tenantId cycleId))
            cycleId tenantId) = [draft])
  ∧ (Cycle.status c ≠ approved →
     ∀ audit_ok,
       List.map Cycle.status
         (Payroll.find_cycle
            (snd (Payroll.post_process audit_ok d tenantId cycleId))
            cycleId tenantId) = [Cycle.status c]).
Proof.
  intros Hfind.
  unfold Payroll.post_submit, Payroll.post_approve, Payroll.post_reject.
  cbn [fst snd].
  rewrite !find_cycle_update by (intros; apply set_status_keeps).
  rewrite Hfind. cbn [List.map Payroll.set_status Cycle.status].
  split; [split; reflexivity|]. split; [split; reflexivity|].
  split; [split; reflexivity|].
  intros Hne audit_ok.
  rewrite (post_process_rejects _ _ _ _ _ _ Hfind Hne). cbn [snd].
  rewrite Hfind. reflexivity.
Qed.

Lemma lifecycle_actions_unguarded_witness :
  let d := Payroll.update_cycle
             (λ c, Payroll.set_status completed (Cycle.approved_by c) c)
             5%N 1%N Examples.april_db in
  List.map Cycle.status (Payroll.find_cycle d 5%N 1%N) = [completed]
  ∧ List.map Cycle.status
      (Payroll.find_cycle (snd (Payroll.post_submit d 1%N 5%N)) 5%N 1%N)
    = [pending_approval]
  ∧ List.map Cycle.status
      (Payroll.find_cycle (snd (Payroll.post_reject d 1%N 5%N)) 5%N 1%N)
    = [draft].
Proof.
  intros d. split; [reflexivity|].
  destruct (lifecycle_actions_unguarded d 2%N 1%N 5%N
              (Payroll.set_status completed (Some 2%N) Examples.april) eq_refl)
    as ((_ & Hs) & _ & (_ & Hr) & _).
  split; [exact Hs | exact Hr].
Defined.

(** *** Uniqueness of the period of a cycle *)










(** ** Masking: the string methods *)

Section StringFacts.
Variables p q : ascii → bool.

Lemma all_chars_remove_not s :
  Masking.all_chars (λ c, negb (p c)) (Masking.remove p s) = true.
Proof.
  induction s as [|c s IH]; [reflexivity|]. simpl.
  destruct (p c) eqn:E; [exact IH|]. simpl. rewrite E. exact IH.
Qed.


Lemma all_chars_drop n s :
  Masking.all_chars q s = true →
  Masking.all_chars q (Masking.drop n s) = true.
Proof.
  revert s. induction n as [|n IH]; intros [|c s]; simpl; auto.
  intros [_ Hs]%andb_true_iff. auto.
Qed.

Lemma remove_all_not s :
  Masking.all_chars (λ c, negb (p c)) s = true → Masking.remove p s = s.
Proof.
  induction s as [|c s IH]; [reflexivity|]. simpl.
  intros [Hc Hs]%andb_true_iff.
  apply negb_true_iff in Hc. rewrite Hc, IH by exact Hs. reflexivity.
Qed.
End StringFacts.

Lemma length_drop n s :
  String.length (Masking.drop n s) = (String.length s - n)%nat.
Proof.
  revert s. induction n as [|n IH]; intros [|c s]; simpl; auto.
Qed.

Lemma length_slice_last k s :
  (k ≤ String.length s)%nat → String.length (Masking.slice_last k s) = k.
Proof. intros H. unfold Masking.slice_last. rewrite length_drop. lia. Qed.

Lemma slice_last_all s : String.length s = 4%nat → Masking.slice_last 4 s = s.
Proof. intros H. unfold Masking.slice_last. rewrite H. reflexivity. Qed.




Lemma length4_inv s :
  String.length s = 4%nat →
  ∃ a b c d, s = String a (String b (String c (String d EmptyString))).
Proof.
  destruct s as [|a [|b [|c [|d [|e s]]]]]; simpl; try discriminate.
  intros _. eauto.
Qed.

(** ** Masking: each field mask applied twice *)

Lemma digits_masked_shape (cleaned : string) :
  (4 ≤ String.length cleaned)%nat →
  Masking.all_chars (λ c, negb (Masking.non_digit c)) cleaned = true →
  ∃ a b c d,
    Masking.slice_last 4 cleaned
    = String a (String b (String c (String d EmptyString)))
    ∧ Masking.remove Masking.non_digit (Masking.slice_last 4 cleaned)
      = Masking.slice_last 4 cleaned.
Proof.
  intros Hlen Hdig.
  destruct (length4_inv _ (length_slice_last 4 cleaned Hlen))
    as (a & b & c & d & Hl4).
  exists a, b, c, d. split; [exact Hl4|].
  apply remove_all_not, all_chars_drop, Hdig.
Qed.





(** ** Masking: the object *)

Lemma get_insert k k' v (o : gmap string Masking.value) :
  Masking.get (<[k := v]> o) k'
  = if bool_decide (k = k') then v else Masking.get o k'.
Proof.
  unfold Masking.get. rewrite lookup_insert.
  case_bool_decide; case_decide; try contradiction; reflexivity.
Qed.

Lemma lookup_null_if_defined k k' (o : gmap string Masking.value) :
  Masking.null_if_defined k o !! k'
  = if bool_decide (k = k')
    then (if Masking.defined (Masking.get o k)
          then Some Masking.VNull else o !! k)
    else o !! k'.
Proof.
  unfold Masking.null_if_defined.
  destruct (Masking.defined (Masking.get o k)).
  - rewrite lookup_insert. case_bool_decide; case_decide;
      try contradiction; reflexivity.
  - case_bool_decide; [subst|]; reflexivity.
Qed.

Lemma get_null_if_defined k k' (o : gmap string Masking.value) :
  k ≠ k' → Masking.get (Masking.null_if_defined k o) k' = Masking.get o k'.
Proof.
  intros Hne. unfold Masking.get. rewrite lookup_null_if_defined.
  rewrite bool_decide_eq_false_2 by exact Hne. reflexivity.
Qed.

Lemma lookup_insert_bd k k' v (o : gmap string Masking.value) :
  <[k := v]> o !! k' = if bool_decide (k = k') then Some v else o !! k'.
Proof.
  rewrite lookup_insert.
  case_bool_decide; case_decide; try contradiction; reflexivity.
Qed.

(** Decide the comparisons of two literal property names by computation. *)
Ltac closed_decides :=
  repeat match goal with
  | |- context [bool_decide ?P] =>
      let v := eval vm_compute in (bool_decide P) in
      lazymatch v with
      | true => change (bool_decide P) with true
      | false => change (bool_decide P) with false
      end
  end; cbv iota.

Lemma masked_copy_lookup (o : gmap string Masking.value) k :
  Masking.masked_copy o false !! k = Spec.masked_field o k.
Proof.
  unfold Masking.masked_copy, Spec.masked_field. cbn [negb].
  rewrite !lookup_null_if_defined.
  rewrite !get_null_if_defined by discriminate.
  rewrite !get_insert. closed_decides. rewrite !lookup_insert_bd.
  destruct (decide (k = "bank_account_number")) as [->|H1];
    [closed_decides; reflexivity|].
  destruct (decide (k = "bank_ifsc")) as [->|H2];
    [closed_decides; reflexivity|].
  destruct (decide (k = "bank_name")) as [->|H3];
    [closed_decides; reflexivity|].
  destruct (decide (k = "pan_number")) as [->|H4];
    [closed_decides; reflexivity|].
  destruct (decide (k = "aadhaar_number")) as [->|H5];
    [closed_decides; reflexivity|].
  destruct (decide (k = "ctc")) as [->|H6];
    [closed_decides; reflexivity|].
  destruct (decide (k = "basic_salary")) as [->|H7];
    [closed_decides; reflexivity|].
  destruct (decide (k = "gross_salary")) as [->|H8];
    [closed_decides; reflexivity|].
  destruct (decide (k = "net_salary")) as [->|H9];
    [closed_decides; reflexivity|].
  repeat match goal with
  | |- context [bool_decide (?a = k)] =>
      rewrite (bool_decide_eq_false_2 (a = k)) by congruence
  | |- context [bool_decide (k = ?a)] =>
      rewrite (bool_decide_eq_false_2 (k = a)) by congruence
  end.
  rewrite bool_decide_eq_false_2 by tauto.
  reflexivity.
Qed.

Lemma get_masked_copy (o : gmap string Masking.value) k :
  Masking.get (Masking.masked_copy o false) k
  = default Masking.VUndefined (Spec.masked_field o k).
Proof. unfold Masking.get. rewrite masked_copy_lookup. reflexivity. Qed.



(** ** Masking: the heap *)

Lemma maskEmployeeData_obj h l o isHR :
  h !! l = Some o →
  Masking.maskEmployeeData h (Masking.RObj l) isHR
  = (Masking.RObj (length h), h ++ [Masking.masked_copy o isHR]).
Proof. intros H. unfold Masking.maskEmployeeData. rewrite H. reflexivity. Qed.







(** ** The payroll role derived from the HR roles *)

Lemma adminSet_names role :
  role ∈ Sso.adminSet ↔ In role ["CEO"; "Admin"; "HR"; "ceo"; "admin"; "hr"].
Proof.
  unfold Sso.adminSet. rewrite elem_of_list_to_set. apply list_elem_of_In.
Qed.

Lemma mapHrToPayrollRole_admin hrRoles :
  Sso.mapHrToPayrollRole hrRoles = "payroll_admin"
  ↔ ∃ role, In role hrRoles
            ∧ In role ["CEO"; "Admin"; "HR"; "ceo"; "admin"; "hr"].
Proof.
  unfold Sso.mapHrToPayrollRole.
  destruct (existsb _ hrRoles) eqn:E.
  - split; [intros _|reflexivity].
    apply List.existsb_exists in E as (role & Hin & Hb).
    apply bool_decide_eq_true, adminSet_names in Hb. eauto.
  - split; [discriminate|]. intros (role & Hin & Hn). exfalso.
    assert (Ht : existsb (λ role, bool_decide (role ∈ Sso.adminSet)) hrRoles
                 = true).
    { apply List.existsb_exists. exists role. split; [exact Hin|].
      apply bool_decide_eq_true, adminSet_names, Hn. }
    congruence.
Qed.

Lemma payrollRole_unasserted p :
  Sso.asserts_role p = false →
  Sso.payrollRole p = Sso.mapHrToPayrollRole (default [] (Sso.roles p)).
Proof.
  unfold Sso.asserts_role, Sso.falsy_str, Sso.payrollRole, Sso.or_str.
  destruct (Sso.payroll_role p) as [r|]; [|reflexivity].
  destruct (bool_decide (r = "")) eqn:E; [reflexivity|].
  rewrite E. discriminate.
Qed.

(** A token the middleware lets through carries the role of its payload. *)
Lemma verifyHrSsoToken_next token secret_configured jwt_verify now hrUser :
  Sso.verifyHrSsoToken token secret_configured jwt_verify now
  = Sso.Next hrUser →
  ∃ p, jwt_verify = Sso.Payload p
       ∧ Sso.HrUser.payrollRole hrUser = Sso.payrollRole p
       ∧ Sso.HrUser.roles hrUser = default [] (Sso.roles p).
Proof.
  unfold Sso.verifyHrSsoToken.
  destruct (bool_decide (token = "")); [discriminate|].
  destruct secret_configured; [|discriminate]. cbn [negb].
  destruct jwt_verify as [| | m|p]; try discriminate.
  destruct (negb (bool_decide (Sso.iss p = Some "hr-app"))); [discriminate|].
  destruct (negb (bool_decide (Sso.aud p = Some "payroll-app")));
    [discriminate|].
  destruct (match Sso.exp p with Some e => _ | None => _ end);
    [discriminate|].
  destruct (_ || _); [discriminate|].
  intros [= <-]. exists p. auto.
Qed.

(** C8, as stated, fails: the role name ADMIN is Admin in another
    capitalization, and a token that asserts only it gets payroll_employee. *)
Lemma verifyHrSsoToken_ADMIN_is_employee :
  let p := Examples.hr_payload ["ADMIN"] in
  Sso.asserts_role p = false
  ∧ existsb Sso.names_admin_ci (default [] (Sso.roles p)) = true
  ∧ Sso.derived_role_ci (default [] (Sso.roles p)) = "payroll_admin"
  ∧ Sso.verifyHrSsoToken "t" true (Sso.Payload p) 1000
    = Sso.Next {| Sso.HrUser.hrUserId := "42"; Sso.HrUser.orgId := "7";
                  Sso.HrUser.email := "u@x.io"; Sso.HrUser.name := " U@x.io";
                  Sso.HrUser.roles := ["ADMIN"];
                  Sso.HrUser.payrollRole := "payroll_employee" |}.
Proof.
  intros p. repeat split; vm_compute; reflexivity.
Qed.

(** C8, amended. When the token asserts no payroll role, the payroll role the
    verification derives is payroll_admin exactly when one of the asserted HR
    role names is one of the six spellings CEO, Admin, HR, ceo, admin, hr,
    and payroll_employee otherwise; a token that gets payroll_admin this way
    names CEO, Admin or HR in some capitalization. *)
Theorem verifyHrSsoToken_exact_names token secret_configured p now hrUser :
  Sso.verifyHrSsoToken token secret_configured (Sso.Payload p) now
  = Sso.Next hrUser →
  Sso.asserts_role p = false →
  (Sso.HrUser.payrollRole hrUser = "payroll_admin"
   ↔ ∃ role, In role (default [] (Sso.roles p))
             ∧ In role ["CEO"; "Admin"; "HR"; "ceo"; "admin"; "hr"])
  ∧ (Sso.HrUser.payrollRole hrUser ≠ "payroll_admin" →
     Sso.HrUser.payrollRole hrUser = "payroll_employee")
  ∧ (Sso.HrUser.payrollRole hrUser = "payroll_admin" →
     Sso.derived_role_ci (default [] (Sso.roles p)) = "payroll_admin").
Proof.
  intros Hnext Hp.
  apply verifyHrSsoToken_next in Hnext as (p' & [= <-] & -> & _).
  rewrite (payrollRole_unasserted p Hp).
  split; [apply mapHrToPayrollRole_admin|]. split.
  - unfold Sso.mapHrToPayrollRole. destruct (existsb _ _); [contradiction|].
    reflexivity.
  - intros (role & Hin & Hn)%mapHrToPayrollRole_admin.
    unfold Sso.derived_role_ci.
    replace (existsb Sso.names_admin_ci (default [] (Sso.roles p))) with true;
      [reflexivity|].
    symmetry. apply List.existsb_exists. exists role. split; [exact Hin|].
    cbn [In] in Hn.
    destruct Hn as [<-|[<-|[<-|[<-|[<-|[<-|[]]]]]]]; vm_compute; reflexivity.
Qed.

Lemma verifyHrSsoToken_exact_names_witness :
  (∃ u, Sso.verifyHrSsoToken "t" true
          (Sso.Payload (Examples.hr_payload ["manager"; "hr"])) 1000
        = Sso.Next u
        ∧ Sso.HrUser.payrollRole u = "payroll_admin")
  ∧ (∃ u, Sso.verifyHrSsoToken "t" true
            (Sso.Payload (Examples.hr_payload ["Ceo"])) 1000
          = Sso.Next u
          ∧ Sso.HrUser.payrollRole u = "payroll_employee").
Proof.
  split; eexists; (split; [vm_compute; reflexivity|]).
  - destruct (verifyHrSsoToken_exact_names "t" true
                (Examples.hr_payload ["manager"; "hr"]) 1000 _ eq_refl eq_refl)
      as [[_ H] _].
    apply H. exists "hr". split; [right; left; reflexivity|].
    do 5 right. left. reflexivity.
  - destruct (verifyHrSsoToken_exact_names "t" true
                (Examples.hr_payload ["Ceo"]) 1000 _ eq_refl eq_refl)
      as (_ & H & _).
    apply H. vm_compute. discriminate.
Defined.

(** * Further properties of the code *)

(** ** maskEmployeeData and maskEmployeeList *)

Lemma masked_copy_HR (o : gmap string Masking.value) :
  Masking.masked_copy o true = o.
Proof. reflexivity. Qed.

Lemma maskEmployeeData_grows h x isHR :
  ∃ ext, snd (Masking.maskEmployeeData h x isHR) = h ++ ext.
Proof.
  unfold Masking.maskEmployeeData. destruct x as [| |l].
  - exists []. symmetry. apply app_nil_r.
  - exists []. symmetry. apply app_nil_r.
  - destruct (h !! l) as [o|]; cbn [snd]; [eauto|].
    exists []. symmetry. apply app_nil_r.
Qed.

Lemma map_mask_correct isHR l :
  ∀ h,
    Forall (λ x, ∀ n, x = Masking.RObj n → is_Some (h !! n)) l →
    ∃ rs h' ext,
      MaskingList.map_mask h l isHR = (rs, h')
      ∧ h' = h ++ ext
      ∧ length rs = length l
      ∧ ∀ i x, l !! i = Some x →
          ∃ r, rs !! i = Some r
               ∧ match x with
                 | Masking.RObj n =>
                     ∃ o, h !! n = Some o
                          ∧ Masking.deref h' r
                            = Some (Masking.masked_copy o isHR)
                          ∧ r ≠ x
                 | _ => r = x
                 end.
Proof.
  induction l as [|x l IH]; intros h Hvalid.
  - exists [], h, []. cbn. rewrite app_nil_r. repeat split; try reflexivity.
    intros i x Hx. discriminate.
  - apply Forall_cons in Hvalid as [Hx Hl].
    cbn [MaskingList.map_mask].
    destruct (Masking.maskEmployeeData h x isHR) as [r h1] eqn:E1.
    destruct (maskEmployeeData_grows h x isHR) as [ext1 Hext1].
    rewrite E1 in Hext1. cbn [snd] in Hext1. subst h1.
    destruct (IH (h ++ ext1)) as (rs & h' & ext & E2 & Hh' & Hlen & Hrs).
    { eapply Forall_impl; [exact Hl|]. intros y Hy n Hn.
      destruct (Hy n Hn) as [o Ho]. exists o. apply lookup_app_l_Some, Ho. }
    rewrite E2. exists (r :: rs), h', (ext1 ++ ext).
    split; [reflexivity|]. split; [rewrite Hh', app_assoc; reflexivity|].
    split; [cbn; f_equal; exact Hlen|].
    intros [|i] y Hy.
    + cbn in Hy. injection Hy as <-. exists r. split; [reflexivity|].
      destruct x as [| |n].
      * cbn in E1. injection E1 as <- _. reflexivity.
      * cbn in E1. injection E1 as <- _. reflexivity.
      * destruct (Hx n eq_refl) as [o Ho].
        rewrite (maskEmployeeData_obj h n o isHR Ho) in E1.
        injection E1 as <- Hext. exists o. split; [exact Ho|]. split.
        -- cbn [Masking.deref]. subst h'. rewrite <- Hext, <- app_assoc.
           apply list_lookup_middle. reflexivity.
        -- intros [= Heq]. apply lookup_lt_Some in Ho. lia.
    + cbn in Hy. destruct (Hrs i y Hy) as (r' & Hr' & Hy').
      exists r'. split; [exact Hr'|].
      destruct y as [| |n]; try exact Hy'.
      destruct Hy' as (o & Ho & Hd & Hne).
      apply Forall_lookup_1 with (i := i) (x := Masking.RObj n) in Hl;
        [|exact Hy].
      destruct (Hl n eq_refl) as [o' Ho'].
      rewrite (lookup_app_l_Some _ _ _ _ Ho') in Ho. injection Ho as <-.
      exists o'. auto.
Qed.

(** X1. maskEmployeeList returns an array of the same length whose i-th
    entry is a new object holding the masked copy of the i-th employee (an
    equal copy for HR), or the i-th entry itself when that is null or
    undefined; no object that was on the heap is changed, and a non-array
    argument comes back as it is. *)
Theorem maskEmployeeList_elementwise h l isHR :
  Forall (λ x, ∀ n, x = Masking.RObj n → is_Some (h !! n)) l →
  ∃ rs h',
    MaskingList.maskEmployeeList h (MaskingList.Array l) isHR
    = (MaskingList.Array rs, h')
    ∧ length rs = length l
    ∧ (∀ n o, h !! n = Some o → h' !! n = Some o)
    ∧ (∀ i x, l !! i = Some x →
         ∃ r, rs !! i = Some r
              ∧ match x with
                | Masking.RObj n =>
                    ∃ o, h !! n = Some o
                         ∧ Masking.deref h' r
                           = Some (Masking.masked_copy o isHR)
                         ∧ (isHR = true → Masking.deref h' r = Some o)
                         ∧ r ≠ x
                | _ => r = x
                end)
    ∧ ∀ v, MaskingList.maskEmployeeList h (MaskingList.NotArray v) isHR
           = (MaskingList.NotArray v, h).
Proof.
  intros Hvalid.
  destruct (map_mask_correct isHR l h Hvalid)
    as (rs & h' & ext & E & Hh' & Hlen & Hrs).
  exists rs, h'. cbn [MaskingList.maskEmployeeList]. rewrite E.
  split; [reflexivity|]. split; [exact Hlen|]. split.
  { intros n o Ho. subst h'. apply lookup_app_l_Some, Ho. }
  split; [|reflexivity].
  intros i x Hx. destruct (Hrs i x Hx) as (r & Hr & Hx').
  exists r. split; [exact Hr|]. destruct x as [| |n]; try exact Hx'.
  destruct Hx' as (o & Ho & Hd & Hne). exists o.
  split; [exact Ho|]. split; [exact Hd|]. split; [|exact Hne].
  intros ->. exact Hd.
Qed.

Lemma maskEmployeeList_elementwise_witness :
  ∃ r0 r1 h',
    MaskingList.maskEmployeeList Examples.records
      (MaskingList.Array [Masking.RObj 1; Masking.RNull]) false
    = (MaskingList.Array [r0; r1], h')
    ∧ r1 = Masking.RNull
    ∧ h' !! 1%nat = Some Examples.full_record
    ∧ Masking.deref h' r0 = Some (Masking.masked_copy Examples.full_record false).
Proof.
  destruct (maskEmployeeList_elementwise Examples.records
              [Masking.RObj 1; Masking.RNull] false)
    as (rs & h' & E & Hlen & Hkeep & Hrs & _).
  { repeat constructor; intros n [= <-]; eexists; reflexivity. }
  destruct rs as [|r0 [|r1 [|]]]; try discriminate.
  exists r0, r1, h'. split; [exact E|].
  destruct (Hrs 0%nat _ eq_refl) as (r & [= <-] & o & Ho & Hd & _).
  destruct (Hrs 1%nat _ eq_refl) as (r' & [= <-] & Hr').
  injection Ho as <-.
  split; [exact Hr'|]. split; [apply Hkeep; reflexivity | exact Hd].
Defined.

(** X2. In the record maskEmployeeData builds for a caller who is not HR,
    ctc, basic_salary, gross_salary and net_salary are null when the employee
    has them and stay undefined when not; bank_ifsc is 'XXXX' or null,
    bank_name '****' or null; and a property other than these and the three
    masked numbers is what it is in the employee. *)
Theorem masked_record_hides h l o k :
  h !! l = Some o →
  ∃ m,
    Masking.deref (snd (Masking.maskEmployeeData h (Masking.RObj l) false))
      (fst (Masking.maskEmployeeData h (Masking.RObj l) false)) = Some m
    ∧ (k = "ctc" ∨ k = "basic_salary" ∨ k = "gross_salary"
       ∨ k = "net_salary" →
       Masking.get m k
       = if Masking.defined (Masking.get o k)
         then Masking.VNull else Masking.VUndefined)
    ∧ (Masking.get m "bank_ifsc" = Masking.VStr "XXXX"
       ∨ Masking.get m "bank_ifsc" = Masking.VNull)
    ∧ (Masking.get m "bank_name" = Masking.VStr "****"
       ∨ Masking.get m "bank_name" = Masking.VNull)
    ∧ (k ∉ ["bank_account_number"; "bank_ifsc"; "bank_name"; "pan_number";
            "aadhaar_number"; "ctc"; "basic_salary"; "gross_salary";
            "net_salary"] →
       m !! k = o !! k).
Proof.
  intros Ho. exists (Masking.masked_copy o false).
  rewrite (maskEmployeeData_obj h l o false Ho). cbn [fst snd Masking.deref].
  split; [apply list_lookup_middle; reflexivity|].
  split; [|split; [|split]].
  - intros Hk. rewrite get_masked_copy. unfold Spec.masked_field.
    assert (Hsal : bool_decide (k = "ctc" ∨ k = "basic_salary"
                     ∨ k = "gross_salary" ∨ k = "net_salary") = true)
      by (apply bool_decide_eq_true; exact Hk).
    destruct Hk as [->|[->|[-> | ->]]]; closed_decides;
      (destruct (Masking.defined (Masking.get o _)) eqn:Ed; [reflexivity|]);
      unfold Masking.get in *; destruct (o !! _) as [[]|]; cbn in *;
      congruence.
  - rewrite get_masked_copy. unfold Spec.masked_field. closed_decides.
    cbn. destruct (Masking.truthy _); auto.
  - rewrite get_masked_copy. unfold Spec.masked_field. closed_decides.
    cbn. destruct (Masking.truthy _); auto.
  - intros Hk. rewrite masked_copy_lookup. unfold Spec.masked_field.
    repeat rewrite bool_decide_eq_false_2; [reflexivity|..];
      intros H; apply Hk; clear Hk;
      repeat (first [ destruct H as [->|H] | subst k ]);
      repeat constructor.
Qed.

Lemma masked_record_hides_witness :
  ∃ m,
    Masking.deref
      (snd (Masking.maskEmployeeData Examples.records (Masking.RObj 1) false))
      (fst (Masking.maskEmployeeData Examples.records (Masking.RObj 1) false))
    = Some m
    ∧ Masking.get m "ctc" = Masking.VNull
    ∧ Masking.get m "net_salary" = Masking.VUndefined.
Proof.
  destruct (masked_record_hides Examples.records 1 Examples.full_record "ctc"
              eq_refl) as (m & Hm & Hctc & _).
  destruct (masked_record_hides Examples.records 1 Examples.full_record
              "net_salary" eq_refl) as (m' & Hm' & Hnet & _).
  rewrite Hm in Hm'. injection Hm' as <-.
  exists m. split; [exact Hm|]. split.
  - rewrite Hctc by auto. reflexivity.
  - rewrite Hnet by auto. reflexivity.
Defined.

(** X3. Masking for a caller who is not HR drops no property: the masked
    record has the properties of the employee and, whether the employee has
    them or not, the five properties bank_account_number, bank_ifsc,
    bank_name, pan_number and aadhaar_number. *)
Theorem masked_record_properties (o : gmap string Masking.value) :
  dom (Masking.masked_copy o false)
  = dom o ∪ {[ "bank_account_number"; "bank_ifsc"; "bank_name";
               "pan_number"; "aadhaar_number" ]}.
Proof.
  apply set_eq. intros k.
  rewrite elem_of_union, !elem_of_dom, masked_copy_lookup.
  unfold Spec.masked_field.
  destruct (decide (k = "bank_account_number")) as [->|H1];
    [closed_decides; split; [intros _; right; set_solver | eauto]|].
  destruct (decide (k = "bank_ifsc")) as [->|H2];
    [closed_decides; split; [intros _; right; set_solver | eauto]|].
  destruct (decide (k = "bank_name")) as [->|H3];
    [closed_decides; split; [intros _; right; set_solver | eauto]|].
  destruct (decide (k = "pan_number")) as [->|H4];
    [closed_decides; split; [intros _; right; set_solver | eauto]|].
  destruct (decide (k = "aadhaar_number")) as [->|H5];
    [closed_decides; split; [intros _; right; set_solver | eauto]|].
  rewrite !bool_decide_eq_false_2 by assumption.
  assert (Hout : k ∉ ({[ "bank_account_number"; "bank_ifsc"; "bank_name";
                         "pan_number"; "aadhaar_number" ]} : gset string))
    by (rewrite !elem_of_union, !elem_of_singleton; tauto).
  destruct (bool_decide _).
  - destruct (Masking.defined (Masking.get o k)) eqn:Ed.
    + unfold Masking.get in Ed. destruct (o !! k) as [v|] eqn:Ek;
        [|discriminate].
      split; [eauto | intros _; eauto].
    + split; [auto | intros [?|?]; [assumption | contradiction]].
  - split; [auto | intros [?|?]; [assumption | contradiction]].
Qed.

(** ** What the masks of numbers show *)

Lemma remove_digits_masked prefix cleaned :
  Masking.all_chars Masking.non_digit prefix = true →
  (4 ≤ String.length cleaned)%nat →
  Masking.all_chars (λ c, negb (Masking.non_digit c)) cleaned = true →
  Masking.remove Masking.non_digit (prefix +:+ Masking.slice_last 4 cleaned)
  = Masking.slice_last 4 cleaned.
Proof.
  intros Hp Hlen Hdig.
  destruct (digits_masked_shape cleaned Hlen Hdig) as (a & b & c & d & _ & Hr).
  induction prefix as [|x p IH]; [exact Hr|].
  cbn in Hp. apply andb_true_iff in Hp as [Hx Hp].
  change (String x p +:+ Masking.slice_last 4 cleaned)
    with (String x (p +:+ Masking.slice_last 4 cleaned)).
  cbn [Masking.remove]. rewrite Hx. apply IH, Hp.
Qed.

(** X4. The masks of the bank account and of the Aadhaar number show digits
    of the number only as its last four: for a non-empty string, the digits
    of the masked value are the last four digits of the string when it has
    at least four, and none when it has fewer. *)
Theorem masks_show_last_four_digits s :
  s ≠ "" →
  let digits := Masking.remove Masking.non_digit s in
  let shown :=
    if (String.length digits <? 4)%nat then ""
    else Masking.slice_last 4 digits in
  (∃ out, Masking.maskBankAccount (Masking.VStr s) = Masking.VStr out
          ∧ Masking.remove Masking.non_digit out = shown)
  ∧ (∃ out, Masking.maskAadhaar (Masking.VStr s) = Masking.VStr out
            ∧ Masking.remove Masking.non_digit out = shown)
  ∧ (String.length shown ≤ 4)%nat.
Proof.
  intros Hs digits shown. subst shown.
  unfold Masking.maskBankAccount, Masking.maskAadhaar.
  rewrite (bool_decide_eq_false_2 _ Hs). fold digits.
  destruct (String.length digits <? 4)%nat eqn:E.
  - split; [eexists; split; reflexivity|].
    split; [eexists; split; reflexivity|]. cbn. lia.
  - apply Nat.ltb_ge in E.
    assert (Hdig : Masking.all_chars (λ c, negb (Masking.non_digit c)) digits
                   = true) by apply all_chars_remove_not.
    split; [|split].
    + eexists. split; [reflexivity|].
      apply remove_digits_masked; [reflexivity | exact E | exact Hdig].
    + eexists. split; [reflexivity|].
      apply remove_digits_masked; [reflexivity | exact E | exact Hdig].
    + rewrite length_slice_last by exact E. lia.
Qed.

Lemma masks_show_last_four_digits_witness :
  Masking.maskBankAccount (Masking.VStr "12-3456789")
  = Masking.VStr "...-XX-6789"
  ∧ ∃ out, Masking.maskAadhaar (Masking.VStr "1234 5678 9012")
           = Masking.VStr out
           ∧ Masking.remove Masking.non_digit out = "9012".
Proof.
  split; [reflexivity|].
  destruct (masks_show_last_four_digits "1234 5678 9012")
    as (_ & (out & Hout & Hd) & _); [discriminate|].
  exists out. split; [exact Hout | exact Hd].
Defined.

(** ** Strings: reversal, trimming, lower case *)

Lemma str_app_cons a s1 s2 : String a s1 +:+ s2 = String a (s1 +:+ s2).
Proof. reflexivity. Qed.

Lemma str_app_nil_r s : s +:+ "" = s.
Proof.
  induction s as [|a s IH]; [reflexivity|]. rewrite str_app_cons, IH.
  reflexivity.
Qed.

Lemma str_app_assoc s1 s2 s3 : (s1 +:+ s2) +:+ s3 = s1 +:+ (s2 +:+ s3).
Proof.
  induction s1 as [|a s1 IH]; [reflexivity|].
  rewrite !str_app_cons, IH. reflexivity.
Qed.

Lemma rev_app_spec s1 s2 : String.rev_app s1 s2 = String.rev s1 +:+ s2.
Proof.
  unfold String.rev. revert s2.
  induction s1 as [|a s1 IH]; intros s2; [reflexivity|].
  cbn [String.rev_app]. rewrite (IH (String a s2)), (IH (String a "")).
  rewrite str_app_assoc. reflexivity.
Qed.

Lemma rev_cons a s : String.rev (String a s) = String.rev s +:+ String a "".
Proof. unfold String.rev at 1. cbn [String.rev_app]. apply rev_app_spec. Qed.

Lemma rev_app_distr s1 s2 :
  String.rev (s1 +:+ s2) = String.rev s2 +:+ String.rev s1.
Proof.
  induction s1 as [|a s1 IH].
  - symmetry. apply str_app_nil_r.
  - rewrite str_app_cons, !rev_cons, IH, str_app_assoc. reflexivity.
Qed.

Lemma rev_involutive s : String.rev (String.rev s) = s.
Proof.
  induction s as [|a s IH]; [reflexivity|].
  rewrite rev_cons, rev_app_distr, IH. reflexivity.
Qed.

Lemma skip_ws_head s c s' :
  Js.skip_ws s = String c s' → Ascii.is_space c = false.
Proof.
  induction s as [|a s IH]; [discriminate|]. cbn [Js.skip_ws].
  destruct (Ascii.is_space a) eqn:E; [exact IH|]. intros [= <- _]. exact E.
Qed.

Lemma skip_ws_fixed c s :
  Ascii.is_space c = false → Js.skip_ws (String c s) = String c s.
Proof. intros E. cbn [Js.skip_ws]. rewrite E. reflexivity. Qed.

Lemma skip_ws_snoc x c :
  Ascii.is_space c = false →
  ∃ y, Js.skip_ws (x +:+ String c "") = y +:+ String c "".
Proof.
  intros E. induction x as [|a x IH].
  - exists "". cbn [Js.skip_ws String.append]. apply skip_ws_fixed, E.
  - rewrite str_app_cons. cbn [Js.skip_ws].
    destruct (Ascii.is_space a); [exact IH|].
    exists (String a x). reflexivity.
Qed.

Lemma trim_starts s : Js.skip_ws (Sso.trim s) = Sso.trim s.
Proof.
  unfold Sso.trim. destruct (Js.skip_ws s) as [|c a] eqn:Ea; [reflexivity|].
  pose proof (skip_ws_head _ _ _ Ea) as Hc.
  rewrite rev_cons. destruct (skip_ws_snoc (String.rev a) c Hc) as [y ->].
  rewrite rev_app_distr. change (String.rev (String c "")) with (String c "").
  rewrite str_app_cons. apply skip_ws_fixed, Hc.
Qed.

Lemma skip_ws_idem s : Js.skip_ws (Js.skip_ws s) = Js.skip_ws s.
Proof.
  induction s as [|a s IH]; [reflexivity|]. cbn [Js.skip_ws].
  destruct (Ascii.is_space a) eqn:E; [exact IH|]. apply skip_ws_fixed, E.
Qed.

Lemma trim_ends s : Js.skip_ws (String.rev (Sso.trim s)) = String.rev (Sso.trim s).
Proof. unfold Sso.trim. rewrite rev_involutive. apply skip_ws_idem. Qed.

Lemma trim_idem s : Sso.trim (Sso.trim s) = Sso.trim s.
Proof.
  unfold Sso.trim at 1. rewrite trim_starts, trim_ends. apply rev_involutive.
Qed.

Lemma lower_char_idem c : Sso.lower_char (Sso.lower_char c) = Sso.lower_char c.
Proof. destruct c as [[] [] [] [] [] [] [] []]; reflexivity. Qed.

Lemma is_space_lower_char c :
  Ascii.is_space (Sso.lower_char c) = Ascii.is_space c.
Proof. destruct c as [[] [] [] [] [] [] [] []]; reflexivity. Qed.

Lemma toLowerCase_idem s : Sso.toLowerCase (Sso.toLowerCase s) = Sso.toLowerCase s.
Proof.
  induction s as [|a s IH]; [reflexivity|]. cbn [Sso.toLowerCase].
  rewrite lower_char_idem, IH. reflexivity.
Qed.

Lemma toLowerCase_app s1 s2 :
  Sso.toLowerCase (s1 +:+ s2) = Sso.toLowerCase s1 +:+ Sso.toLowerCase s2.
Proof.
  induction s1 as [|a s1 IH]; [reflexivity|].
  rewrite str_app_cons. cbn [Sso.toLowerCase]. rewrite IH. reflexivity.
Qed.

Lemma toLowerCase_rev s :
  Sso.toLowerCase (String.rev s) = String.rev (Sso.toLowerCase s).
Proof.
  induction s as [|a s IH]; [reflexivity|]. cbn [Sso.toLowerCase].
  rewrite !rev_cons, toLowerCase_app, IH. reflexivity.
Qed.

Lemma toLowerCase_skip_ws s :
  Sso.toLowerCase (Js.skip_ws s) = Js.skip_ws (Sso.toLowerCase s).
Proof.
  induction s as [|a s IH]; [reflexivity|].
  cbn [Js.skip_ws Sso.toLowerCase]. rewrite is_space_lower_char.
  destruct (Ascii.is_space a); [exact IH | reflexivity].
Qed.

Lemma toLowerCase_trim s :
  Sso.toLowerCase (Sso.trim s) = Sso.trim (Sso.toLowerCase s).
Proof.
  unfold Sso.trim.
  rewrite toLowerCase_rev, toLowerCase_skip_ws, toLowerCase_rev,
    toLowerCase_skip_ws. reflexivity.
Qed.

(** Lower-casing and trimming, in either order, reach a string that both
    leave alone. *)
Lemma normalized_fixed s :
  Sso.trim (Sso.toLowerCase (Sso.trim (Sso.toLowerCase s)))
  = Sso.trim (Sso.toLowerCase s).
Proof.
  rewrite toLowerCase_trim, toLowerCase_idem. apply trim_idem.
Qed.

(** ** verifyHrSsoToken: what a token that is let through has passed *)

Lemma falsy_str_false a :
  Sso.falsy_str a = false → ∃ s, a = Some s ∧ s ≠ "" ∧ default "" a = s.
Proof.
  unfold Sso.falsy_str, Sso.or_str. destruct a as [s|].
  - destruct (decide (s = "")) as [->|Hs].
    + intros H. exfalso. revert H. vm_compute. discriminate.
    + intros _. exists s. auto.
  - intros H. exfalso. revert H. vm_compute. discriminate.
Qed.

(** X5. verifyHrSsoToken calls [next] only for a request that carries a
    token, with a secret configured, whose verified payload has issuer
    hr-app and audience payroll-app, an expiry that is absent, zero or not
    before the clock, and non-empty sub, org_id and email claims; the user it
    attaches has these sub and org_id, and the email in lower case without
    surrounding space, which lower-casing and trimming again leave as it
    is. *)
Theorem verifyHrSsoToken_checks token secret_configured jwt_verify now hrUser :
  Sso.verifyHrSsoToken token secret_configured jwt_verify now
  = Sso.Next hrUser →
  token ≠ "" ∧ secret_configured = true
  ∧ ∃ p, jwt_verify = Sso.Payload p
      ∧ Sso.iss p = Some "hr-app" ∧ Sso.aud p = Some "payroll-app"
      ∧ (∀ e, Sso.exp p = Some e → e = 0 ∨ now ≤ e)
      ∧ Sso.sub p = Some (Sso.HrUser.hrUserId hrUser)
      ∧ Sso.HrUser.hrUserId hrUser ≠ ""
      ∧ Sso.org_id p = Some (Sso.HrUser.orgId hrUser)
      ∧ Sso.HrUser.orgId hrUser ≠ ""
      ∧ (∃ e, Sso.email p = Some e ∧ e ≠ ""
              ∧ Sso.HrUser.email hrUser = Sso.trim (Sso.toLowerCase e))
      ∧ Sso.trim (Sso.toLowerCase (Sso.HrUser.email hrUser))
        = Sso.HrUser.email hrUser.
Proof.
  unfold Sso.verifyHrSsoToken.
  case_bool_decide as Ht; [discriminate|].
  destruct secret_configured; [|discriminate]. cbn [negb].
  destruct jwt_verify as [| | m|p]; try discriminate.
  case_bool_decide as Hi; [|discriminate]. cbn [negb].
  case_bool_decide as Ha; [|discriminate]. cbn [negb].
  destruct (match Sso.exp p with Some e => _ | None => _ end) eqn:He;
    [discriminate|].
  destruct (Sso.falsy_str (Sso.sub p)) eqn:Hs; [discriminate|].
  destruct (Sso.falsy_str (Sso.org_id p)) eqn:Ho; [discriminate|].
  destruct (Sso.falsy_str (Sso.email p)) eqn:Hm; [discriminate|].
  cbn [orb]. intros [= <-]. cbn [Sso.HrUser.hrUserId Sso.HrUser.orgId
    Sso.HrUser.email].
  destruct (falsy_str_false _ Hs) as (s & Es & Ns & ->).
  destruct (falsy_str_false _ Ho) as (o & Eo & No & ->).
  destruct (falsy_str_false _ Hm) as (m & Em & Nm & ->).
  split; [exact Ht|]. split; [reflexivity|]. exists p.
  repeat (split; [first [reflexivity | assumption]|]).
  split.
  { intros e Ee. rewrite Ee in He.
    destruct (Z.eqb_spec e 0) as [E0|_]; [left; exact E0|].
    right. cbn [negb andb] in He. lia. }
  repeat (split; [first [reflexivity | assumption]|]).
  split; [exists m; auto|]. apply normalized_fixed.
Qed.

Lemma verifyHrSsoToken_checks_witness :
  ∃ u, Sso.verifyHrSsoToken "t" true
         (Sso.Payload (Examples.hr_payload ["hr"])) 1000 = Sso.Next u
       ∧ Sso.HrUser.email u = "u@x.io"
       ∧ Sso.trim (Sso.toLowerCase (Sso.HrUser.email u)) = Sso.HrUser.email u.
Proof.
  eexists. split; [vm_compute; reflexivity|]. split; [reflexivity|].
  destruct (verifyHrSsoToken_checks "t" true
              (Sso.Payload (Examples.hr_payload ["hr"])) 1000 _ eq_refl)
    as (_ & _ & p & _ & _ & _ & _ & _ & _ & _ & _ & _ & H).
  exact H.
Defined.

(** ** split and join *)

Lemma split_on_cons sep s : ∃ w ws, Str.split_on sep s = w :: ws.
Proof.
  destruct s as [|c s]; [by exists "", []|]. cbn [Str.split_on].
  case_bool_decide; [by eexists _, _|].
  destruct (Str.split_on sep s); by eexists _, _.
Qed.

Lemma join_cons sep w ws :
  Str.join sep (w :: ws)
  = match ws with [] => w | _ :: _ => w +:+ sep +:+ Str.join sep ws end.
Proof. destruct ws; reflexivity. Qed.

(** Joining what [split] gives, with the separator, gives the string back. *)
Lemma join_split_on sep s :
  Str.join (String sep "") (Str.split_on sep s) = s.
Proof.
  induction s as [|c s IH]; [reflexivity|]. cbn [Str.split_on].
  destruct (split_on_cons sep s) as (w & ws & E). rewrite E in IH |- *.
  case_bool_decide as Hc.
  - subst c. rewrite join_cons, IH. reflexivity.
  - rewrite join_cons in IH |- *. destruct ws as [|w' ws'].
    + by subst w.
    + rewrite str_app_cons. by f_equal.
Qed.

Lemma split_on_no_sep sep s :
  Str.includes sep s = false → Str.split_on sep s = [s].
Proof.
  induction s as [|c s IH]; [reflexivity|]. cbn [Str.includes Str.split_on].
  case_bool_decide as Hc; [discriminate|]. cbn [orb]. intros H.
  rewrite (IH H). reflexivity.
Qed.

Lemma split_on_app_sep sep x r :
  Str.includes sep x = false →
  Str.split_on sep (x +:+ String sep r) = x :: Str.split_on sep r.
Proof.
  induction x as [|c x IH].
  - intros _. change ("" +:+ String sep r) with (String sep r).
    cbn [Str.split_on]. by rewrite bool_decide_eq_true_2.
  - cbn [Str.includes]. rewrite str_app_cons. cbn [Str.split_on].
    case_bool_decide as Hc; [discriminate|]. cbn [orb]. intros H.
    rewrite (IH H). reflexivity.
Qed.

(** Splitting what [join] gives, when no part holds the separator, gives the
    parts back. *)
Lemma split_on_join sep parts :
  parts ≠ [] → Forall (λ p, Str.includes sep p = false) parts →
  Str.split_on sep (Str.join (String sep "") parts) = parts.
Proof.
  intros Hne HF. induction HF as [|x l Hx HF IH]; [done|].
  rewrite join_cons. destruct l as [|y l].
  - by apply split_on_no_sep.
  - change (x +:+ String sep "" +:+ Str.join (String sep "") (y :: l))
      with (x +:+ (String sep "" +:+ Str.join (String sep "") (y :: l))).
    change (String sep "" +:+ ?r) with (String sep r).
    rewrite split_on_app_sep by done. by rewrite IH.
Qed.

Lemma split_on_parts sep s p :
  p ∈ Str.split_on sep s → Str.includes sep p = false.
Proof.
  revert p. induction s as [|c s IH]; intros p.
  - cbn [Str.split_on]. rewrite list_elem_of_singleton. by intros ->.
  - cbn [Str.split_on]. destruct (split_on_cons sep s) as (w & ws & E).
    rewrite E in IH |- *. case_bool_decide as Hc.
    + rewrite elem_of_cons. intros [->|H]; [done|]. by apply IH.
    + rewrite elem_of_cons. intros [->|H].
      * cbn [Str.includes]. rewrite bool_decide_eq_false_2 by done.
        apply IH. by left.
      * apply IH. by right.
Qed.

(** ** requireRole and requireSuperadmin *)

Lemma includes_elem_of l x : Auth.includes l x = true ↔ x ∈ l.
Proof.
  unfold Auth.includes. rewrite existsb_exists. split.
  - intros (e & Hin & He). apply bool_decide_eq_true_1 in He. subst e.
    by apply list_elem_of_In.
  - intros H. exists x. split; [by apply list_elem_of_In|].
    by apply bool_decide_eq_true_2.
Qed.

Lemma toLowerCase_empty s : Sso.toLowerCase s = "" ↔ s = "".
Proof. destruct s; [done|]. split; discriminate. Qed.

Lemma adminEmails_elem_of env x :
  x ∈ Auth.adminEmails env ↔
  x ≠ "" ∧ ∃ a, a ∈ Str.split_on "," (Sso.or_str env "")
                ∧ x = Sso.toLowerCase (Sso.trim a).
Proof.
  unfold Auth.adminEmails.
  rewrite list_elem_of_In, filter_In, negb_true_iff, bool_decide_eq_false,
    in_map_iff.
  split.
  - intros [(a & <- & Ha) Hx]. split; [done|]. exists a.
    by rewrite list_elem_of_In.
  - intros [Hx (a & Ha & ->)]. split; [|done]. exists a.
    by rewrite <- list_elem_of_In.
Qed.

Lemma or_str_empty a :
  Sso.or_str a "" = "" ∨ (a = Some (Sso.or_str a "") ∧ Sso.or_str a "" ≠ "").
Proof.
  unfold Sso.or_str. destruct a as [s|]; [|by left].
  case_bool_decide; [by left | by right].
Qed.

Lemma or_str_Some s : Sso.or_str (Some s) "" = s.
Proof. unfold Sso.or_str. by case_bool_decide. Qed.

(** X6. With ADMIN_EMAILS set to entries joined by commas, requireSuperadmin
    lets a request through exactly when its user has a non-empty email that
    equals, up to case, one of the entries without its surrounding space. *)
Theorem requireSuperadmin_allowlist (req_user : option Auth.user)
    (entries : list string) :
  entries ≠ [] → Forall (λ e, Str.includes "," e = false) entries →
  Auth.requireSuperadmin req_user (Some (Str.join "," entries))
  = Auth.Next None
  ↔ ∃ e, req_user ≫= Auth.email = Some e ∧ e ≠ ""
         ∧ ∃ a, a ∈ entries
                ∧ Sso.toLowerCase (Sso.trim a) = Sso.toLowerCase e.
Proof.
  intros Hne HF. unfold Auth.requireSuperadmin.
  set (E := Sso.or_str (req_user ≫= Auth.email) "").
  assert (Hsplit : ∀ x, x ∈ Auth.adminEmails (Some (Str.join "," entries))
            ↔ x ≠ "" ∧ ∃ a, a ∈ entries ∧ x = Sso.toLowerCase (Sso.trim a)).
  { intros x. rewrite adminEmails_elem_of, or_str_Some.
    by rewrite (split_on_join ","%char entries Hne HF). }
  split.
  - destruct (negb _ && _) eqn:Hb; [intros _|discriminate].
    apply andb_true_iff in Hb as [H1 H2].
    apply negb_true_iff, bool_decide_eq_false in H1.
    apply includes_elem_of, Hsplit in H2 as [_ (a & Ha & Ea)].
    destruct (or_str_empty (req_user ≫= Auth.email)) as [H0|[H0 H0']].
    + exfalso. apply H1. fold E in H0. by rewrite H0.
    + exists E. split; [exact H0|]. split; [exact H0'|]. by exists a.
  - intros (e & He & Ne & a & Ha & Ea).
    assert (E = e) as -> by (subst E; rewrite He; apply or_str_Some).
    assert (Sso.toLowerCase e ≠ "") as Hl by (by rewrite toLowerCase_empty).
    rewrite (bool_decide_eq_false_2 _ Hl). cbn [negb andb].
    assert (Auth.includes (Auth.adminEmails (Some (Str.join "," entries)))
              (Sso.toLowerCase e) = true) as ->; [|done].
    apply includes_elem_of, Hsplit. split; [done|]. by exists a.
Qed.

Lemma requireSuperadmin_allowlist_witness :
  Auth.requireSuperadmin
    (Some {| Auth.id := 1%N; Auth.email := Some "Root@X.io" |})
    (Some "ops@x.io, root@x.IO ") = Auth.Next None.
Proof.
  apply (requireSuperadmin_allowlist _ ["ops@x.io"; " root@x.IO "]).
  - discriminate.
  - repeat constructor.
  - exists "Root@X.io". split; [reflexivity|]. split; [discriminate|].
    exists " root@x.IO ". split; [|reflexivity].
    apply list_elem_of_In. right. left. reflexivity.
Defined.

(** X7. What requireRole grants: it calls [next] without a role only for a
    user whose lower-cased email is on the ADMIN_EMAILS allowlist, and with
    a role only when that role is a non-empty role of a user_roles row of
    this user which equals one of the allowed roles up to case; an
    unauthenticated request gets 401. *)
Theorem requireRole_grants allowedRoles req_user ADMIN_EMAILS user_roles o :
  Auth.requireRole allowedRoles req_user ADMIN_EMAILS user_roles = Auth.Next o →
  ∃ u, req_user = Some u
    ∧ match o with
      | None =>
          Sso.toLowerCase (Sso.or_str (Auth.email u) "")
          ∈ Auth.adminEmails ADMIN_EMAILS
      | Some r =>
          r ≠ ""
          ∧ (∃ row, row ∈ user_roles
                    ∧ Auth.UserRole.user_id row = Auth.id u
                    ∧ Auth.UserRole.role row = r)
          ∧ ∃ a, a ∈ allowedRoles
                 ∧ Sso.toLowerCase a = Sso.toLowerCase r
      end.
Proof.
  unfold Auth.requireRole. destruct req_user as [u|]; [|discriminate].
  intros H. exists u. split; [reflexivity|]. revert H.
  destruct (Auth.includes _ _) eqn:Hal.
  { intros [= <-]. by apply includes_elem_of. }
  destruct (List.filter _ user_roles) as [|row rows] eqn:Hf; [discriminate|].
  cbn [take]. case_bool_decide as Hr; [discriminate|]. cbn [orb].
  destruct (Auth.includes (List.map _ _) _) eqn:Hin; cbn [negb];
    [|discriminate].
  intros [= <-]. split; [exact Hr|]. split.
  - exists row. assert (In row (List.filter
      (λ r, bool_decide (Auth.UserRole.user_id r = Auth.id u)) user_roles))
      as Hrow by (rewrite Hf; by left).
    apply filter_In in Hrow as [Hrow Hid].
    apply bool_decide_eq_true_1 in Hid. by rewrite list_elem_of_In.
  - apply includes_elem_of, list_elem_of_In, in_map_iff in Hin
      as (a & Ea & Ha).
    exists a. by rewrite list_elem_of_In.
Qed.

Lemma requireRole_grants_witness :
  ∃ u, Some {| Auth.id := 5%N; Auth.email := Some "a@x.io" |} = Some u
    ∧ "HR" ≠ ""
    ∧ (∃ row, row ∈ [{| Auth.UserRole.user_id := 5%N;
                        Auth.UserRole.role := "HR" |}]
              ∧ Auth.UserRole.user_id row = Auth.id u
              ∧ Auth.UserRole.role row = "HR")
    ∧ ∃ a, a ∈ ["hr"; "admin"]
           ∧ Sso.toLowerCase a = Sso.toLowerCase "HR".
Proof.
  exact (requireRole_grants ["hr"; "admin"]
           (Some {| Auth.id := 5%N; Auth.email := Some "a@x.io" |}) None
           [{| Auth.UserRole.user_id := 5%N; Auth.UserRole.role := "HR" |}]
           (Some "HR") eq_refl).
Defined.

(** X8. requireRole compares roles and the allowlisted email without regard
    to case: lower-casing the allowed roles and the email of the user
    changes nothing. *)
Theorem requireRole_ignores_case allowedRoles u ADMIN_EMAILS user_roles :
  Auth.requireRole (List.map Sso.toLowerCase allowedRoles)
    (Some {| Auth.id := Auth.id u;
             Auth.email := Sso.toLowerCase <$> Auth.email u |})
    ADMIN_EMAILS user_roles
  = Auth.requireRole allowedRoles (Some u) ADMIN_EMAILS user_roles.
Proof.
  unfold Auth.requireRole. cbn [Auth.id Auth.email].
  assert (Sso.toLowerCase
            (Sso.or_str (Sso.toLowerCase <$> Auth.email u) "")
          = Sso.toLowerCase (Sso.or_str (Auth.email u) "")) as ->.
  { destruct (Auth.email u) as [e|]; [|reflexivity]. cbn [fmap option_fmap
      option_map]. unfold Sso.or_str.
    destruct (decide (e = "")) as [->|He]; [reflexivity|].
    rewrite (bool_decide_eq_false_2 (e = "") He).
    rewrite bool_decide_eq_false_2 by (by rewrite toLowerCase_empty).
    apply toLowerCase_idem. }
  rewrite List.map_map.
  rewrite (List.map_ext _ Sso.toLowerCase (λ a, toLowerCase_idem a)).
  reflexivity.
Qed.

(** X9. upsertPayrollUser splits the name at its first space: the first
    name holds no space, and the name is the first name alone, with an empty
    last name, or the first name, a space and the last name. *)
Theorem name_split name :
  Str.includes " " (Users.firstName name) = false
  ∧ ((name = Users.firstName name ∧ Users.lastName name = "")
     ∨ name = Users.firstName name +:+ " " +:+ Users.lastName name).
Proof.
  unfold Users.firstName, Users.lastName.
  pose proof (join_split_on " "%char name) as J.
  pose proof (split_on_parts " "%char name) as P.
  destruct (split_on_cons " "%char name) as (w & ws & E).
  rewrite E in J, P |- *. cbn [hd tl]. split; [apply P; by left|].
  rewrite join_cons in J. destruct ws as [|w' ws']; [by left | by right].
Qed.

(** ** upsertPayrollUser *)

Lemma filter_head_In {A} (f : A → bool) l x rest :
  List.filter f l = x :: rest → In x l ∧ f x = true.
Proof.
  intros E. apply filter_In. rewrite E. by left.
Qed.

Lemma filter_nil_In {A} (f : A → bool) l x :
  List.filter f l = [] → In x l → f x = false.
Proof.
  intros E Hin. destruct (f x) eqn:Hf; [|reflexivity].
  assert (In x (List.filter f l)) as H by (by apply filter_In).
  rewrite E in H. destruct H.
Qed.

Lemma filter_In_cons {A} (f : A → bool) l x :
  In x l → f x = true → ∃ y rest, List.filter f l = y :: rest.
Proof.
  intros Hin Hf. destruct (List.filter f l) as [|y rest] eqn:E.
  - rewrite (filter_nil_In f l x E Hin) in Hf. discriminate.
  - by exists y, rest.
Qed.

Lemma update_by_hr_user_id_idem u r :
  Users.update_by_hr_user_id u (Users.update_by_hr_user_id u r)
  = Users.update_by_hr_user_id u r.
Proof.
  unfold Users.update_by_hr_user_id.
  destruct (decide (Users.hr_user_id r = Some (Sso.HrUser.hrUserId u)))
    as [H|H].
  - rewrite (bool_decide_eq_true_2 _ H).
    cbn [Users.hr_user_id Users.id Users.pin_hash].
    by rewrite (bool_decide_eq_true_2 _ H).
  - rewrite (bool_decide_eq_false_2 _ H).
    by rewrite (bool_decide_eq_false_2 _ H).
Qed.

Lemma update_by_hr_user_id_other u r :
  Users.hr_user_id r ≠ Some (Sso.HrUser.hrUserId u) →
  Users.update_by_hr_user_id u r = r.
Proof.
  intros H. unfold Users.update_by_hr_user_id.
  by rewrite (bool_decide_eq_false_2 _ H).
Qed.

Lemma update_link u r :
  Users.hr_user_id r ≠ Some (Sso.HrUser.hrUserId u) →
  Users.update_by_hr_user_id u (Users.link_by_email u r)
  = Users.link_by_email u r.
Proof.
  intros H. unfold Users.link_by_email. case_bool_decide as He.
  - unfold Users.update_by_hr_user_id.
    cbn [Users.hr_user_id Users.id Users.pin_hash].
    rewrite bool_decide_eq_true_2 by reflexivity. by rewrite He.
  - by apply update_by_hr_user_id_other.
Qed.

Lemma update_new_user t u :
  Users.update_by_hr_user_id u (Users.new_user t u) = Users.new_user t u.
Proof.
  unfold Users.update_by_hr_user_id, Users.new_user.
  cbn [Users.hr_user_id Users.id Users.pin_hash].
  by rewrite bool_decide_eq_true_2.
Qed.

Lemma by_hr_user_id_nil h t r :
  Users.by_hr_user_id h t = [] → In r t → Users.hr_user_id r ≠ Some h.
Proof.
  intros E Hin. apply (filter_nil_In _ _ _ E) in Hin.
  by apply bool_decide_eq_false in Hin.
Qed.

Lemma map_fixed_In {A} (f : A → A) l :
  (∀ x, In x l → f x = x) → List.map f l = l.
Proof.
  intros H. rewrite <- (List.map_id l) at 2. apply List.map_ext_in, H.
Qed.

Lemma commit_reading_back_Some accepts t t1 u user t' :
  Users.commit_reading_back accepts t t1 u = (Some user, t') →
  t' = t1 ∧ accepts t1 = true
  ∧ ∃ rest, Users.by_hr_user_id (Sso.HrUser.hrUserId u) t1 = user :: rest.
Proof.
  unfold Users.commit_reading_back. destruct (accepts t1); [|discriminate].
  destruct (Users.by_hr_user_id _ t1) as [|x rest]; [discriminate|].
  intros [= -> ->]. split; [done|]. split; [done|]. by exists rest.
Qed.

Lemma commit_reading_back_fixed accepts t1 u user rest :
  accepts t1 = true →
  Users.by_hr_user_id (Sso.HrUser.hrUserId u) t1 = user :: rest →
  List.map (Users.update_by_hr_user_id u) t1 = t1 →
  Users.upsertPayrollUser accepts t1 u = (Some user, t1).
Proof.
  intros Ha Hh Hm. unfold Users.upsertPayrollUser. rewrite Hh, Hm.
  unfold Users.commit_reading_back. by rewrite Ha, Hh.
Qed.

(** X10. upsertPayrollUser is idempotent: after a call that returned a user,
    the same call returns the same user and leaves the table as it is. *)
Theorem upsertPayrollUser_idempotent (accepts : list Users.row → bool)
    t hrUser user t1 :
  Users.upsertPayrollUser accepts t hrUser = (Some user, t1) →
  Users.upsertPayrollUser accepts t1 hrUser = (Some user, t1).
Proof.
  unfold Users.upsertPayrollUser at 1.
  destruct (Users.by_hr_user_id _ t) as [|x0 xs] eqn:Hh.
  - destruct (Users.by_email _ t) as [|y0 ys] eqn:He.
    + destruct (accepts (t ++ [_])) eqn:Ha; [|discriminate].
      intros [= <- <-].
      apply (commit_reading_back_fixed _ _ _ _ []); [exact Ha| |].
      * unfold Users.by_hr_user_id in *. rewrite List.filter_app, Hh.
        cbn [List.filter Users.new_user Users.hr_user_id app].
        by rewrite bool_decide_eq_true_2.
      * rewrite List.map_app. cbn [List.map]. rewrite update_new_user.
        f_equal. apply map_fixed_In. intros r Hr.
        apply update_by_hr_user_id_other. by eapply by_hr_user_id_nil.
    + intros H. apply commit_reading_back_Some in H as (-> & Ha & rest & Hr).
      apply (commit_reading_back_fixed _ _ _ _ rest); [done..|].
      rewrite List.map_map. apply List.map_ext_in. intros r Hin.
      apply update_link. by eapply by_hr_user_id_nil.
  - intros H. apply commit_reading_back_Some in H as (-> & Ha & rest & Hr).
    apply (commit_reading_back_fixed _ _ _ _ rest); [done..|].
    rewrite List.map_map. apply List.map_ext. intros r.
    apply update_by_hr_user_id_idem.
Qed.

Lemma update_by_hr_user_id_keeps u r :
  Users.id (Users.update_by_hr_user_id u r) = Users.id r
  ∧ Users.pin_hash (Users.update_by_hr_user_id u r) = Users.pin_hash r
  ∧ Users.hr_user_id (Users.update_by_hr_user_id u r) = Users.hr_user_id r.
Proof. unfold Users.update_by_hr_user_id. by case_bool_decide. Qed.

Lemma link_by_email_keeps u r :
  Users.id (Users.link_by_email u r) = Users.id r
  ∧ Users.pin_hash (Users.link_by_email u r) = Users.pin_hash r
  ∧ Users.email (Users.link_by_email u r) = Users.email r.
Proof. unfold Users.link_by_email. by case_bool_decide. Qed.

(** The fields the service writes, on a row. *)
Lemma synced_fields accepts t hrUser user t1 :
  Users.upsertPayrollUser accepts t hrUser = (Some user, t1) →
  accepts t1 = true ∧ In user t1
  ∧ Users.email user = Sso.HrUser.email hrUser
  ∧ Users.hr_user_id user = Some (Sso.HrUser.hrUserId hrUser)
  ∧ Users.org_id user = Some (Sso.HrUser.orgId hrUser)
  ∧ Users.payroll_role user = Some (Sso.HrUser.payrollRole hrUser)
  ∧ Users.first_name user
    = Some (Users.firstName (Sso.HrUser.name hrUser))
  ∧ Users.last_name user = Some (Users.lastName (Sso.HrUser.name hrUser)).
Proof.
  unfold Users.upsertPayrollUser.
  destruct (Users.by_hr_user_id _ t) as [|x0 xs] eqn:Hh.
  - destruct (Users.by_email _ t) as [|y0 ys] eqn:He.
    + destruct (accepts (t ++ [_])) eqn:Ha; [|discriminate].
      intros [= <- <-]. split; [exact Ha|].
      split; [apply in_or_app; right; by left|]. by repeat split.
    + intros H. apply commit_reading_back_Some in H as (-> & Ha & rest & Hr).
      split; [exact Ha|]. apply filter_head_In in Hr as [Hin Hu].
      split; [exact Hin|]. apply bool_decide_eq_true_1 in Hu.
      apply in_map_iff in Hin as (r & <- & Hin).
      pose proof (by_hr_user_id_nil _ _ _ Hh Hin) as Hne.
      revert Hu. unfold Users.link_by_email. case_bool_decide as Em; [|done].
      intros _. by repeat split.
  - intros H. apply commit_reading_back_Some in H as (-> & Ha & rest & Hr).
    split; [exact Ha|]. apply filter_head_In in Hr as [Hin Hu].
    split; [exact Hin|]. apply bool_decide_eq_true_1 in Hu.
    apply in_map_iff in Hin as (r & <- & Hin).
    destruct (update_by_hr_user_id_keeps hrUser r) as (_ & _ & Hk).
    rewrite Hk in Hu. unfold Users.update_by_hr_user_id.
    rewrite (bool_decide_eq_true_2 _ Hu). by repeat split.
Qed.

(** X11. The user upsertPayrollUser returns is a row of the table it leaves,
    which the constraints accept, and carries what the token says: its
    email, HR user id, organisation, payroll role and the two parts of its
    name. *)
Theorem upsertPayrollUser_synced (accepts : list Users.row → bool)
    t hrUser user t1 :
  Users.upsertPayrollUser accepts t hrUser = (Some user, t1) →
  accepts t1 = true ∧ user ∈ t1
  ∧ Users.email user = Sso.HrUser.email hrUser
  ∧ Users.hr_user_id user = Some (Sso.HrUser.hrUserId hrUser)
  ∧ Users.org_id user = Some (Sso.HrUser.orgId hrUser)
  ∧ Users.payroll_role user = Some (Sso.HrUser.payrollRole hrUser)
  ∧ Users.first_name user
    = Some (Users.firstName (Sso.HrUser.name hrUser))
  ∧ Users.last_name user = Some (Users.lastName (Sso.HrUser.name hrUser)).
Proof.
  intros H. rewrite list_elem_of_In. by apply synced_fields in H.
Qed.

Lemma fresh_id_bound t r :
  In r t → (Users.id r < Users.fresh_id t)%N.
Proof.
  unfold Users.fresh_id. induction t as [|x t IH]; [done|].
  cbn [List.map fold_right]. intros [->|Hin]; [lia|].
  specialize (IH Hin). lia.
Qed.

(** X12. upsertPayrollUser keeps every user there was, in order, with its
    id and its PIN; it adds at most one user, who has an id no user had and
    no PIN. When it throws, the table is as before. *)
Theorem upsertPayrollUser_keeps (accepts : list Users.row → bool)
    t hrUser o t1 :
  Users.upsertPayrollUser accepts t hrUser = (o, t1) →
  (o = None → t1 = t)
  ∧ ∃ new,
      List.map (λ r, (Users.id r, Users.pin_hash r)) t1
      = List.map (λ r, (Users.id r, Users.pin_hash r)) t ++ new
      ∧ (new = []
         ∨ ∃ i, new = [(i, None)] ∧ i ∉ List.map Users.id t).
Proof.
  assert (Hsame : ∀ t1 : list Users.row, t1 = t → ∃ new,
    List.map (λ r, (Users.id r, Users.pin_hash r)) t1
    = List.map (λ r, (Users.id r, Users.pin_hash r)) t ++ new
    ∧ (new = [] ∨ ∃ i, new = [(i, None)] ∧ i ∉ List.map Users.id t)).
  { intros ? ->. exists []. rewrite app_nil_r. by split; [|left]. }
  assert (Hmap : ∀ f, (∀ r, Users.id (f r) = Users.id r
                            ∧ Users.pin_hash (f r) = Users.pin_hash r) →
    ∃ new,
    List.map (λ r, (Users.id r, Users.pin_hash r)) (List.map f t)
    = List.map (λ r, (Users.id r, Users.pin_hash r)) t ++ new
    ∧ (new = [] ∨ ∃ i, new = [(i, None)] ∧ i ∉ List.map Users.id t)).
  { intros f Hf. exists []. rewrite app_nil_r, List.map_map.
    split; [|by left]. apply List.map_ext. intros r.
    destruct (Hf r) as [-> ->]. reflexivity. }
  assert (Hcommit : ∀ f, (∀ r, Users.id (f r) = Users.id r
                            ∧ Users.pin_hash (f r) = Users.pin_hash r) →
    Users.commit_reading_back accepts t (List.map f t) hrUser = (o, t1) →
    (o = None → t1 = t) ∧ ∃ new,
    List.map (λ r, (Users.id r, Users.pin_hash r)) t1
    = List.map (λ r, (Users.id r, Users.pin_hash r)) t ++ new
    ∧ (new = [] ∨ ∃ i, new = [(i, None)] ∧ i ∉ List.map Users.id t)).
  { intros f Hf. unfold Users.commit_reading_back.
    destruct (accepts _).
    - destruct (Users.by_hr_user_id _ _).
      + intros [= <- <-]. split; [done|]. by apply Hsame.
      + intros [= <- <-]. split; [done|]. by apply Hmap.
    - intros [= <- <-]. split; [done|]. by apply Hsame. }
  unfold Users.upsertPayrollUser.
  destruct (Users.by_hr_user_id _ t) as [|x0 xs] eqn:Hh.
  - destruct (Users.by_email _ t) as [|y0 ys] eqn:He.
    + destruct (accepts (t ++ [_])) eqn:Ha.
      * intros [= <- <-]. split; [done|].
        exists [(Users.fresh_id t, None)]. rewrite List.map_app.
        split; [reflexivity|]. right. exists (Users.fresh_id t).
        split; [reflexivity|]. rewrite list_elem_of_In, in_map_iff.
        intros (r & Er & Hin). apply fresh_id_bound in Hin. lia.
      * intros [= <- <-]. split; [done|]. by apply Hsame.
    + apply Hcommit. intros r.
      by destruct (link_by_email_keeps hrUser r) as (? & ? & _).
  - apply Hcommit. intros r.
    by destruct (update_by_hr_user_id_keeps hrUser r) as (? & ? & _).
Qed.

Lemma getPayrollUserByEmail_In t e r :
  In r t → Users.email r = Sso.trim (Sso.toLowerCase e) →
  ∃ r', Users.getPayrollUserByEmail t e = Some r'
        ∧ In r' t ∧ Users.email r' = Users.email r.
Proof.
  intros Hin He. unfold Users.getPayrollUserByEmail.
  destruct (filter_In_cons
              (λ r, bool_decide (Users.email r = Sso.trim (Sso.toLowerCase e)))
              t r Hin) as (y & rest & E).
  { by apply bool_decide_eq_true_2. }
  rewrite E. exists y. split; [reflexivity|].
  apply filter_head_In in E as [Hy Ey]. split; [exact Hy|].
  apply bool_decide_eq_true_1 in Ey. by rewrite Ey, He.
Qed.

Lemma NoDup_map_inj_In {A B} (f : A → B) l x y :
  NoDup (List.map f l) → In x l → In y l → f x = f y → x = y.
Proof.
  induction l as [|a l IH]; [done|]. cbn [List.map]. intros Hnd.
  apply NoDup_cons in Hnd as [Ha Hnd]. rewrite list_elem_of_In in Ha.
  intros [->|Hx] [->|Hy] E; [done| | |by apply IH].
  - exfalso. apply Ha. rewrite E. by apply in_map.
  - exfalso. apply Ha. rewrite <- E. by apply in_map.
Qed.

(** X13. Single sign-on, then lookup: after verifyHrSsoToken has let a token
    through and upsertPayrollUser has returned the user for it,
    getPayrollUserByEmail finds, under the email claim of the token as it was
    written, a user with the email of the returned one; it is the returned
    user when emails are unique in the table. *)
Theorem sso_user_found_by_email (accepts : list Users.row → bool)
    token secret_configured p now hrUser t user t1 :
  Sso.verifyHrSsoToken token secret_configured (Sso.Payload p) now
  = Sso.Next hrUser →
  Users.upsertPayrollUser accepts t hrUser = (Some user, t1) →
  ∃ r, Users.getPayrollUserByEmail t1 (default "" (Sso.email p)) = Some r
       ∧ Users.email r = Users.email user
       ∧ (NoDup (List.map Users.email t1) → r = user).
Proof.
  intros Hv Hu. apply synced_fields in Hu as (_ & Hin & Hm & _).
  assert (Users.email user
          = Sso.trim (Sso.toLowerCase (default "" (Sso.email p)))) as He.
  { rewrite Hm. revert Hv. unfold Sso.verifyHrSsoToken.
    repeat (match goal with
            | |- context [if ?b then _ else _] => destruct b
            end; try discriminate).
    by intros [= <-]. }
  destruct (getPayrollUserByEmail_In t1 _ user Hin He) as (r & Er & Hr & Em).
  exists r. split; [exact Er|]. split; [exact Em|]. intros Hnd.
  by apply (NoDup_map_inj_In Users.email t1).
Qed.

Lemma upsertPayrollUser_idempotent_witness :
  ∃ user t1,
    Users.upsertPayrollUser Cases.unique_emails Cases.users Cases.sso_user
    = (Some user, t1)
    ∧ Users.upsertPayrollUser Cases.unique_emails t1 Cases.sso_user
      = (Some user, t1).
Proof.
  eexists _, _. split; [vm_compute; reflexivity|].
  apply (upsertPayrollUser_idempotent _ Cases.users).
  vm_compute. reflexivity.
Defined.

Lemma upsertPayrollUser_synced_witness :
  ∃ user t1,
    Users.upsertPayrollUser Cases.unique_emails Cases.users Cases.sso_user
    = (Some user, t1)
    ∧ Users.id user = 1%N
    ∧ Users.hr_user_id user = Some "00000000-0000-4000-8000-000000000042"
    ∧ Users.first_name user = Some "" ∧ Users.last_name user = Some "U@x.io".
Proof.
  eexists _, _. split; [vm_compute; reflexivity|].
  split; [reflexivity|].
  destruct (upsertPayrollUser_synced Cases.unique_emails Cases.users
              Cases.sso_user _ _ eq_refl) as (_ & _ & _ & H1 & _ & _ & H2 & H3).
  split; [exact H1|]. split; [exact H2 | exact H3].
Defined.

Lemma upsertPayrollUser_keeps_witness :
  ∃ o t1,
    Users.upsertPayrollUser Cases.unique_emails Cases.users Cases.sso_user
    = (o, t1)
    ∧ ∃ new,
        List.map (λ r, (Users.id r, Users.pin_hash r)) t1
        = [(1%N, None); (2%N, Some "$654321")] ++ new.
Proof.
  eexists _, _. split; [vm_compute; reflexivity|].
  destruct (upsertPayrollUser_keeps Cases.unique_emails Cases.users
              Cases.sso_user _ _ eq_refl) as (_ & new & H & _).
  exists new. exact H.
Defined.

Lemma sso_user_found_by_email_witness :
  ∃ r, Users.getPayrollUserByEmail
         (snd (Users.upsertPayrollUser Cases.unique_emails Cases.users
                 Cases.sso_user))
         " U@x.io" = Some r
       ∧ Users.email r = "u@x.io".
Proof.
  destruct (sso_user_found_by_email Cases.unique_emails "t" true
              Cases.hr_payload 1000 Cases.sso_user Cases.users
              _ _ eq_refl eq_refl) as (r & H1 & H2 & _).
  exists r. split; [exact H1 | exact H2].
Defined.

(** ** The PIN routes *)

Lemma users_by_email_map_set_pin_hash pinHash userId users e :
  Pin.users_by_email (List.map (Pin.set_pin_hash pinHash userId) users) e
  = List.map (Pin.set_pin_hash pinHash userId) (Pin.users_by_email users e).
Proof.
  unfold Pin.users_by_email. induction users as [|u users IH]; [done|].
  cbn [List.map List.filter].
  assert (Users.email (Pin.set_pin_hash pinHash userId u) = Users.email u)
    as -> by (unfold Pin.set_pin_hash; by case_bool_decide).
  case_bool_decide; cbn [List.map]; by rewrite IH.
Qed.

Lemma pin_hash_set_pin_hash pinHash u :
  Users.pin_hash (Pin.set_pin_hash pinHash (Users.id u) u) = Some pinHash.
Proof.
  unfold Pin.set_pin_hash. by rewrite bool_decide_eq_true_2.
Qed.

Lemma six_digits_nonempty pin : Pin.six_digits pin = true → pin ≠ "".
Proof. by intros H ->. Qed.

Lemma falsy_str_Some s : s ≠ "" → Sso.falsy_str (Some s) = false.
Proof.
  intros H. unfold Sso.falsy_str. rewrite or_str_Some.
  by apply bool_decide_eq_false_2.
Qed.

Lemma falsy_str_true_hash h :
  Sso.falsy_str h = true → Sso.or_str h "" = "".
Proof. unfold Sso.falsy_str. apply bool_decide_eq_true_1. Qed.

Lemma setup_pin_PinSet bcrypt_hash createToken salt users email pin
    token userId e users' :
  Pin.setup_pin bcrypt_hash createToken salt users email pin
  = (Pin.PinSet token userId e, users') →
  Sso.falsy_str email = false ∧ Sso.falsy_str pin = false
  ∧ Pin.six_digits (Sso.or_str pin "") = true
  ∧ e = Sso.trim (Sso.toLowerCase (Sso.or_str email ""))
  ∧ (∃ user rest, Pin.users_by_email users e = user :: rest
       ∧ Users.id user = userId
       ∧ Sso.falsy_str (Users.pin_hash user) = true)
  ∧ users' = List.map (Pin.set_pin_hash
                         (bcrypt_hash salt (Sso.or_str pin "")) userId) users.
Proof.
  unfold Pin.setup_pin.
  destruct (Sso.falsy_str email); [discriminate|].
  destruct (Sso.falsy_str pin); [discriminate|]. cbn [orb].
  destruct (Pin.six_digits _); [|discriminate]. cbn [negb].
  destruct (Pin.users_by_email _ _) as [|user rest] eqn:Hu; [discriminate|].
  destruct (Sso.falsy_str (Users.pin_hash user)) eqn:Hp; [|discriminate].
  cbn [negb]. intros [= <- <- <- <-]. repeat split. by exists user, rest.
Qed.

(** X14. Setting a PIN, then logging in with it: when /setup-pin has set the
    PIN of a user, /login-pin with the same email and PIN opens a session
    for that user on the table it left, provided bcrypt.compare accepts the
    PIN against the hash bcrypt.hash gave, and that hash is not empty. *)
Theorem setup_pin_then_login
    (bcrypt_hash : string → string → string)
    (bcrypt_compare : string → string → bool)
    (createToken : Schema.uuid → string → string)
    salt users email pin token userId e users' :
  bcrypt_hash salt (Sso.or_str pin "") ≠ "" →
  bcrypt_compare (Sso.or_str pin "") (bcrypt_hash salt (Sso.or_str pin ""))
  = true →
  Pin.setup_pin bcrypt_hash createToken salt users email pin
  = (Pin.PinSet token userId e, users') →
  ∃ token',
    Pin.login_pin bcrypt_compare createToken users' email pin
    = Pin.Session token' userId e.
Proof.
  intros Hne Hcmp H.
  apply setup_pin_PinSet in H
    as (He & Hp & H6 & -> & (user & rest & Hu & <- & Hf) & ->).
  unfold Pin.login_pin. rewrite He, Hp, H6. cbn [orb negb].
  rewrite users_by_email_map_set_pin_hash, Hu. cbn [List.map].
  unfold Pin.set_pin_hash at 1 2 3 4.
  rewrite bool_decide_eq_true_2 by reflexivity. cbn [Users.pin_hash Users.id].
  rewrite (falsy_str_Some _ Hne), or_str_Some, Hcmp. cbn [negb].
  by eexists.
Qed.

Lemma setup_pin_then_login_witness :
  ∃ token',
    Pin.login_pin Cases.toy_compare Cases.toy_token
      (snd (Pin.setup_pin Cases.toy_hash Cases.toy_token "s" Cases.users
              (Some " U@X.io") (Some "123456")))
      (Some " U@X.io") (Some "123456")
    = Pin.Session token' 1%N "u@x.io".
Proof.
  apply (setup_pin_then_login Cases.toy_hash Cases.toy_compare
           Cases.toy_token "s" Cases.users (Some " U@X.io") (Some "123456")
           "u@x.io").
  - discriminate.
  - reflexivity.
  - reflexivity.
Defined.

(** X15. A PIN is set once: after /setup-pin has set the PIN of a user, any
    further /setup-pin for the same email is answered 400 or 409 and leaves
    the table as it is, provided the hash bcrypt.hash gave is not empty. *)
Theorem setup_pin_once
    (bcrypt_hash : string → string → string)
    (createToken : Schema.uuid → string → string)
    salt users email pin token userId e users' salt' pin' :
  bcrypt_hash salt (Sso.or_str pin "") ≠ "" →
  Pin.setup_pin bcrypt_hash createToken salt users email pin
  = (Pin.PinSet token userId e, users') →
  ∃ status error,
    Pin.setup_pin bcrypt_hash createToken salt' users' email pin'
    = (Pin.Error status error None, users')
    ∧ (status = 400 ∨ status = 409).
Proof.
  intros Hne H.
  apply setup_pin_PinSet in H
    as (He & Hp & H6 & -> & (user & rest & Hu & <- & Hf) & ->).
  unfold Pin.setup_pin. rewrite He. cbn [orb].
  destruct (Sso.falsy_str pin'); [by eexists _, _; split; [|left]|].
  destruct (Pin.six_digits (Sso.or_str pin' "")); cbn [negb];
    [|by eexists _, _; split; [|left]].
  rewrite users_by_email_map_set_pin_hash, Hu. cbn [List.map].
  rewrite pin_hash_set_pin_hash, (falsy_str_Some _ Hne). cbn [negb].
  by eexists _, _; split; [|right].
Qed.

Lemma setup_pin_once_witness :
  ∃ status error,
    Pin.setup_pin Cases.toy_hash Cases.toy_token "s2"
      (snd (Pin.setup_pin Cases.toy_hash Cases.toy_token "s" Cases.users
              (Some " U@X.io") (Some "123456")))
      (Some " U@X.io") (Some "999999")
    = (Pin.Error status error None,
       snd (Pin.setup_pin Cases.toy_hash Cases.toy_token "s" Cases.users
              (Some " U@X.io") (Some "123456")))
    ∧ (status = 400 ∨ status = 409).
Proof.
  apply (setup_pin_once Cases.toy_hash Cases.toy_token "s" Cases.users
           (Some " U@X.io") (Some "123456") "u@x.io" 1%N "u@x.io").
  - discriminate.
  - reflexivity.
Defined.

(** X16. /login-pin opens a session only for a six-digit PIN that
    bcrypt.compare accepts against the stored, non-empty hash of a user whose
    email is the lower-cased, trimmed email of the request; the session is
    for the id of that user. *)
Theorem login_pin_sound
    (bcrypt_compare : string → string → bool)
    (createToken : Schema.uuid → string → string)
    users email pin token userId e :
  Pin.login_pin bcrypt_compare createToken users email pin
  = Pin.Session token userId e →
  ∃ em p user hash,
    email = Some em ∧ pin = Some p ∧ Pin.six_digits p = true
    ∧ e = Sso.trim (Sso.toLowerCase em)
    ∧ user ∈ users ∧ Users.email user = e ∧ Users.id user = userId
    ∧ Users.pin_hash user = Some hash ∧ hash ≠ ""
    ∧ bcrypt_compare p hash = true.
Proof.
  unfold Pin.login_pin.
  destruct (Sso.falsy_str email) eqn:He; [discriminate|].
  destruct (Sso.falsy_str pin) eqn:Hp; [discriminate|]. cbn [orb].
  destruct (Pin.six_digits _) eqn:H6; [|discriminate]. cbn [negb].
  destruct (Pin.users_by_email _ _) as [|user rest] eqn:Hu; [discriminate|].
  destruct (Sso.falsy_str (Users.pin_hash user)) eqn:Hh; [discriminate|].
  destruct (bcrypt_compare _ _) eqn:Hc; [|discriminate]. cbn [negb].
  intros [= <- <- <-].
  destruct (falsy_str_false _ He) as (em & -> & Nem & _).
  destruct (falsy_str_false _ Hp) as (p & -> & Np & _).
  destruct (falsy_str_false _ Hh) as (hash & Eh & Nh & _).
  rewrite or_str_Some in *. rewrite Eh, or_str_Some in Hc.
  apply filter_head_In in Hu as [Hin Hm].
  apply bool_decide_eq_true_1 in Hm.
  exists em, p, user, hash. rewrite list_elem_of_In. by repeat split.
Qed.

Lemma login_pin_sound_witness :
  ∃ em p user hash,
    Some "V@x.io " = Some em ∧ Some "654321" = Some p
    ∧ Pin.six_digits p = true
    ∧ "v@x.io" = Sso.trim (Sso.toLowerCase em)
    ∧ user ∈ Cases.users ∧ Users.email user = "v@x.io"
    ∧ Users.id user = 2%N
    ∧ Users.pin_hash user = Some hash ∧ hash ≠ ""
    ∧ Cases.toy_compare p hash = true.
Proof.
  exact (login_pin_sound Cases.toy_compare Cases.toy_token Cases.users
           (Some "V@x.io ") (Some "654321") "v@x.io" 2%N "v@x.io" eq_refl).
Defined.

(** X17. /pin-status tells what /setup-pin will do: when it reports a user
    without a PIN, /setup-pin with the same email and any six-digit PIN sets
    the PIN of that user; when it reports a user with a PIN, /setup-pin
    answers 409 and leaves the table as it is. *)
Theorem pin_status_decides
    (bcrypt_hash : string → string → string)
    (createToken : Schema.uuid → string → string)
    salt users email pin hasPin userId :
  Pin.pin_status users email = Pin.Status hasPin userId →
  Pin.six_digits pin = true →
  if hasPin then
    Pin.setup_pin bcrypt_hash createToken salt users email (Some pin)
    = (Pin.Error 409 "PIN already set. Use login to sign in." None, users)
  else
    ∃ token e,
      Pin.setup_pin bcrypt_hash createToken salt users email (Some pin)
      = (Pin.PinSet token userId e,
         List.map (Pin.set_pin_hash (bcrypt_hash salt pin) userId) users).
Proof.
  unfold Pin.pin_status. case_bool_decide as Ht; [discriminate|].
  rewrite toLowerCase_trim.
  destruct (Pin.users_by_email _ _) as [|user rest] eqn:Hu; [discriminate|].
  intros [= <- <-] H6. unfold Pin.setup_pin.
  assert (Sso.or_str email "" ≠ "") as Hne by (by intros E; rewrite E in Ht).
  assert (Sso.falsy_str email = false) as ->
    by (by apply bool_decide_eq_false_2).
  rewrite (falsy_str_Some _ (six_digits_nonempty _ H6)), or_str_Some, H6, Hu.
  cbn [orb negb].
  destruct (Sso.falsy_str (Users.pin_hash user)); cbn [negb]; [|done].
  by eexists _, _.
Qed.

Lemma pin_status_decides_witness :
  Pin.setup_pin Cases.toy_hash Cases.toy_token "s" Cases.users
    (Some " V@x.io") (Some "123456")
  = (Pin.Error 409 "PIN already set. Use login to sign in." None,
     Cases.users).
Proof.
  exact (pin_status_decides Cases.toy_hash Cases.toy_token "s" Cases.users
           (Some " V@x.io") "123456" true 2%N eq_refl eq_refl).
Defined.

(** ** ORDER BY: the sort gives a sorted list *)

Section SortSorted.
Context {A : Type} (le : A → A → bool).
Hypothesis le_total : ∀ a b, le a b = false → le b a = true.
Hypothesis le_trans : ∀ a b c, le a b = true → le b c = true → le a c = true.

Lemma insert_by_StronglySorted x l :
  StronglySorted (λ a b, le a b = true) l →
  StronglySorted (λ a b, le a b = true) (Js.insert_by le x l).
Proof.
  induction 1 as [|y l Hl IH Hy]; cbn [Js.insert_by].
  - repeat constructor.
  - destruct (le x y) eqn:E.
    + constructor; [by constructor|]. constructor; [exact E|].
      apply List.Forall_forall. intros z Hz.
      rewrite List.Forall_forall in Hy. eauto.
    + constructor; [exact IH|]. apply List.Forall_forall. intros z Hz.
      apply In_insert_by in Hz as [->|Hz]; [by apply le_total|].
      rewrite List.Forall_forall in Hy. eauto.
Qed.

Lemma sort_by_StronglySorted l :
  StronglySorted (λ a b, le a b = true) (Js.sort_by le l).
Proof.
  induction l as [|x l IH]; cbn [Js.sort_by]; [constructor|].
  by apply insert_by_StronglySorted.
Qed.
End SortSorted.

Lemma StronglySorted_impl {A} (R S : A → A → Prop) l :
  (∀ a b, R a b → S a b) → StronglySorted R l → StronglySorted S l.
Proof.
  intros H. induction 1 as [|x l Hl IH Hx]; constructor; [exact IH|].
  eapply List.Forall_impl; [|exact Hx]. intros b. apply H.
Qed.

(** ** GET /payroll-cycles *)

Lemma listing_le_spec a b :
  Routes.listing_le a b = true
  ↔ Routes.CycleListing.year b < Routes.CycleListing.year a
    ∨ (Routes.CycleListing.year b = Routes.CycleListing.year a
       ∧ Routes.CycleListing.month b ≤ Routes.CycleListing.month a).
Proof.
  unfold Routes.listing_le.
  rewrite orb_true_iff, andb_true_iff, Z.ltb_lt, Z.eqb_eq, Z.leb_le. tauto.
Qed.

(** The rows of the listing, as a list whatever its order. *)
Lemma listing_rows d tenantId currentYear currentMonth :
  ∃ l, fst (Routes.get_payroll_cycles d tenantId currentYear currentMonth)
       = Payroll.json l
    ∧ ∀ row, row ∈ l ↔
        ∃ pc, pc ∈ payroll_cycles
                     (snd (Routes.get_payroll_cycles d tenantId currentYear
                             currentMonth))
          ∧ Cycle.tenant_id pc = tenantId
          ∧ Routes.CycleListing.id row = Cycle.id pc
          ∧ Routes.CycleListing.year row = Cycle.year pc
          ∧ Routes.CycleListing.month row = Cycle.month pc
          ∧ Routes.CycleListing.total_amount row = Cycle.total_amount pc
          ∧ Routes.CycleListing.status row = Cycle.status pc
          ∧ Routes.CycleListing.total_employees row
            = Z.of_nat (length (remove_dups
                (List.map Item.employee_id
                   (List.filter
                      (λ it, bool_decide (Item.payroll_cycle_id it = Cycle.id pc)
                             && bool_decide (Item.tenant_id it = tenantId))
                      (payroll_items d))))).
Proof.
  unfold Routes.get_payroll_cycles. cbn [fst snd]. eexists.
  split; [reflexivity|].
  intros row. rewrite list_elem_of_In, In_sort_by, in_map_iff. split.
  - intros (pc & <- & Hin). apply filter_In in Hin as [Hin Ht].
    apply bool_decide_eq_true_1 in Ht. exists pc.
    rewrite list_elem_of_In. by repeat split.
  - intros (pc & Hin & Ht & H1 & H2 & H3 & H4 & H5 & H6). exists pc. split.
    + destruct row. cbn in *. subst. reflexivity.
    + apply filter_In. rewrite <- list_elem_of_In. split; [exact Hin|].
      by apply bool_decide_eq_true_2.
Qed.

(** X18. The listing of GET /payroll-cycles is in descending order of year,
    then month; it holds exactly the cycles of the tenant, as the handler's
    first statement left them; and the number of employees it shows for a
    cycle is the number of distinct employees among the payroll items of
    that cycle, 0 when it has none, never the total_employees the cycle
    stores. *)
Theorem get_payroll_cycles_listing d tenantId currentYear currentMonth :
  ∃ l, fst (Routes.get_payroll_cycles d tenantId currentYear currentMonth)
       = Payroll.json l
    ∧ StronglySorted
        (λ a b, Routes.CycleListing.year b < Routes.CycleListing.year a
                ∨ (Routes.CycleListing.year b = Routes.CycleListing.year a
                   ∧ Routes.CycleListing.month b
                     ≤ Routes.CycleListing.month a)) l
    ∧ ∀ row, row ∈ l ↔
        ∃ pc, pc ∈ payroll_cycles
                     (snd (Routes.get_payroll_cycles d tenantId currentYear
                             currentMonth))
          ∧ Cycle.tenant_id pc = tenantId
          ∧ Routes.CycleListing.id row = Cycle.id pc
          ∧ Routes.CycleListing.year row = Cycle.year pc
          ∧ Routes.CycleListing.month row = Cycle.month pc
          ∧ Routes.CycleListing.total_amount row = Cycle.total_amount pc
          ∧ Routes.CycleListing.status row = Cycle.status pc
          ∧ Routes.CycleListing.total_employees row
            = Z.of_nat (length (remove_dups
                (List.map Item.employee_id
                   (List.filter
                      (λ it, bool_decide (Item.payroll_cycle_id it = Cycle.id pc)
                             && bool_decide (Item.tenant_id it = tenantId))
                      (payroll_items d))))).
Proof.
  destruct (listing_rows d tenantId currentYear currentMonth)
    as (l & El & Hl).
  exists l. split; [exact El|]. split; [|exact Hl].
  revert El. unfold Routes.get_payroll_cycles. cbn [fst]. intros [= <-].
  eapply StronglySorted_impl; [|apply sort_by_StronglySorted].
  - intros a b. apply listing_le_spec.
  - intros a b. rewrite <- not_true_iff_false, !listing_le_spec. lia.
  - intros a b c. rewrite !listing_le_spec. lia.
Qed.

Lemma set_status_same c :
  Payroll.set_status (Cycle.status c) (Cycle.approved_by c) c = c.
Proof. by destruct c. Qed.

(** X19. GET /payroll-cycles is not a read: a cycle of the tenant for a month
    before the current one, whatever its status (draft, pending approval,
    approved, processing), failed apart, is completed by the request, in the
    table and in the listing, without passing through approval or
    processing. *)
Theorem get_payroll_cycles_completes_past d tenantId currentYear currentMonth
    c :
  c ∈ payroll_cycles d → Cycle.tenant_id c = tenantId →
  Cycle.year c < currentYear
  ∨ (Cycle.year c = currentYear ∧ Cycle.month c < currentMonth) →
  Cycle.status c ≠ failed →
  Payroll.set_status completed (Cycle.approved_by c) c
  ∈ payroll_cycles
      (snd (Routes.get_payroll_cycles d tenantId currentYear currentMonth))
  ∧ ∃ l row,
      fst (Routes.get_payroll_cycles d tenantId currentYear currentMonth)
      = Payroll.json l
      ∧ row ∈ l ∧ Routes.CycleListing.id row = Cycle.id c
      ∧ Routes.CycleListing.status row = completed.
Proof.
  intros Hin Ht Hpast Hf.
  assert (Hc : Payroll.set_status completed (Cycle.approved_by c) c
               ∈ payroll_cycles
                   (Payroll.auto_update_past_cycles d tenantId currentYear
                      currentMonth)).
  { unfold Payroll.auto_update_past_cycles.
    cbn [Payroll.with_payroll_cycles payroll_cycles].
    rewrite list_elem_of_In, in_map_iff. exists c.
    rewrite <- list_elem_of_In. split; [|exact Hin].
    rewrite (bool_decide_eq_true_2 _ Ht), (bool_decide_eq_false_2 _ Hf).
    assert ((Cycle.year c <? currentYear)
            || ((Cycle.year c =? currentYear)
                && (Cycle.month c <? currentMonth)) = true) as ->.
    { rewrite orb_true_iff, andb_true_iff, !Z.ltb_lt, Z.eqb_eq. exact Hpast. }
    case_bool_decide as Hs; cbn [andb negb]; [|reflexivity].
    rewrite <- Hs. symmetry. apply set_status_same. }
  split; [exact Hc|].
  destruct (listing_rows d tenantId currentYear currentMonth)
    as (l & El & Hl).
  exists l.
  exists {| Routes.CycleListing.id := Cycle.id c;
            Routes.CycleListing.year := Cycle.year c;
            Routes.CycleListing.month := Cycle.month c;
            Routes.CycleListing.total_amount := Cycle.total_amount c;
            Routes.CycleListing.status := completed;
            Routes.CycleListing.total_employees :=
              Z.of_nat (length (remove_dups
                (List.map Item.employee_id
                   (List.filter
                      (λ it, bool_decide (Item.payroll_cycle_id it = Cycle.id c)
                             && bool_decide (Item.tenant_id it = tenantId))
                      (payroll_items d))))) |}.
  split; [exact El|]. split; [|split; reflexivity].
  apply Hl. eexists. split; [exact Hc|].
  split; [exact Ht|]. repeat split; reflexivity.
Qed.

Lemma get_payroll_cycles_completes_past_witness :
  ∃ l row,
    fst (Routes.get_payroll_cycles Examples.april_db 1%N 2024 6)
    = Payroll.json l
    ∧ row ∈ l ∧ Routes.CycleListing.id row = 5%N
    ∧ Routes.CycleListing.status row = completed.
Proof.
  destruct (get_payroll_cycles_completes_past Examples.april_db 1%N 2024 6
              Examples.april) as [_ H].
  - apply list_elem_of_In. left. reflexivity.
  - reflexivity.
  - right. split; [reflexivity|]. reflexivity.
  - discriminate.
  - exact H.
Defined.

(** ** The cycle actions: other tenants, unknown cycles, the whole course *)

Lemma cycles_of_others_map tenantId (g : Cycle.row → Cycle.row) d cs :
  (∀ c, Cycle.tenant_id c ≠ tenantId → g c = c) →
  (∀ c, Cycle.tenant_id (g c) = Cycle.tenant_id c) →
  payroll_cycles d = cs →
  Tenancy.cycles_of_others tenantId
    (Payroll.with_payroll_cycles d (List.map g cs))
  = Tenancy.cycles_of_others tenantId d.
Proof.
  intros Hother Hkeep <-. unfold Tenancy.cycles_of_others.
  cbn [Payroll.with_payroll_cycles payroll_cycles].
  induction (payroll_cycles d) as [|c l IH]; [reflexivity|].
  cbn [List.map List.filter]. rewrite Hkeep, IH.
  case_bool_decide as Ht; cbn [negb]; [reflexivity|].
  by rewrite (Hother c Ht).
Qed.

Lemma cycles_of_others_update tenantId f cycleId d :
  (∀ c, Cycle.tenant_id (f c) = Cycle.tenant_id c) →
  Tenancy.cycles_of_others tenantId
    (Payroll.update_cycle f cycleId tenantId d)
  = Tenancy.cycles_of_others tenantId d.
Proof.
  intros Hf. unfold Payroll.update_cycle.
  apply cycles_of_others_map; [| |reflexivity].
  - intros c Hc. by rewrite (bool_decide_eq_false_2 _ Hc), andb_false_r.
  - intros c. destruct (_ && _); [apply Hf | reflexivity].
Qed.

Lemma cycles_of_others_auto_update tenantId currentYear currentMonth d :
  Tenancy.cycles_of_others tenantId
    (Payroll.auto_update_past_cycles d tenantId currentYear currentMonth)
  = Tenancy.cycles_of_others tenantId d.
Proof.
  unfold Payroll.auto_update_past_cycles.
  apply cycles_of_others_map; [| |reflexivity].
  - intros c Hc. by rewrite (bool_decide_eq_false_2 _ Hc).
  - intros c. destruct (_ && _); reflexivity.
Qed.

(** X20. A request of one tenant to the cycle routes (create, list, process,
    submit, approve, reject) leaves the cycles of every other tenant as they
    are, whatever cycle id it names, and leaves the other tables as they
    are. *)
Theorem request_keeps_other_tenants tenantId d d' :
  Tenancy.request tenantId d d' →
  Tenancy.cycles_of_others tenantId d' = Tenancy.cycles_of_others tenantId d
  ∧ employees d' = employees d
  ∧ compensation_structures d' = compensation_structures d
  ∧ payroll_items d' = payroll_items d
  ∧ payroll_settings d' = payroll_settings d
  ∧ leave_requests d' = leave_requests d
  ∧ attendance_records d' = attendance_records d.
Proof.
  intros [audit_ok userId b|currentYear currentMonth|audit_ok cycleId|cycleId
         |userId cycleId|cycleId].
  - unfold Payroll.post_payroll_cycles.
    destruct (_ || _); [done|].
    destruct (Js.parseInt _) as [m|]; [|done].
    destruct (Js.parseInt _) as [y|]; [|done].
    destruct (Payroll.pg_integer _) as [p|]; [|done].
    destruct (Payroll.pg_integer _) as [n|]; [|done].
    destruct (Payroll.insert_cycle _ _) as [sqlstate|cs] eqn:E.
    { by destruct (bool_decide _). }
    assert (Tenancy.cycles_of_others tenantId (Payroll.with_payroll_cycles d cs)
            = Tenancy.cycles_of_others tenantId d) as Hcs.
    { revert E. unfold Payroll.insert_cycle.
      destruct (negb _); [discriminate|].
      destruct (negb _); [discriminate|].
      destruct (existsb _ _); [discriminate|]. intros [= <-].
      unfold Tenancy.cycles_of_others.
      cbn [Payroll.with_payroll_cycles payroll_cycles].
      rewrite List.filter_app. cbn [List.filter Cycle.tenant_id].
      rewrite bool_decide_eq_true_2 by reflexivity. cbn [negb].
      apply app_nil_r. }
    by destruct audit_ok.
  - cbn [Routes.get_payroll_cycles snd].
    split; [apply cycles_of_others_auto_update | done].
  - unfold Payroll.post_process.
    destruct (Payroll.find_cycle _ _ _); [done|].
    destruct (negb _); [done|].
    destruct audit_ok; (split; [by apply cycles_of_others_update | done]).
  - split; [by apply cycles_of_others_update | done].
  - split; [by apply cycles_of_others_update | done].
  - split; [by apply cycles_of_others_update | done].
Qed.

Lemma request_keeps_other_tenants_witness :
  Tenancy.cycles_of_others 2%N
    (snd (Payroll.post_reject Examples.april_db 2%N 5%N))
  = [Examples.april].
Proof.
  destruct (request_keeps_other_tenants 2%N Examples.april_db _
              (Tenancy.r_reject 2%N Examples.april_db 5%N)) as [H _].
  rewrite H. reflexivity.
Defined.

Lemma update_cycle_unknown f cycleId tenantId d :
  Payroll.find_cycle d cycleId tenantId = [] →
  Payroll.update_cycle f cycleId tenantId d = d.
Proof.
  unfold Payroll.find_cycle, Payroll.update_cycle. intros H.
  rewrite map_fixed_In; [by destruct d|].
  intros c Hc. by rewrite (filter_nil_In _ _ _ H Hc).
Qed.

(** X21. A cycle id the tenant has no cycle for: submit, approve and reject
    answer success all the same and change nothing; process answers 404. *)
Theorem actions_on_unknown_cycle d userId tenantId cycleId :
  Payroll.find_cycle d cycleId tenantId = [] →
  Payroll.post_submit d tenantId cycleId
  = (Payroll.json {| Payroll.success := true;
                     Payroll.message := "Payroll submitted for approval" |}, d)
  ∧ Payroll.post_approve d userId tenantId cycleId
    = (Payroll.json {| Payroll.success := true;
                       Payroll.message := "Payroll approved" |}, d)
  ∧ Payroll.post_reject d tenantId cycleId
    = (Payroll.json {| Payroll.success := true;
                       Payroll.message := "Payroll rejected" |}, d)
  ∧ ∀ audit_ok,
      Payroll.post_process audit_ok d tenantId cycleId
      = (Payroll.status_error 404 "Payroll cycle not found", d).
Proof.
  intros H.
  unfold Payroll.post_submit, Payroll.post_approve, Payroll.post_reject,
    Payroll.post_process.
  rewrite !(update_cycle_unknown _ _ _ _ H), H. done.
Qed.

Lemma actions_on_unknown_cycle_witness :
  Payroll.post_approve Examples.april_db 9%N 2%N 5%N
  = (Payroll.json {| Payroll.success := true;
                     Payroll.message := "Payroll approved" |},
     Examples.april_db).
Proof.
  destruct (actions_on_unknown_cycle Examples.april_db 9%N 2%N 5%N eq_refl)
    as (_ & H & _).
  exact H.
Defined.

(** X22. The whole course of a cycle: after submit, then approve by a user,
    process starts the processing and leaves the cycle in status
    'processing', approved by that user and otherwise as it was; a second
    process is refused with the error that names 'processing' and changes
    nothing. *)
Theorem submit_approve_process d userId tenantId cycleId c :
  Payroll.find_cycle d cycleId tenantId = [c] →
  let d1 := snd (Payroll.post_submit d tenantId cycleId) in
  let d2 := snd (Payroll.post_approve d1 userId tenantId cycleId) in
  let d3 := snd (Payroll.post_process true d2 tenantId cycleId) in
  fst (Payroll.post_process true d2 tenantId cycleId)
  = Payroll.json {| Payroll.success := true;
                    Payroll.message := "Payroll processing started" |}
  ∧ Payroll.find_cycle d3 cycleId tenantId
    = [Payroll.set_status processing (Some userId) c]
  ∧ ∀ audit_ok,
      Payroll.post_process audit_ok d3 tenantId cycleId
      = (Payroll.status_error 400
           "Cannot process payroll. Current status is 'processing'. Only 'approved' payroll can be processed.",
         d3).
Proof.
  intros Hfind d1 d2 d3.
  assert (H2 : Payroll.find_cycle d2 cycleId tenantId
               = [Payroll.set_status approved (Some userId) c]).
  { subst d2 d1. unfold Payroll.post_approve, Payroll.post_submit.
    cbn [snd]. rewrite !find_cycle_update by (intros; apply set_status_keeps).
    rewrite Hfind. reflexivity. }
  assert (Hp : Payroll.post_process true d2 tenantId cycleId
               = (Payroll.json {| Payroll.success := true;
                    Payroll.message := "Payroll processing started" |},
                  Payroll.update_cycle
                    (λ c, Payroll.set_status processing (Cycle.approved_by c) c)
                    cycleId tenantId d2)).
  { by rewrite (post_process_accepts true _ _ _ _ _ H2). }
  assert (H3 : Payroll.find_cycle d3 cycleId tenantId
               = [Payroll.set_status processing (Some userId) c]).
  { subst d3. rewrite Hp. cbn [snd].
    rewrite find_cycle_update by (intros; apply set_status_keeps).
    rewrite H2. reflexivity. }
  split; [by rewrite Hp|]. split; [exact H3|]. intros audit_ok.
  by rewrite (post_process_rejects audit_ok _ _ _ _ _ H3).
Qed.

Lemma submit_approve_process_witness :
  List.map Cycle.status
    (Payroll.find_cycle
       (snd (Payroll.post_process true
          (snd (Payroll.post_approve
             (snd (Payroll.post_submit Examples.april_db 1%N 5%N))
             9%N 1%N 5%N)) 1%N 5%N)) 5%N 1%N)
  = [processing].
Proof.
  destruct (submit_approve_process Examples.april_db 9%N 1%N 5%N
              Examples.april eq_refl) as (_ & H & _).
  cbv zeta in H. rewrite H. reflexivity.
Defined.

(** ** POST /payroll-cycles: the cycle it creates *)

Lemma cycle_fresh_id_bound cs c :
  In c cs → (Cycle.id c < Payroll.fresh_id cs)%N.
Proof.
  unfold Payroll.fresh_id. induction cs as [|x cs IH]; [done|].
  cbn [List.map fold_right]. intros [->|Hin]; [lia|].
  specialize (IH Hin). lia.
Qed.

(** X23. The cycle POST /payroll-cycles answers with 201 is a draft of the
    tenant, created by the requester and approved by nobody, for the month
    and year [parseInt] reads from the body, with a month in 1..12 and a
    payday in 1..31; it is added at the end of the table under an id no
    cycle had, it is the one cycle found under that id, and the preview
    finds it: whatever else the preview answers, it is not the 404 of a
    cycle that is not found. *)
Theorem post_payroll_cycles_created audit_ok d tenantId userId b cycle d' :
  Payroll.post_payroll_cycles audit_ok d tenantId userId b
  = (Payroll.Response 201 (inr cycle), d') →
  Cycle.status cycle = draft ∧ Cycle.tenant_id cycle = tenantId
  ∧ Cycle.created_by cycle = Some userId ∧ Cycle.approved_by cycle = None
  ∧ Js.parseInt (Payroll.CycleBody.month b) = Some (Cycle.month cycle)
  ∧ Js.parseInt (Payroll.CycleBody.year b) = Some (Cycle.year cycle)
  ∧ 1 ≤ Cycle.month cycle ≤ 12
  ∧ (∃ p, Cycle.payday cycle = Some p ∧ 1 ≤ p ≤ 31)
  ∧ (Cycle.id cycle ∉ List.map Cycle.id (payroll_cycles d))
  ∧ payroll_cycles d' = payroll_cycles d ++ [cycle]
  ∧ Payroll.find_cycle d' (Cycle.id cycle) tenantId = [cycle]
  ∧ ∀ date_in LocalTZA,
      Payroll.code
        (Payroll64.get_preview date_in LocalTZA d' tenantId (Cycle.id cycle))
      ≠ 404.
Proof.
  unfold Payroll.post_payroll_cycles.
  destruct (_ || _); [discriminate|].
  destruct (Js.parseInt (Payroll.CycleBody.month b)) as [m|]; [|discriminate].
  destruct (Js.parseInt (Payroll.CycleBody.year b)) as [y|]; [|discriminate].
  destruct (Payroll.pg_integer (Payroll.CycleBody.payday b)) as [p|];
    [|discriminate].
  destruct (Payroll.pg_integer _) as [n|]; [|discriminate].
  destruct (Payroll.insert_cycle _ _) as [sqlstate|cs] eqn:E.
  { destruct (bool_decide _); discriminate. }
  destruct audit_ok; [|discriminate]. intros [= <- <-].
  revert E. unfold Payroll.insert_cycle. cbn [Cycle.month Cycle.payday].
  destruct ((1 <=? m) && (m <=? 12)) eqn:Hm; [|discriminate].
  destruct ((1 <=? p) && (p <=? 31)) eqn:Hp; [|discriminate].
  cbn [negb]. destruct (existsb _ _); [discriminate|]. intros [= <-].
  apply andb_true_iff in Hm as [Hm1 Hm2], Hp as [Hp1 Hp2].
  apply Z.leb_le in Hm1, Hm2, Hp1, Hp2.
  cbn [Cycle.status Cycle.tenant_id Cycle.created_by Cycle.approved_by
       Cycle.month Cycle.year Cycle.payday Cycle.id
       Payroll.with_payroll_cycles payroll_cycles].
  assert (Hfresh : Payroll.fresh_id (payroll_cycles d)
                   ∉ List.map Cycle.id (payroll_cycles d)).
  { rewrite list_elem_of_In, in_map_iff. intros (c & Ec & Hin).
    apply cycle_fresh_id_bound in Hin. lia. }
  assert (Hfind : Payroll.find_cycle
            (Payroll.with_payroll_cycles d
               (payroll_cycles d ++
                [{| Cycle.id := Payroll.fresh_id (payroll_cycles d);
                    Cycle.tenant_id := tenantId; Cycle.month := m;
                    Cycle.year := y; Cycle.payday := Some p;
                    Cycle.status := draft; Cycle.total_employees := n;
                    Cycle.total_amount :=
                      Js.or_num
                        (default 0%Q (Payroll.CycleBody.totalCompensation b))
                        0;
                    Cycle.approved_by := None;
                    Cycle.created_by := Some userId |}]))
            (Payroll.fresh_id (payroll_cycles d)) tenantId
          = [{| Cycle.id := Payroll.fresh_id (payroll_cycles d);
                Cycle.tenant_id := tenantId; Cycle.month := m;
                Cycle.year := y; Cycle.payday := Some p;
                Cycle.status := draft; Cycle.total_employees := n;
                Cycle.total_amount :=
                  Js.or_num
                    (default 0%Q (Payroll.CycleBody.totalCompensation b)) 0;
                Cycle.approved_by := None;
                Cycle.created_by := Some userId |}]).
  { unfold Payroll.find_cycle.
    cbn [Payroll.with_payroll_cycles payroll_cycles].
    rewrite List.filter_app. cbn [List.filter Cycle.id Cycle.tenant_id].
    rewrite !bool_decide_eq_true_2 by reflexivity. cbn [andb].
    assert (List.filter
              (λ c, bool_decide (Cycle.id c = Payroll.fresh_id (payroll_cycles d))
                    && bool_decide (Cycle.tenant_id c = tenantId))
              (payroll_cycles d) = []) as ->; [|reflexivity].
    destruct (List.filter _ (payroll_cycles d)) as [|x xs] eqn:Ef;
      [reflexivity|].
    apply filter_head_In in Ef as [Hin Hx].
    apply andb_true_iff in Hx as [Hx _]. apply bool_decide_eq_true_1 in Hx.
    apply cycle_fresh_id_bound in Hin. lia. }
  repeat (split; [first [reflexivity | lia | assumption]|]).
  split; [by exists p|]. split; [exact Hfresh|]. split; [reflexivity|].
  split; [exact Hfind|].
  intros date_in LocalTZA. unfold Payroll64.get_preview. rewrite Hfind.
  destruct (Payroll64.payrollMonthEnd _ _ _); [|discriminate].
  destruct (Payroll64.preview_loop _ _ _ _ _ _ _ _); discriminate.
Qed.

Lemma post_payroll_cycles_created_witness :
  ∃ cycle d',
    Payroll.post_payroll_cycles true Examples.april_db 1%N 2%N
      Cases.may_body
    = (Payroll.Response 201 (inr cycle), d')
    ∧ Cycle.month cycle = 5 ∧ Cycle.status cycle = draft
    ∧ Payroll.find_cycle d' (Cycle.id cycle) 1%N = [cycle].
Proof.
  eexists _, _. split; [vm_compute; reflexivity|].
  split; [reflexivity|].
  destruct (post_payroll_cycles_created true Examples.april_db 1%N 2%N
              Cases.may_body _ _ eq_refl) as (H1 & _ & _ & _ & _ & _ & _ & _ & _ & _ & H2 & _).
  split; [exact H1 | exact H2].
Defined.

(** ** The preview: what a line holds *)

Lemma take_1_In {A} (l : list A) x :
  In x (take 1 l) → ∃ rest, l = x :: rest.
Proof.
  destruct l as [|y l]; [intros []|]. cbn [take].
  intros [->|[]]. by exists l.
Qed.


Lemma eqb_zero_inv x :
  Double.eqb x (Double.of_Z 0) = true → ∃ s, x = S754_zero s.
Proof.
  change (Double.of_Z 0) with (S754_zero false).
  unfold Double.eqb, SFeqb.
  destruct x as [s|[]| |[] m e]; cbn [SFcompare]; try discriminate.
  by exists s.
Qed.

(** X24. A line of the preview for an employee without loss-of-pay days in
    the month has paid_days equal to total_working_days, the days of the
    month, and its gross_salary is (G / days) x days in binary64, G being
    the sum of the basic salary, HRA and special allowance of a compensation
    row of that employee; that is G up to rounding, and not always G. *)
Theorem preview_no_lop date_in LocalTZA d tenantId cycleId items it :
  Payroll64.get_preview date_in LocalTZA d tenantId cycleId
  = Payroll.json items →
  it ∈ items →
  Double.eqb (Payroll64.PreviewItem.lop_days it) (Double.of_Z 0) = true →
  ∃ cycle compensation,
    let days :=
      Double.of_Z
        (JsDate.getDate
           (JsDate.newDate_day0 (Cycle.year cycle) (Cycle.month cycle))) in
    let G :=
      Double.add
        (Double.add
           (Double.or_num
              (Double.Number (Some (Compensation.basic_salary compensation)))
              (Double.of_Z 0))
           (Double.or_num (Double.Number (Compensation.hra compensation))
              (Double.of_Z 0)))
        (Double.or_num
           (Double.Number (Compensation.special_allowance compensation))
           (Double.of_Z 0)) in
    cycle ∈ Payroll.find_cycle d cycleId tenantId
    ∧ compensation ∈ compensation_structures d
    ∧ Compensation.employee_id compensation
      = Payroll64.PreviewItem.employee_id it
    ∧ Payroll64.PreviewItem.total_working_days it = days
    ∧ Payroll64.PreviewItem.paid_days it = days
    ∧ Payroll64.PreviewItem.gross_salary it
      = Double.mul (Double.div G days) days.
Proof.
  intros Hres Hin Hlop. apply list_elem_of_In in Hin.
  destruct (get_preview64_In _ _ _ _ _ _ _ Hres Hin)
    as (cycle & monthEnd & e & c & Hcy & Hend & He & Hc & Hit).
  exists cycle, c. cbv zeta.
  split; [by apply list_elem_of_In|].
  unfold Payroll.compensation_query in Hc.
  apply take_1_In in Hc as [rest Hc].
  assert (Hcin : In c (Js.sort_by
            (λ a b, JsDate.date_le (Compensation.effective_from b)
                      (Compensation.effective_from a))
            (List.filter
               (λ c, bool_decide (Compensation.employee_id c = Employee.id e)
                     && bool_decide (Compensation.tenant_id c = tenantId)
                     && JsDate.date_le (Compensation.effective_from c)
                          monthEnd)
               (compensation_structures d))))
    by (rewrite Hc; by left).
  apply In_sort_by, filter_In in Hcin as [Hcin Hcb].
  apply andb_true_iff in Hcb as [Hcb _].
  apply andb_true_iff in Hcb as [Hc1 _].
  apply bool_decide_eq_true_1 in Hc1.
  split; [by apply list_elem_of_In|].
  unfold Payroll64.payrollMonthEnd in Hend.
  destruct (JsTime.newDate_day0 LocalTZA (Cycle.year cycle)
              (Cycle.month cycle)) as [tv|] eqn:Htv; [|discriminate].
  revert Hit Hlop. unfold Payroll64.preview_item.
  destruct (Payroll64.calculateLopAndPaidDays date_in LocalTZA d tenantId
              (Employee.id e) (Cycle.month cycle) (Cycle.year cycle))
    as [r|] eqn:Hr; [|discriminate].
  intros [= <-].
  cbn [Payroll64.PreviewItem.employee_id Payroll64.PreviewItem.lop_days
       Payroll64.PreviewItem.paid_days
       Payroll64.PreviewItem.total_working_days
       Payroll64.PreviewItem.gross_salary].
  intros Hlop. split; [exact Hc1|].
  revert Hr. unfold Payroll64.calculateLopAndPaidDays.
  destruct (Payroll64.leave_query date_in d tenantId (Employee.id e)
              (Cycle.year cycle) (Cycle.month cycle)) as [q|];
    [|discriminate].
  unfold JsTime.getDate_day0. rewrite Htv. intros [= <-].
  cbn [Payroll64.lopDays Payroll64.paidDays Payroll64.totalWorkingDays]
    in Hlop |- *.
  apply eqb_zero_inv in Hlop as [s ->].
  pose proof (newDate_day0_bounds (Cycle.year cycle) (Cycle.month cycle))
    as Hb.
  destruct (of_Z_days _ Hb) as (mD & eD & -> & _).
  split; [reflexivity|]. split; reflexivity.
Qed.

Lemma preview_no_lop_witness :
  ∃ it,
    Payroll64.PreviewItem.employee_id it = 11%N
    ∧ Payroll64.PreviewItem.paid_days it = Double.of_Z 30
    ∧ Payroll64.PreviewItem.gross_salary it
      = Double.mul (Double.div (Double.of_Z 16000) (Double.of_Z 30))
          (Double.of_Z 30)
    ∧ Payroll64.PreviewItem.gross_salary it ≠ Double.of_Z 16000.
Proof.
  assert (∃ items it0 it,
            Payroll64.get_preview Cases64.iso_date_in Cases64.utc
              Cases64.rounding_db 1%N 5%N = Payroll.json items
            ∧ items = [it0; it]
            ∧ Payroll64.PreviewItem.employee_id it = 11%N
            ∧ Double.eqb (Payroll64.PreviewItem.lop_days it) (Double.of_Z 0)
              = true)
    as (items & it0 & it & Hres & -> & Hid & Hlop).
  { eexists _, _, _. split; [vm_compute; reflexivity|].
    split; [reflexivity|]. split; reflexivity. }
  destruct (preview_no_lop Cases64.iso_date_in Cases64.utc
              Cases64.rounding_db 1%N 5%N [it0; it] it Hres)
    as (cy & c & Hcy & Hc & Hce & _ & Hpaid & Hgross);
    [apply list_elem_of_In; right; left; reflexivity | exact Hlop |].
  apply list_elem_of_In in Hcy as [<-|[]].
  rewrite Hid in Hce.
  assert (c = Examples.pay 11%N 16000) as ->.
  { apply list_elem_of_In in Hc as [<-|[<-|[]]]; [discriminate|reflexivity]. }
  exists it. split; [exact Hid|]. split; [exact Hpaid|].
  split; [exact Hgross|]. rewrite Hgross. vm_compute. discriminate.
Defined.





(** ** The preview: whom it lists, and on which compensation *)

Lemma date_le_spec a b :
  JsDate.date_le a b = true
  ↔ JsDate.year a < JsDate.year b
    ∨ (JsDate.year a = JsDate.year b
       ∧ (JsDate.month a < JsDate.month b
          ∨ (JsDate.month a = JsDate.month b
             ∧ JsDate.day a ≤ JsDate.day b))).
Proof.
  unfold JsDate.date_le.
  rewrite !orb_true_iff, !andb_true_iff, !orb_true_iff, !andb_true_iff,
    !Z.ltb_lt, !Z.eqb_eq, Z.leb_le. tauto.
Qed.

(** X26. Every line of the preview is for an active employee of the tenant
    whose date of joining, when set, is not after the month end the queries
    are given, and is computed on a compensation row of that employee and
    tenant effective by that date: of those rows, one with the latest
    effective date. The month end the queries are given is the date the
    database reads from the text of [toISOString] for local midnight of the
    last day of the cycle month. *)
Theorem preview_latest_compensation date_in LocalTZA d tenantId cycleId
    items it :
  Payroll64.get_preview date_in LocalTZA d tenantId cycleId
  = Payroll.json items →
  it ∈ items →
  ∃ cycle tv monthEnd employee compensation,
    cycle ∈ Payroll.find_cycle d cycleId tenantId
    ∧ JsTime.newDate_day0 LocalTZA (Cycle.year cycle) (Cycle.month cycle)
      = Some tv
    ∧ date_in (JsTime.toISOString tv) = Some monthEnd
    ∧ employee ∈ employees d
    ∧ Employee.tenant_id employee = tenantId
    ∧ Employee.status employee = active
    ∧ (∀ j, Employee.date_of_joining employee = Some j →
            JsDate.date_le j monthEnd = true)
    ∧ compensation ∈ compensation_structures d
    ∧ Compensation.employee_id compensation = Employee.id employee
    ∧ Compensation.tenant_id compensation = tenantId
    ∧ JsDate.date_le (Compensation.effective_from compensation) monthEnd
      = true
    ∧ (∀ c', c' ∈ compensation_structures d →
             Compensation.employee_id c' = Employee.id employee →
             Compensation.tenant_id c' = tenantId →
             JsDate.date_le (Compensation.effective_from c') monthEnd = true →
             JsDate.date_le (Compensation.effective_from c')
               (Compensation.effective_from compensation) = true)
    ∧ Payroll64.preview_item date_in LocalTZA d
        (Payroll.preview_settings d tenantId) tenantId cycle employee
        compensation = Some it.
Proof.
  intros Hres Hin. apply list_elem_of_In in Hin.
  destruct (get_preview64_In _ _ _ _ _ _ _ Hres Hin)
    as (cycle & monthEnd & e & c & Hcy & Hend & He & Hc & Hit).
  unfold Payroll64.payrollMonthEnd in Hend.
  destruct (JsTime.newDate_day0 LocalTZA (Cycle.year cycle)
              (Cycle.month cycle)) as [tv|] eqn:Htv; [|discriminate].
  exists cycle, tv, monthEnd, e, c.
  split; [by apply list_elem_of_In|]. split; [exact Htv|].
  split; [exact Hend|].
  unfold Payroll.employees_query in He.
  apply In_sort_by, filter_In in He as [He Hb].
  apply andb_true_iff in Hb as [Hb Hj]. apply andb_true_iff in Hb as [Hb1 Hb2].
  apply bool_decide_eq_true_1 in Hb1, Hb2.
  split; [by apply list_elem_of_In|]. split; [exact Hb1|].
  split; [exact Hb2|]. split.
  { intros j Ej. by rewrite Ej in Hj. }
  unfold Payroll.compensation_query in Hc.
  apply take_1_In in Hc as [rest Hc].
  set (le := λ a b : Compensation.row,
         JsDate.date_le (Compensation.effective_from b)
           (Compensation.effective_from a)) in *.
  set (sel := List.filter
         (λ c, bool_decide (Compensation.employee_id c = Employee.id e)
               && bool_decide (Compensation.tenant_id c = tenantId)
               && JsDate.date_le (Compensation.effective_from c) monthEnd)
         (compensation_structures d)) in *.
  assert (Hs : StronglySorted (λ a b, le a b = true) (Js.sort_by le sel)).
  { apply sort_by_StronglySorted; subst le; cbv beta.
    - intros a b. rewrite <- not_true_iff_false, !date_le_spec. lia.
    - intros a b x. rewrite !date_le_spec. lia. }
  assert (Hall : ∀ x, In x sel → x = c ∨ In x rest).
  { intros x Hx. apply (In_sort_by le x sel) in Hx. rewrite Hc in Hx.
    destruct Hx as [->|Hx]; auto. }
  rewrite Hc in Hs. apply StronglySorted_inv in Hs as [_ Hs].
  rewrite List.Forall_forall in Hs.
  assert (Hcin : In c sel).
  { apply (In_sort_by le). rewrite Hc. by left. }
  apply filter_In in Hcin as [Hcin Hcb].
  apply andb_true_iff in Hcb as [Hcb Hc3].
  apply andb_true_iff in Hcb as [Hc1 Hc2].
  apply bool_decide_eq_true_1 in Hc1, Hc2.
  split; [by apply list_elem_of_In|]. split; [exact Hc1|].
  split; [exact Hc2|]. split; [exact Hc3|]. split; [|exact Hit].
  intros c' Hin' H1 H2 H3.
  destruct (Hall c') as [->|Hr].
  - apply filter_In. split; [by apply list_elem_of_In|].
    by rewrite (bool_decide_eq_true_2 _ H1), (bool_decide_eq_true_2 _ H2), H3.
  - apply date_le_spec. lia.
  - by apply Hs.
Qed.

(** April 2024 under Asia/Kolkata: the month end the queries are given is
    29 April, and the line of employee 11 is computed on a row in force by
    then, not on the row in force from 30 April. *)
Lemma preview_latest_compensation_witness :
  ∃ compensation,
    compensation ∈ compensation_structures Cases64.last_day_db
    ∧ Compensation.employee_id compensation = 11%N
    ∧ JsDate.date_le (Compensation.effective_from compensation)
        (JsDate.Date 2024 4 29) = true.
Proof.
  assert (∃ items it0 it,
            Payroll64.get_preview Cases64.iso_date_in Cases64.kolkata
              Cases64.last_day_db 1%N 5%N = Payroll.json items
            ∧ items = [it0; it]
            ∧ Payroll64.PreviewItem.employee_id it = 11%N)
    as (items & it0 & it & Hres & -> & Hid).
  { eexists _, _, _. split; [vm_compute; reflexivity|].
    split; reflexivity. }
  destruct (preview_latest_compensation Cases64.iso_date_in Cases64.kolkata
              Cases64.last_day_db 1%N 5%N [it0; it] it Hres)
    as (cy & tv & monthEnd & e & c & Hcy & Htv & Hend & _ & _ & _ & _ & Hc
        & Hce & _ & Hle & _ & Hit);
    [apply list_elem_of_In; right; left; reflexivity|].
  apply list_elem_of_In in Hcy as [<-|[]].
  injection Htv as <-.
  assert (monthEnd = JsDate.Date 2024 4 29) as ->
    by (vm_compute in Hend; congruence).
  assert (Employee.id e = 11%N) as He.
  { unfold Payroll64.preview_item in Hit.
    destruct (Payroll64.calculateLopAndPaidDays _ _ _ _ _ _ _);
      [|discriminate].
    injection Hit as Hit.
    apply (f_equal Payroll64.PreviewItem.employee_id) in Hit.
    cbn [Payroll64.PreviewItem.employee_id] in Hit. congruence. }
  exists c. split; [exact Hc|]. split; [congruence|]. exact Hle.
Defined.

(** The same month and tables at Greenwich: the month end is 30 April and
    the line of employee 11 is computed on the row in force from that day
    (40000 a month); under Asia/Kolkata on the earlier row (30000). *)
Example last_day_row_east_and_west :
  (∃ it0 it,
     Payroll64.get_preview Cases64.iso_date_in Cases64.utc
       Cases64.last_day_db 1%N 5%N = Payroll.json [it0; it]
     ∧ Payroll64.PreviewItem.basic_salary it = Double.of_Z 40000)
  ∧ (∃ it0 it,
       Payroll64.get_preview Cases64.iso_date_in Cases64.kolkata
         Cases64.last_day_db 1%N 5%N = Payroll.json [it0; it]
       ∧ Payroll64.PreviewItem.basic_salary it = Double.of_Z 30000).
Proof.
  split; eexists _, _; (split; [vm_compute; reflexivity|]);
    vm_compute; reflexivity.
Qed.

(** The texts the queries are sent for April 2024. *)
Example month_end_texts :
  (JsTime.toISOString <$> JsTime.newDate_day0 Cases64.kolkata 2024 4)
  = Some "2024-04-29T18:30:00.000Z"
  ∧ (JsTime.toISOString <$> JsTime.newDate_day0 Cases64.utc 2024 4)
    = Some "2024-04-30T00:00:00.000Z".
Proof. split; reflexivity. Qed.

(** A cycle of the year 99 with a paid employee: the month end is read as
    30 April 1999, the text 99-04-01 of the leave query is refused, and the
    preview answers 500. *)
Example preview_year_99 :
  Payroll64.get_preview Cases64.iso_date_in Cases64.utc Cases64.year_99_db
    1%N 5%N
  = Payroll.status_error 500 "Failed to preview payroll".
Proof. reflexivity. Qed.

(** ** GET /payslips/:payslipId/pdf: who gets the document *)

Lemma pdf_rows_In d payslipId tenantId p :
  In p
    (flat_map
       (λ it,
          flat_map
            (λ e,
               List.map
                 (λ pc, {| Routes.PdfRow.item := it;
                           Routes.PdfRow.employee := e;
                           Routes.PdfRow.cycle := pc |})
                 (List.filter
                    (λ pc, bool_decide
                             (Item.payroll_cycle_id it = Cycle.id pc))
                    (payroll_cycles d)))
            (List.filter
               (λ e, bool_decide (Item.employee_id it = Employee.id e))
               (employees d)))
       (List.filter
          (λ it, bool_decide (Item.id it = payslipId)
                 && bool_decide (Item.tenant_id it = tenantId))
          (payroll_items d)))
  ↔ In (Routes.PdfRow.item p) (payroll_items d)
    ∧ Item.id (Routes.PdfRow.item p) = payslipId
    ∧ Item.tenant_id (Routes.PdfRow.item p) = tenantId
    ∧ In (Routes.PdfRow.employee p) (employees d)
    ∧ Item.employee_id (Routes.PdfRow.item p)
      = Employee.id (Routes.PdfRow.employee p)
    ∧ In (Routes.PdfRow.cycle p) (payroll_cycles d)
    ∧ Item.payroll_cycle_id (Routes.PdfRow.item p)
      = Cycle.id (Routes.PdfRow.cycle p).
Proof.
  rewrite in_flat_map. split.
  - intros (it & Hit & Hp). apply filter_In in Hit as [Hit Hb].
    apply andb_true_iff in Hb as [H1 H2].
    apply bool_decide_eq_true_1 in H1, H2.
    apply in_flat_map in Hp as (e & He & Hp).
    apply filter_In in He as [He He'].
    apply bool_decide_eq_true_1 in He'.
    apply in_map_iff in Hp as (pc & <- & Hpc).
    apply filter_In in Hpc as [Hpc Hpc'].
    apply bool_decide_eq_true_1 in Hpc'. by repeat split.
  - intros (Hit & H1 & H2 & He & He' & Hpc & Hpc').
    exists (Routes.PdfRow.item p). split.
    + apply filter_In. split; [exact Hit|].
      by rewrite (bool_decide_eq_true_2 _ H1), (bool_decide_eq_true_2 _ H2).
    + apply in_flat_map. exists (Routes.PdfRow.employee p). split.
      * apply filter_In. split; [exact He|]. by apply bool_decide_eq_true_2.
      * apply in_map_iff. exists (Routes.PdfRow.cycle p). split.
        -- by destruct p.
        -- apply filter_In. split; [exact Hpc|].
           by apply bool_decide_eq_true_2.
Qed.

(** X27. Payslip ids being unique, the PDF of a payslip that has its
    employee and cycle rows is given exactly when the payslip belongs to the
    tenant of the requester and the requester is HR, or the payslip is the
    requester's own, or the requester has no employee record in the tenant
    at all: it is refused to an employee who is not HR and asks for the
    payslip of another, and to every requester of another tenant. *)
Theorem get_payslip_pdf_access d user_roles userId tenantId email payslipId
    it :
  NoDup (List.map Item.id (payroll_items d)) →
  it ∈ payroll_items d → Item.id it = payslipId →
  (∃ e, e ∈ employees d ∧ Item.employee_id it = Employee.id e) →
  (∃ pc, pc ∈ payroll_cycles d ∧ Item.payroll_cycle_id it = Cycle.id pc) →
  (∃ p, Routes.get_payslip_pdf d user_roles userId tenantId email payslipId
        = Routes.Pdf p
        ∧ Routes.PdfRow.item p = it)
  ↔ Item.tenant_id it = tenantId
    ∧ (Routes.isHR user_roles userId = true
       ∨ Payroll.employee_by_email d tenantId email = []
       ∨ ∃ e rest, Payroll.employee_by_email d tenantId email = e :: rest
                   ∧ Item.employee_id it = Employee.id e).
Proof.
  intros Hnd Hin Hid (e0 & He0 & Ee0) (pc0 & Hpc0 & Epc0).
  apply list_elem_of_In in Hin, He0, Hpc0.
  unfold Routes.get_payslip_pdf.
  destruct (List.filter (λ it, bool_decide (Item.id it = payslipId))
              (payroll_items d)) as [|chk rest] eqn:Hchk.
  { exfalso. pose proof (filter_nil_In _ _ it Hchk Hin) as H. cbv beta in H.
    by rewrite (bool_decide_eq_true_2 _ Hid) in H. }
  assert (chk = it) as ->.
  { apply filter_head_In in Hchk as [Hc Hc'].
    apply bool_decide_eq_true_1 in Hc'.
    apply (NoDup_map_inj_In Item.id (payroll_items d)); [done..|].
    by rewrite Hc', Hid. }
  set (rows := flat_map _ _).
  assert (Hrows : ∀ p, In p rows → Routes.PdfRow.item p = it).
  { intros p Hp. apply pdf_rows_In in Hp as (H1 & H2 & _).
    apply (NoDup_map_inj_In Item.id (payroll_items d)); [done..|].
    by rewrite H2, Hid. }
  assert (Hne : Item.tenant_id it = tenantId → ∃ p ps, rows = p :: ps).
  { intros Ht. destruct rows as [|p ps] eqn:Er; [|by eexists _, _].
    exfalso.
    assert (In {| Routes.PdfRow.item := it; Routes.PdfRow.employee := e0;
                  Routes.PdfRow.cycle := pc0 |} rows) as Hp.
    { apply pdf_rows_In. cbn [Routes.PdfRow.item Routes.PdfRow.employee
        Routes.PdfRow.cycle]. by repeat split. }
    rewrite Er in Hp. destruct Hp. }
  case_bool_decide as Ht; cbn [negb].
  2:{ split; [by intros (p & [=] & _) | by intros [Ht' _]]. }
  destruct (Hne Ht) as (p & ps & Er). rewrite Er.
  assert (Hp : Routes.PdfRow.item p = it)
    by (apply Hrows; rewrite Er; by left).
  destruct (Payroll.employee_by_email d tenantId email) as [|e es] eqn:Hemp.
  - cbn [head fmap option_fmap option_map].
    rewrite bool_decide_eq_false_2 by (by intros [? [=]]). cbn [andb].
    split; [intros _; split; [done|]; right; by left|].
    intros _. by exists p.
  - cbn [head fmap option_fmap option_map].
    rewrite bool_decide_eq_true_2 by (by eexists). cbn [andb].
    destruct (Routes.isHR user_roles userId) eqn:Hhr.
    + rewrite andb_false_r. split; [intros _; split; [done|]; by left|].
      intros _. by exists p.
    + rewrite andb_true_r. case_bool_decide as Hown; cbn [negb].
      * injection Hown as Hown. split.
        -- intros _. split; [done|]. right. right. by exists e, es.
        -- intros _. by exists p.
      * split; [by intros (? & [=] & _)|].
        intros [_ [H|[H|(e' & es' & [= <- <-] & H)]]]; [done..|].
        exfalso. apply Hown. by rewrite H.
Qed.

Lemma get_payslip_pdf_access_witness :
  ∃ p, Routes.get_payslip_pdf Examples.april_db [] 3%N 1%N "a@x.io" 7%N
       = Routes.Pdf p
       ∧ Item.employee_id (Routes.PdfRow.item p) = 10%N.
Proof.
  destruct (get_payslip_pdf_access Examples.april_db [] 3%N 1%N "a@x.io" 7%N
              {| Item.id := 7%N; Item.tenant_id := 1%N;
                 Item.payroll_cycle_id := 5%N; Item.employee_id := 10%N;
                 Item.gross_salary := 21000; Item.deductions := 2877.5;
                 Item.net_salary := 18122.5 |}) as [_ H].
  - apply (bool_decide_eq_true_1 _). vm_compute. reflexivity.
  - apply list_elem_of_In. left. reflexivity.
  - reflexivity.
  - exists (Examples.employee 10%N "a@x.io").
    split; [apply list_elem_of_In; left; reflexivity | reflexivity].
  - exists Examples.april.
    split; [apply list_elem_of_In; left; reflexivity | reflexivity].
  - destruct H as (p & Hp & Hit).
    + split; [reflexivity|]. right. right.
      exists (Examples.employee 10%N "a@x.io"), []. split; reflexivity.
    + exists p. split; [exact Hp|]. rewrite Hit. reflexivity.
Defined.

(** ** getPayrollEmployeeId *)

(** X28. getPayrollEmployeeId looks the employee up under the lower-cased,
    trimmed email: the answer does not change when the email is given in
    that form, and an employee it finds is one of the tenant whose stored
    email is the email of the request in that form, so an employee whose
    stored email is not in lower case without surrounding space is never
    found. *)
Theorem getPayrollEmployeeId_normalizes d tenantId email :
  Routes.getPayrollEmployeeId d tenantId (Sso.trim (Sso.toLowerCase email))
  = Routes.getPayrollEmployeeId d tenantId email
  ∧ ∀ i, Routes.getPayrollEmployeeId d tenantId email = Some i →
         ∃ e, e ∈ employees d ∧ Employee.id e = i
              ∧ Employee.tenant_id e = tenantId
              ∧ Employee.email e = Sso.trim (Sso.toLowerCase email)
              ∧ Sso.trim (Sso.toLowerCase (Employee.email e))
                = Employee.email e.
Proof.
  unfold Routes.getPayrollEmployeeId. split.
  - by rewrite normalized_fixed.
  - intros i.
    destruct (List.filter _ (employees d)) as [|e es] eqn:Hf; [discriminate|].
    cbn [head fmap option_fmap option_map]. intros [= <-].
    apply filter_head_In in Hf as [Hin Hb].
    apply andb_true_iff in Hb as [H1 H2].
    apply bool_decide_eq_true_1 in H1, H2.
    exists e. rewrite list_elem_of_In. repeat split; try done.
    rewrite H2. apply normalized_fixed.
Qed.

Lemma getPayrollEmployeeId_normalizes_witness :
  Routes.getPayrollEmployeeId Examples.april_db 1%N " A@X.io " = Some 10%N
  ∧ ∃ e, e ∈ employees Examples.april_db ∧ Employee.id e = 10%N
         ∧ Employee.email e = "a@x.io".
Proof.
  destruct (getPayrollEmployeeId_normalizes Examples.april_db 1%N " A@X.io ")
    as [H1 H2].
  split; [rewrite <- H1; reflexivity|].
  destruct (H2 10%N) as (e & He & Hid & _ & Hm & _).
  - rewrite <- H1. reflexivity.
  - exists e. split; [exact He|]. split; [exact Hid | exact Hm].
Defined.

(** ** The payroll register: what is written with escapeCSV reads back *)

Lemma read_records_first st s :
  ∃ w ws rs, Csv.read_records st s = (w :: ws) :: rs.
Proof.
  revert st. induction s as [|c s IH]; intros st; [by eexists _, _, _|].
  assert (Hc : ∀ c st', ∃ w ws rs,
            Csv.cons_char c (Csv.read_records st' s) = (w :: ws) :: rs).
  { intros c' st'. destruct (IH st') as (w & ws & rs & ->).
    by eexists _, _, _. }
  assert (Hf : ∀ st', ∃ w ws rs,
            Csv.end_field (Csv.read_records st' s) = (w :: ws) :: rs).
  { intros st'. destruct (IH st') as (w & ws & rs & ->). by eexists _, _, _. }
  assert (Hr : ∀ st', ∃ w ws rs,
            Csv.end_record (Csv.read_records st' s) = (w :: ws) :: rs).
  { intros st'. by eexists _, _, _. }
  cbn [Csv.read_records].
  destruct st; repeat case_bool_decide; auto.
Qed.

Lemma prepend_empty l :
  (∃ w ws rs, l = (w :: ws) :: rs) → Csv.prepend "" l = l.
Proof. by intros (w & ws & rs & ->). Qed.

Lemma cons_char_prepend c s l :
  Csv.cons_char c (Csv.prepend s l) = Csv.prepend (String c s) l.
Proof. by destruct l as [|[|w ws] rs]. Qed.

Lemma read_records_quoted s rest :
  Csv.read_records Csv.Quoted
    (Csv.double_quotes s +:+ String Csv.quote rest)
  = Csv.prepend s (Csv.read_records Csv.AfterQuote rest).
Proof.
  induction s as [|c s IH].
  - change (Csv.double_quotes "" +:+ String Csv.quote rest)
      with (String Csv.quote rest).
    cbn [Csv.read_records]. rewrite bool_decide_eq_true_2 by reflexivity.
    symmetry. apply prepend_empty, read_records_first.
  - cbn [Csv.double_quotes]. case_bool_decide as Hc.
    + subst c. rewrite !str_app_cons. cbn [Csv.read_records].
      rewrite !bool_decide_eq_true_2 by reflexivity.
      rewrite IH. apply cons_char_prepend.
    + rewrite str_app_cons. cbn [Csv.read_records].
      rewrite (bool_decide_eq_false_2 _ Hc), IH. apply cons_char_prepend.
Qed.

Lemma read_records_unquoted s rest :
  Str.includes ","%char s = false →
  Str.includes Csv.newline s = false →
  Str.includes Csv.carriage_return s = false →
  Csv.read_records Csv.Unquoted (s +:+ rest)
  = Csv.prepend s (Csv.read_records Csv.Unquoted rest).
Proof.
  induction s as [|c s IH]; intros H1 H2 H3.
  - symmetry. apply prepend_empty, read_records_first.
  - cbn [Str.includes] in H1, H2, H3.
    apply orb_false_iff in H1 as [Hc1 Hs1], H2 as [Hc2 Hs2],
      H3 as [Hc3 Hs3].
    rewrite str_app_cons. cbn [Csv.read_records].
    rewrite Hc1, Hc2, Hc3, (IH Hs1 Hs2 Hs3).
    destruct (bool_decide (c = Csv.quote)); apply cons_char_prepend.
Qed.

(** What follows a field: the end of the text, a comma or a line feed. *)
Lemma read_records_after st rest r :
  st = Csv.FieldStart ∨ st = Csv.AfterQuote →
  rest = "" ∨ rest = String ","%char r ∨ rest = String Csv.newline r →
  Csv.read_records st rest = Csv.read_records Csv.Unquoted rest.
Proof. by intros [-> | ->] [-> | [-> | ->]]. Qed.

Lemma read_records_field f rest r :
  Csv.carriage_return_quoted f →
  rest = "" ∨ rest = String ","%char r ∨ rest = String Csv.newline r →
  Csv.read_records Csv.FieldStart (Csv.escapeCSV (Some f) +:+ rest)
  = Csv.prepend f (Csv.read_records Csv.Unquoted rest).
Proof.
  unfold Csv.carriage_return_quoted. intros Hcr Hrest. unfold Csv.escapeCSV.
  destruct (Str.includes ","%char f) eqn:Hcomma; cbn [orb] in Hcr |- *.
  2: destruct (Str.includes Csv.newline f) eqn:Hnl; cbn [orb] in Hcr |- *.
  3: destruct (Str.includes Csv.quote f) eqn:Hq.
  1-3: rewrite str_app_cons, str_app_assoc;
       change (String Csv.quote "" +:+ rest) with (String Csv.quote rest);
       cbn [Csv.read_records]; rewrite bool_decide_eq_true_2 by reflexivity;
       rewrite read_records_quoted; f_equal;
       apply (read_records_after _ _ r); auto.
  assert (Hcr' : Str.includes Csv.carriage_return f = false).
  { destruct (Str.includes Csv.carriage_return f); [|reflexivity].
    by specialize (Hcr eq_refl). }
  clear Hcr. rename Hcr' into Hcr.
  destruct f as [|c f].
  - change ("" +:+ rest) with rest.
    rewrite (read_records_after _ _ r) by auto.
    symmetry. apply prepend_empty, read_records_first.
  - cbn [Str.includes] in Hcomma, Hq, Hnl, Hcr.
    apply orb_false_iff in Hcomma as [Hc1 Hc2], Hq as [Hq1 Hq2],
      Hnl as [Hn1 Hn2], Hcr as [Hr1 Hr2].
    rewrite str_app_cons. cbn [Csv.read_records].
    rewrite Hq1, Hc1, Hn1, Hr1, (read_records_unquoted _ _ Hc2 Hn2 Hr2).
    apply cons_char_prepend.
Qed.

Lemma read_records_line fields rest r :
  fields ≠ [] →
  Forall Csv.carriage_return_quoted fields →
  rest = "" ∨ rest = String Csv.newline r →
  Csv.read_records Csv.FieldStart (Csv.escaped_line fields +:+ rest)
  = fields :: match rest with
              | EmptyString => []
              | String _ r => Csv.read_records Csv.FieldStart r
              end.
Proof.
  unfold Csv.escaped_line. intros Hne HF Hrest.
  induction HF as [|f fs Hf HF IH]; [done|]. cbn [List.map].
  rewrite join_cons. destruct fs as [|g gs].
  - cbn [List.map].
    rewrite (read_records_field f rest r Hf) by tauto.
    destruct Hrest as [-> | ->].
    + cbn [Csv.read_records Csv.prepend]. by rewrite str_app_nil_r.
    + change (Csv.read_records Csv.Unquoted (String Csv.newline r))
        with (Csv.end_record (Csv.read_records Csv.FieldStart r)).
      cbn [Csv.end_record Csv.prepend]. by rewrite str_app_nil_r.
  - cbn [List.map] in *. rewrite !str_app_assoc.
    change ("," +:+ ?x) with (String ","%char x).
    rewrite (read_records_field f _ _ Hf) by (right; left; reflexivity).
    change (Csv.read_records Csv.Unquoted (String ","%char ?x))
      with (Csv.end_field (Csv.read_records Csv.FieldStart x)).
    rewrite IH by done. cbn [Csv.end_field Csv.prepend].
    by rewrite str_app_nil_r.
Qed.

(** X29. The payroll register joins its lines with line feeds; lines written
    from fields with escapeCSV and commas read back as the same records of
    the same fields under the usual reading of comma-separated values (a
    field that opens with a double quote runs to the next double quote that
    is not doubled; elsewhere a comma ends the field, and a line feed, a
    carriage return, or the two together end the record), whatever commas,
    double quotes and line feeds the fields hold, provided every field that
    holds a carriage return also holds a comma, a double quote or a line
    feed: escapeCSV does not put a field in quotes for a carriage return
    alone. *)
Theorem register_reads_back rows :
  rows ≠ [] →
  Forall (λ fields, fields ≠ []) rows →
  Forall (Forall Csv.carriage_return_quoted) rows →
  Csv.read_records Csv.FieldStart (Csv.csvContent rows) = rows.
Proof.
  unfold Csv.csvContent. intros Hne Hrows HF.
  induction HF as [|fields rows Hf HF IH]; [done|].
  apply Forall_cons in Hrows as [Hfields Hrows]. cbn [List.map].
  rewrite join_cons. destruct rows as [|row rows].
  - cbn [List.map].
    rewrite <- (str_app_nil_r (Csv.escaped_line fields)).
    by rewrite (read_records_line fields "" "" Hfields Hf) by tauto.
  - cbn [List.map] in *.
    change (String Csv.newline "" +:+ ?x) with (String Csv.newline x).
    rewrite (read_records_line fields _ _ Hfields Hf)
      by (right; reflexivity).
    by rewrite IH.
Qed.

Lemma register_reads_back_witness :
  Csv.read_records Csv.FieldStart
    (Csv.csvContent
       [["Code"; "Name"]; ["E1"; "Rao, A."];
        [String Csv.quote "x";
         String Csv.carriage_return (String Csv.newline "y"); ""]])
  = [["Code"; "Name"]; ["E1"; "Rao, A."];
     [String Csv.quote "x";
      String Csv.carriage_return (String Csv.newline "y"); ""]].
Proof.
  apply register_reads_back; [discriminate| |];
    repeat (apply Forall_cons; split); try apply Forall_nil;
    try discriminate; try exact I;
    intros H; first [discriminate H | reflexivity].
Defined.

(** A field with a carriage return and no comma, double quote or line feed
    is written as it is, and read back as the end of a record. *)
Example carriage_return_not_quoted :
  Csv.escapeCSV (Some (String "a" (String Csv.carriage_return "b")))
  = String "a" (String Csv.carriage_return "b")
  ∧ Csv.read_records Csv.FieldStart
      (Csv.csvContent [[String "a" (String Csv.carriage_return "b"); "c"]])
    = [["a"]; ["b"; "c"]].
Proof. split; reflexivity. Qed.

(** ** POST /payroll-settings, then the preview *)

Lemma settings_query_with d ss tenantId :
  Payroll.settings_query (Routes.with_payroll_settings d ss) tenantId
  = List.filter (λ r, bool_decide (Settings.tenant_id r = tenantId)) ss.
Proof. reflexivity. Qed.

Lemma filter_upsert_same tenantId v l :
  Settings.tenant_id v = tenantId →
  List.filter (λ r, bool_decide (Settings.tenant_id r = tenantId))
    (List.map (λ r, if bool_decide (Settings.tenant_id r = tenantId)
                    then v else r) l)
  = List.map (λ _, v)
      (List.filter (λ r, bool_decide (Settings.tenant_id r = tenantId)) l).
Proof.
  intros Hv. induction l as [|r l IH]; [reflexivity|].
  cbn [List.map List.filter].
  destruct (decide (Settings.tenant_id r = tenantId)) as [Hr|Hr].
  - rewrite !(bool_decide_eq_true_2 _ Hr), (bool_decide_eq_true_2 _ Hv).
    cbn [List.map]. by rewrite IH.
  - rewrite !(bool_decide_eq_false_2 _ Hr). exact IH.
Qed.

Lemma filter_upsert_other tenantId t' v l :
  Settings.tenant_id v = tenantId → t' ≠ tenantId →
  List.filter (λ r, bool_decide (Settings.tenant_id r = t'))
    (List.map (λ r, if bool_decide (Settings.tenant_id r = tenantId)
                    then v else r) l)
  = List.filter (λ r, bool_decide (Settings.tenant_id r = t')) l.
Proof.
  intros Hv Ht. induction l as [|r l IH]; [reflexivity|].
  cbn [List.map List.filter].
  destruct (decide (Settings.tenant_id r = tenantId)) as [Hr|Hr].
  - rewrite (bool_decide_eq_true_2 _ Hr).
    rewrite !bool_decide_eq_false_2 by congruence. exact IH.
  - rewrite (bool_decide_eq_false_2 _ Hr). by rewrite IH.
Qed.

(** X30. Settings saved are the settings of the next preview: when
    POST /payroll-settings answers with a row, it is a row of the tenant,
    the four rates the preview of the tenant computes with are the rates of
    that row, and these are the rates of the body as the columns store them
    (rounded to two decimal places), a rate that is absent or zero in the
    body being replaced by the default (12, 3.25, 200 and 250000) before it
    is stored; the settings every other tenant's preview computes with are as
    before. *)
Theorem post_payroll_settings_then_preview d tenantId b row d' :
  Routes.post_payroll_settings d tenantId b = (Payroll.json row, d') →
  Settings.tenant_id row = tenantId
  ∧ Payroll.pf_rate (Payroll.preview_settings d' tenantId)
    = Settings.pf_rate row
  ∧ Payroll.esi_rate (Payroll.preview_settings d' tenantId)
    = Settings.esi_rate row
  ∧ Payroll.pt_rate (Payroll.preview_settings d' tenantId)
    = Settings.pt_rate row
  ∧ Payroll.tds_threshold (Payroll.preview_settings d' tenantId)
    = Settings.tds_threshold row
  ∧ Settings.pf_rate row
    = Decimal.store 5 2 (Js.or_num (Js.Number (Routes.b_pf_rate b)) 12.0)
  ∧ Settings.esi_rate row
    = Decimal.store 5 2 (Js.or_num (Js.Number (Routes.b_esi_rate b)) 3.25)
  ∧ Settings.pt_rate row
    = Decimal.store 8 2 (Js.or_num (Js.Number (Routes.b_pt_rate b)) 200.0)
  ∧ Settings.tds_threshold row
    = Decimal.store 12 2
        (Js.or_num (Js.Number (Routes.b_tds_threshold b)) 250000.0)
  ∧ ∀ t', t' ≠ tenantId →
          Payroll.preview_settings d' t' = Payroll.preview_settings d t'.
Proof.
  unfold Routes.post_payroll_settings.
  destruct (Decimal.store 5 2 (Js.or_num (Js.Number (Routes.b_pf_rate b)) _))
    as [pf|]; [|discriminate].
  destruct (Decimal.store 5 2 (Js.or_num (Js.Number (Routes.b_esi_rate b)) _))
    as [esi|]; [|discriminate].
  destruct (Decimal.store 8 2 _) as [pt|]; [|discriminate].
  destruct (Decimal.store 12 2 _) as [tds|]; [|discriminate].
  destruct (Decimal.store 5 2 _) as [x1|]; [|discriminate].
  destruct (Decimal.store 5 2 _) as [x2|]; [|discriminate].
  destruct (Decimal.store 5 2 _) as [x3|]; [|discriminate].
  intros [= <- <-]. cbn [Settings.pf_rate Settings.esi_rate Settings.pt_rate
    Settings.tds_threshold Settings.tenant_id].
  split; [reflexivity|].
  match goal with
  | |- context [Payroll.preview_settings ?d1 tenantId] =>
      assert (Hps : Payroll.settings_query d1 tenantId
                    = List.map
                        (λ _, {| Settings.tenant_id := tenantId;
                                 Settings.pf_rate := Some pf;
                                 Settings.esi_rate := Some esi;
                                 Settings.pt_rate := Some pt;
                                 Settings.tds_threshold := Some tds |})
                        (Payroll.settings_query d1 tenantId)
                    ∧ Payroll.settings_query d1 tenantId ≠ [])
  end.
  { rewrite settings_query_with.
    destruct (existsb _ (payroll_settings d)) eqn:Hex.
    - rewrite filter_upsert_same by reflexivity.
      apply existsb_exists in Hex as (r & Hr & Hb).
      destruct (filter_In_cons
                  (λ r, bool_decide (Settings.tenant_id r = tenantId))
                  _ r Hr Hb) as (y & rest & ->).
      split; [|discriminate]. rewrite List.map_map. reflexivity.
    - rewrite List.filter_app.
      assert (List.filter (λ r, bool_decide (Settings.tenant_id r = tenantId))
                (payroll_settings d) = []) as ->.
      { destruct (List.filter _ (payroll_settings d)) as [|y ys] eqn:Ef;
          [reflexivity|].
        apply filter_head_In in Ef as [Hy Hy'].
        assert (existsb (λ r, bool_decide (Settings.tenant_id r = tenantId))
                  (payroll_settings d) = true) as Hex'
          by (apply existsb_exists; by exists y).
        congruence. }
      cbn [List.filter Settings.tenant_id app].
      rewrite bool_decide_eq_true_2 by reflexivity.
      split; [reflexivity|discriminate]. }
  destruct Hps as [Hmap Hne].
  unfold Payroll.preview_settings at 1 2 3 4. rewrite Hmap.
  destruct (Payroll.settings_query _ tenantId) as [|r0 rs]; [done|].
  cbn [List.map Payroll.settings_of_row Payroll.pf_rate Payroll.esi_rate
       Payroll.pt_rate Payroll.tds_threshold Settings.pf_rate
       Settings.esi_rate Settings.pt_rate Settings.tds_threshold].
  do 8 (split; [reflexivity|]).
  intros t' Ht'. unfold Payroll.preview_settings.
  rewrite settings_query_with. unfold Payroll.settings_query.
  destruct (existsb _ (payroll_settings d)).
  - by rewrite filter_upsert_other.
  - rewrite List.filter_app. cbn [List.filter Settings.tenant_id].
    rewrite bool_decide_eq_false_2 by congruence. by rewrite app_nil_r.
Qed.

Lemma post_payroll_settings_then_preview_witness :
  ∃ row d',
    Routes.post_payroll_settings Examples.april_db 1%N Cases.rates_body
    = (Payroll.json row, d')
    ∧ Payroll.pf_rate (Payroll.preview_settings d' 1%N)
      = Settings.pf_rate row
    ∧ (Js.Number (Settings.pf_rate row) == 12.5)%Q
    ∧ (Js.Number (Settings.esi_rate row) == 3.25)%Q.
Proof.
  eexists _, _. split; [vm_compute; reflexivity|].
  destruct (post_payroll_settings_then_preview Examples.april_db 1%N
              Cases.rates_body _ _ eq_refl) as (_ & H & _).
  split; [exact H|]. split; reflexivity.
Defined.

(** A rate of 0.001 is not zero for the route and is stored as 0.00. *)
Example small_rate_stored_as_zero :
  (Js.or_num (Js.Number (Some 0.001%Q)) 12.0 == 0.001)%Q
  ∧ (default 1%Q (Decimal.store 5 2 0.001) == 0)%Q.
Proof. split; reflexivity. Qed.
